(** * mes-explorer: a terminal file browser

    A shallow embedding of [mes/main.py] and the proofs of the properties
    its specification states about it.

    Layout of the development:
    - Part I   the model: Python strings and [posixpath], the file system the
               [os] and [shutil] calls act on, and the functions of
               [main.py] ([list_dir], [search_files_recursive],
               [show_context_menu], [draw_files], [draw_preview],
               [draw_status_line], the popups, the three mutations and
               the body of the loop of [main]);
    - Part II  the lemmas and theorems.

    Conventions.  A Python [str] is a list of character codes; Python
    integers are [Z], except the two counters of the search (the result cap
    and the depth), which are natural numbers.  Exceptions are values of
    [exn]; a call that may raise returns a [result]. *)

From Stdlib Require Import Ascii String.
From Stdlib Require Import List Bool Arith ZArith Lia.
From Stdlib Require Import Sorting.Sorted Sorting.Permutation.
Import ListNotations.

Set Implicit Arguments.
Set Warnings "-register-all".

(* ================================================================== *)
(** * Part I.  The model                                               *)
(* ================================================================== *)

(** ** Python strings *)

Definition str := list ascii.

(** [py "abc"] is the Python literal ['abc']. *)
Definition py (s : string) : str := list_ascii_of_string s.

Definition sep : ascii := "/"%char.
Definition dot : ascii := "."%char.

Definition ord (c : ascii) : Z := Z.of_nat (nat_of_ascii c).
Definition chr (k : Z) : ascii := ascii_of_nat (Z.to_nat k).

Fixpoint str_eqb (a b : str) : bool :=
  match a, b with
  | [], [] => true
  | c :: a', d :: b' => Ascii.eqb c d && str_eqb a' b'
  | _, _ => false
  end.

(** [s.startswith(p)] *)
Fixpoint startswith (s p : str) : bool :=
  match p, s with
  | [], _ => true
  | c :: p', d :: s' => Ascii.eqb c d && startswith s' p'
  | _ :: _, [] => false
  end.

(** [s.endswith(p)] *)
Definition endswith (s p : str) : bool := startswith (rev s) (rev p).

(** [c.lower()] for the codes below 256, the characters a [str] is made
    of: the letters [A] to [Z] (65 to 90) and the letters 192 to 222 but
    the sign 215 have their lower case 32 codes above; every other code
    is left as it is. *)
Definition lower_char (c : ascii) : ascii :=
  let n := nat_of_ascii c in
  if ((65 <=? n)%nat && (n <=? 90)%nat)
     || ((192 <=? n)%nat && (n <=? 222)%nat && negb (n =? 215)%nat)
  then ascii_of_nat (n + 32) else c.

(** [s.lower()]: character by character on such strings. *)
Definition lower (s : str) : str := map lower_char s.

(** [needle in hay] *)
Fixpoint str_in (needle hay : str) : bool :=
  startswith hay needle ||
  match hay with
  | [] => false
  | _ :: hay' => str_in needle hay'
  end.

(** The truth value of a string: [if s:] *)
Definition truthy (s : str) : bool :=
  match s with [] => false | _ :: _ => true end.

(** [c.isspace()] for the codes below 256. *)
Definition isspace (c : ascii) : bool :=
  let n := nat_of_ascii c in
  ((9 <=? n)%nat && (n <=? 13)%nat) || ((28 <=? n)%nat && (n <=? 32)%nat)
  || (n =? 133)%nat || (n =? 160)%nat.

Fixpoint lstrip (s : str) : str :=
  match s with
  | c :: s' => if isspace c then lstrip s' else s
  | [] => []
  end.

(** [s.strip()] *)
Definition strip (s : str) : str := rev (lstrip (rev (lstrip s))).

(** The order of [sorted] on strings: lexicographic on the character codes. *)
Fixpoint str_leb (a b : str) : bool :=
  match a, b with
  | [], _ => true
  | _ :: _, [] => false
  | c :: a', d :: b' =>
      if (nat_of_ascii c <? nat_of_ascii d)%nat then true
      else if (nat_of_ascii d <? nat_of_ascii c)%nat then false
      else str_leb a' b'
  end.

Definition str_le (a b : str) : Prop := str_leb a b = true.

Fixpoint insert_sorted (x : str) (l : list str) : list str :=
  match l with
  | [] => [x]
  | y :: l' => if str_leb x y then x :: l else y :: insert_sorted x l'
  end.

(** [sorted(l)] on a list of strings. *)
Fixpoint sorted (l : list str) : list str :=
  match l with
  | [] => []
  | x :: l' => insert_sorted x (sorted l')
  end.

(** ** Python lists *)

(** [l[i]]: a negative index counts from the end, an index out of range
    raises [IndexError] (here [None]). *)
Definition py_index (A : Type) (l : list A) (i : Z) : option A :=
  let n := Z.of_nat (length l) in
  if (0 <=? i)%Z && (i <? n)%Z then nth_error l (Z.to_nat i)
  else if (- n <=? i)%Z && (i <? 0)%Z then nth_error l (Z.to_nat (n + i))
  else None.

(** The bound of a slice, as Python normalises it. *)
Definition slice_bound (n i : Z) : Z :=
  if (i <? 0)%Z then Z.max 0 (n + i) else Z.min i n.

(** [l[start:stop]] *)
Definition py_slice (A : Type) (l : list A) (start stop : Z) : list A :=
  let n := Z.of_nat (length l) in
  let a := slice_bound n start in
  let b := slice_bound n stop in
  firstn (Z.to_nat (b - a)) (skipn (Z.to_nat a) l).

(** [enumerate(l)] with indices counted from [i]. *)
Fixpoint enumerate_from (A : Type) (i : Z) (l : list A) : list (Z * A) :=
  match l with
  | [] => []
  | x :: l' => (i, x) :: enumerate_from (i + 1) l'
  end.

(** ** [os.path] (posixpath) *)

(** [os.path.join(a, b)] *)
Definition os_path_join (a b : str) : str :=
  if startswith b [sep] then b
  else if negb (truthy a) || endswith a [sep] then a ++ b
  else a ++ sep :: b.

(** What [os.path.join] puts between [a] and a relative path. *)
Definition glue (a : str) : str :=
  if negb (truthy a) || endswith a [sep] then [] else [sep].

(** The characters of [s] before its first separator. *)
Fixpoint until_sep (s : str) : str :=
  match s with
  | [] => []
  | c :: s' => if Ascii.eqb c sep then [] else c :: until_sep s'
  end.

(** [s] from its first separator on. *)
Fixpoint from_sep (s : str) : str :=
  match s with
  | [] => []
  | c :: s' => if Ascii.eqb c sep then s else from_sep s'
  end.

Fixpoint lstrip_sep (s : str) : str :=
  match s with
  | c :: s' => if Ascii.eqb c sep then lstrip_sep s' else s
  | [] => []
  end.

(** [os.path.basename(p)]: [p[p.rfind('/') + 1:]] *)
Definition os_path_basename (p : str) : str := rev (until_sep (rev p)).

(** [os.path.dirname(p)]: the head [p[:p.rfind('/') + 1]], without its
    trailing separators unless it consists of separators only. *)
Definition os_path_dirname (p : str) : str :=
  let head := rev (from_sep (rev p)) in
  if truthy head && negb (forallb (Ascii.eqb sep) head)
  then rev (lstrip_sep (rev head))
  else head.

(** [p.split('/')] *)
Fixpoint split_sep (p : str) : list str :=
  match p with
  | [] => [[]]
  | c :: p' =>
      if Ascii.eqb c sep then [] :: split_sep p'
      else match split_sep p' with
           | [] => [[c]]
           | w :: ws => (c :: w) :: ws
           end
  end.

(** ** Exceptions *)

Inductive exn : Type :=
| PermissionError
| FileNotFoundError
| NotADirectoryError
| IsADirectoryError
| FileExistsError
| OSError
| IndexError
| ValueError
| CursesError.                  (* [curses.error] *)

Inductive result (A : Type) : Type :=
| Ok (a : A)
| Raise (e : exn).

Arguments Ok {A} a.
Arguments Raise {A} e.

(** ** The file system under the [os] and [shutil] calls

    A tree of directories and plain files without symbolic links.  The
    children of a directory are kept in the order [os.listdir] reports
    them, which is arbitrary.  A directory may be unreadable: listing it
    raises [PermissionError].  Other permissions are not modelled. *)

Inductive node : Type :=
| File
| Dir (readable : bool) (children : list (str * node)).

(** The tree and the working directory of the process (its components
    from the root), against which relative paths are resolved. *)
Record filesystem : Type := {
  fs_root : node;
  fs_cwd : list str
}.

Fixpoint assoc (k : str) (l : list (str * node)) : option node :=
  match l with
  | [] => None
  | (k', v) :: l' => if str_eqb k k' then Some v else assoc k l'
  end.

Fixpoint remove_child (k : str) (l : list (str * node)) : list (str * node) :=
  match l with
  | [] => []
  | (k', v) :: l' =>
      if str_eqb k k' then remove_child k l' else (k', v) :: remove_child k l'
  end.

(** A child replaced where it stands, a new child entered at the end. *)
Fixpoint set_child (k : str) (v : node) (l : list (str * node))
  : list (str * node) :=
  match l with
  | [] => [(k, v)]
  | (k', v') :: l' =>
      if str_eqb k k' then (k, v) :: l' else (k', v') :: set_child k v l'
  end.

(** The node at the components [p] below [n]. *)
Fixpoint get (n : node) (p : list str) : option node :=
  match p with
  | [] => Some n
  | c :: p' =>
      match n with
      | Dir _ ch =>
          match assoc c ch with
          | Some m => get m p'
          | None => None
          end
      | File => None
      end
  end.

(** The tree with the node at [p] replaced by [v] ([Some]) or unlinked
    ([None]); the root itself can be replaced but not unlinked. *)
Fixpoint put (n : node) (p : list str) (v : option node) : node :=
  match p with
  | [] => match v with Some m => m | None => n end
  | c :: p' =>
      match n with
      | File => n
      | Dir r ch =>
          match p' with
          | [] =>
              match v with
              | Some m => Dir r (set_child c m ch)
              | None => Dir r (remove_child c ch)
              end
          | _ :: _ =>
              match assoc c ch with
              | Some m => Dir r (set_child c (put m p' v) ch)
              | None => n
              end
          end
      end
  end.

Definition is_dir (o : option node) : bool :=
  match o with Some (Dir _ _) => true | _ => false end.

Fixpoint path_eqb (a b : list str) : bool :=
  match a, b with
  | [], [] => true
  | x :: a', y :: b' => str_eqb x y && path_eqb a' b'
  | _, _ => false
  end.

Fixpoint path_prefix (a b : list str) : bool :=
  match a, b with
  | [], _ => true
  | x :: a', y :: b' => str_eqb x y && path_prefix a' b'
  | _ :: _, [] => false
  end.

(** Path resolution, one component at a time: every component is looked up
    in a directory; an empty component and [.] stay, [..] goes up. *)
Fixpoint walk (root : node) (stack comps : list str) : option (list str) :=
  match comps with
  | [] => Some stack
  | c :: rest =>
      if is_dir (get root stack) then
        if str_eqb c [] || str_eqb c (py ".") then walk root stack rest
        else if str_eqb c (py "..") then walk root (removelast stack) rest
        else walk root (stack ++ [c]) rest
      else None
  end.

(** The components a path names, when all but the last exist; the last
    may name nothing yet.  The empty path names nothing.  A path that
    ends in a separator names a directory: a last name followed by a
    separator is to exist ([os.mkdir] and [os.rename] set the separators
    at the end of the path of a directory aside first). *)
Definition resolve (fs : filesystem) (p : str) : option (list str) :=
  match p with
  | [] => None
  | _ :: _ =>
      walk (fs_root fs) (if startswith p [sep] then [] else fs_cwd fs)
           (split_sep p)
  end.

(** [p] without the separators it ends with; a path of separators only
    stays as it is. *)
Definition rstrip_sep (p : str) : str :=
  match rev (lstrip_sep (rev p)) with
  | [] => p
  | q => q
  end.

(** Whether the last component of [p], the separators [p] ends with set
    aside, is [.] or [..]. *)
Definition ends_in_dots (p : str) : bool :=
  let c := last (split_sep (rstrip_sep p)) [] in
  str_eqb c (py ".") || str_eqb c (py "..").

Definition lookup (fs : filesystem) (p : str) : option node :=
  match resolve fs p with
  | Some c => get (fs_root fs) c
  | None => None
  end.

Definition with_root (fs : filesystem) (n : node) : filesystem :=
  {| fs_root := n; fs_cwd := fs_cwd fs |}.

Definition parent_is_dir (root : node) (c : list str) : bool :=
  match c with
  | [] => false
  | _ :: _ => is_dir (get root (removelast c))
  end.

(** [os.listdir(p)] *)
Definition os_listdir (fs : filesystem) (p : str) : result (list str) :=
  match lookup fs p with
  | None => Raise FileNotFoundError
  | Some File => Raise NotADirectoryError
  | Some (Dir false _) => Raise PermissionError
  | Some (Dir true ch) => Ok (map fst ch)
  end.

(** [os.path.isdir(p)]; it never raises. *)
Definition os_path_isdir (fs : filesystem) (p : str) : bool :=
  is_dir (lookup fs p).

(** [os.rename(src, dst)] as POSIX has it: a file silently replaces an
    existing file, a directory an existing empty directory; a file over a
    directory, a directory over a file or over a directory that is not
    empty, or into its own subtree, raise.  The separators [dst] ends
    with are set aside in its resolution, so that a directory can be
    renamed to [name/]; a file cannot.  Neither path may end in [.] or
    [..]. *)
Definition os_rename (fs : filesystem) (src dst : str) : result filesystem :=
  match resolve fs src, resolve fs (rstrip_sep dst) with
  | Some o, Some n =>
      let root := fs_root fs in
      if ends_in_dots src || ends_in_dots dst then Raise OSError
      else
      match o, get root o with
      | _, None => Raise FileNotFoundError
      | [], Some _ => Raise OSError
      | _ :: _, Some s =>
          if negb (is_dir (Some s)) && endswith dst [sep]
          then Raise NotADirectoryError
          else if path_eqb o n then Ok fs
          else if path_prefix o n then Raise OSError
          else if negb (parent_is_dir root n) then Raise FileNotFoundError
          else
            let moved := with_root fs (put (put root o None) n (Some s)) in
            match s, get root n with
            | _, None => Ok moved
            | File, Some File => Ok moved
            | File, Some (Dir _ _) => Raise IsADirectoryError
            | Dir _ _, Some File => Raise NotADirectoryError
            | Dir _ _, Some (Dir _ []) => Ok moved
            | Dir _ _, Some (Dir _ (_ :: _)) => Raise OSError
            end
      end
  | _, _ => Raise FileNotFoundError
  end.

(** The pairs of a source and an existing target on which [os.rename]
    raises. *)
Definition kinds_clash (src dst : node) : bool :=
  match src, dst with
  | File, Dir _ _ => true
  | Dir _ _, File => true
  | Dir _ _, Dir _ (_ :: _) => true
  | _, _ => false
  end.

(** [os.remove(p)] *)
Definition os_remove (fs : filesystem) (p : str) : result filesystem :=
  match resolve fs p with
  | None => Raise FileNotFoundError
  | Some c =>
      match get (fs_root fs) c with
      | None => Raise FileNotFoundError
      | Some (Dir _ _) => Raise IsADirectoryError
      | Some File => Ok (with_root fs (put (fs_root fs) c None))
      end
  end.

(** [os.rmdir(p)]: only an empty directory, and not the root. *)
Definition os_rmdir (fs : filesystem) (p : str) : result filesystem :=
  match resolve fs p with
  | None => Raise FileNotFoundError
  | Some c =>
      match c, get (fs_root fs) c with
      | _, None => Raise FileNotFoundError
      | _, Some File => Raise NotADirectoryError
      | [], Some (Dir _ _) => Raise OSError
      | _ :: _, Some (Dir _ (_ :: _)) => Raise OSError
      | _ :: _, Some (Dir _ []) => Ok (with_root fs (put (fs_root fs) c None))
      end
  end.

(** [os.mkdir(p)]; the separators [p] ends with are set aside, so that
    [name/] creates [name]. *)
Definition os_mkdir (fs : filesystem) (p : str) : result filesystem :=
  match resolve fs (rstrip_sep p) with
  | None => Raise FileNotFoundError
  | Some c =>
      match get (fs_root fs) c with
      | Some _ => Raise FileExistsError
      | None =>
          if parent_is_dir (fs_root fs) c
          then Ok (with_root fs (put (fs_root fs) c (Some (Dir true []))))
          else Raise FileNotFoundError
      end
  end.

(** [with open(p, 'w'): pass]: an existing file is truncated, a missing
    one created. *)
Definition open_w (fs : filesystem) (p : str) : result filesystem :=
  match resolve fs p with
  | None => Raise FileNotFoundError
  | Some c =>
      match get (fs_root fs) c with
      | Some File => Ok fs
      | Some (Dir _ _) => Raise IsADirectoryError
      | None =>
          if parent_is_dir (fs_root fs) c
          then Ok (with_root fs (put (fs_root fs) c (Some File)))
          else Raise FileNotFoundError
      end
  end.

(** What [shutil.rmtree] leaves of a node: [None] when all of it went,
    [Some n'] when it stopped at the first directory it could not list.
    Children are removed in listing order. *)
Fixpoint rmtree_node (n : node) : option node :=
  match n with
  | File => None
  | Dir false _ => Some n
  | Dir true ch =>
      let rest :=
        (fix go (l : list (str * node)) : list (str * node) :=
           match l with
           | [] => []
           | (k, m) :: l' =>
               match rmtree_node m with
               | None => go l'
               | Some m' => (k, m') :: l'
               end
           end) ch in
      match rest with
      | [] => None
      | _ :: _ => Some (Dir true rest)
      end
  end.


(** [shutil.rmtree(p)]: the file system it leaves, and the exception it
    raised, if any.  A failure part of the way leaves the tree partly
    removed. *)
Definition shutil_rmtree (fs : filesystem) (p : str)
  : filesystem * option exn :=
  match resolve fs p with
  | None => (fs, Some FileNotFoundError)
  | Some c =>
      match get (fs_root fs) c with
      | None => (fs, Some FileNotFoundError)
      | Some File => (fs, Some NotADirectoryError)
      | Some (Dir r ch) =>
          match rmtree_node (Dir r ch), c with
          | Some n', _ =>
              (with_root fs (put (fs_root fs) c (Some n')), Some PermissionError)
          | None, [] => (with_root fs (Dir r []), Some OSError)
          | None, _ :: _ => (with_root fs (put (fs_root fs) c None), None)
          end
      end
  end.

(** ** [CONFIG] *)

Record config : Type := {
  show_hidden : bool;
  sort_dirs_first : bool;
  preview_max_lines : nat;
  search_max_depth : nat;
  confirm_actions : bool
}.

(** The values [CONFIG] is initialised with. *)
Definition CONFIG : config :=
  {| show_hidden := false; sort_dirs_first := true; preview_max_lines := 50;
     search_max_depth := 3; confirm_actions := true |}.

(** ** Listing and searching

    Both only read the file system.  They are written over the two reads
    they make, [os.listdir] and [os.path.isdir], so that what is proved of
    them holds whatever these answer. *)

Section Reading.

Variable listdir : str -> result (list str).
Variable isdir : str -> bool.
Variable cfg : config.

Definition hidden (e : str) : bool := startswith e [dot].

(** [list_dir(path)] *)
Definition list_dir (path : str) : result (list str) :=
  match listdir path with
  | Raise PermissionError => Ok []
  | Raise e => Raise e
  | Ok entries =>
      let entries :=
        if negb (show_hidden cfg)
        then filter (fun e => negb (hidden e)) entries
        else entries in
      if sort_dirs_first cfg then
        let dirs := filter (fun e => isdir (os_path_join path e)) entries in
        let files :=
          filter (fun e => negb (isdir (os_path_join path e))) entries in
        Ok (sorted dirs ++ sorted files)
      else Ok (sorted entries)
  end.

(** What the search does, in the order it does it: the directories it
    lists (with the depth it lists them at) and the matches it records. *)
Inductive action : Type :=
| Listed (current_path : str) (depth : nat)
| Matched (display_path full_path : str).

(** The state [search_in_dir] works on: the list [results] of the
    enclosing function, and the log of its actions. *)
Record search_state : Type := {
  results : list (str * str);
  log : list action
}.

Definition record_listing (st : search_state) (p : str) (d : nat)
  : search_state :=
  {| results := results st; log := log st ++ [Listed p d] |}.

(** [results.append((display_path, full_path))] *)
Definition append_result (st : search_state) (d f : str) : search_state :=
  {| results := results st ++ [(d, f)]; log := log st ++ [Matched d f] |}.

Variable query_lower : str.
Variable max_results : nat.

(** The nested function [search_in_dir].  The recursion goes one level
    down at each call and stops below [search_max_depth]; [fuel] counts the
    levels the recursion may still go down. *)
Fixpoint search_in_dir (fuel : nat) (current_path relative_path : str)
  (depth : nat) (st : search_state) : search_state :=
  if (max_results <=? length (results st))%nat
     || (search_max_depth cfg <? depth)%nat
  then st
  else
    match fuel with
    | O => st
    | S fuel' =>
        match listdir current_path with
        | Raise _ => record_listing st current_path depth
        | Ok entries =>
            (fix loop (entries : list str) (st : search_state)
               : search_state :=
               match entries with
               | [] => st
               | entry :: rest =>
                   if (max_results <=? length (results st))%nat then st
                   else if negb (show_hidden cfg) && hidden entry
                   then loop rest st
                   else
                     let full_path := os_path_join current_path entry in
                     let display_path :=
                       if truthy relative_path
                       then os_path_join relative_path entry
                       else entry in
                     let st1 :=
                       if str_in query_lower (lower entry)
                       then append_result st display_path full_path
                       else st in
                     let st2 :=
                       if isdir full_path
                       then search_in_dir fuel' full_path display_path
                                          (S depth) st1
                       else st1 in
                     loop rest st2
               end) entries (record_listing st current_path depth)
        end
    end.

End Reading.

(** The entries [list_dir] keeps of what [os.listdir] reports. *)
Definition shown (cfg : config) (entries : list str) : list str :=
  if negb (show_hidden cfg)
  then filter (fun e => negb (hidden e)) entries
  else entries.

(** The body of the loop over [entries] in [search_in_dir], by itself. *)
Definition search_loop (listdir : str -> result (list str))
  (isdir : str -> bool) (cfg : config) (query_lower : str)
  (max_results fuel : nat) (current_path relative_path : str) (depth : nat)
  : list str -> search_state -> search_state :=
  fix loop (entries : list str) (st : search_state) : search_state :=
    match entries with
    | [] => st
    | entry :: rest =>
        if (max_results <=? length (results st))%nat then st
        else if negb (show_hidden cfg) && hidden entry
        then loop rest st
        else
          let full_path := os_path_join current_path entry in
          let display_path :=
            if truthy relative_path
            then os_path_join relative_path entry
            else entry in
          let st1 :=
            if str_in query_lower (lower entry)
            then append_result st display_path full_path
            else st in
          let st2 :=
            if isdir full_path
            then search_in_dir listdir isdir cfg query_lower max_results
                               fuel full_path display_path (S depth) st1
            else st1 in
          loop rest st2
    end.

(** The whole run of [search_files_recursive]: its results and its log.
    The root is at depth 0, so [search_max_depth + 1] levels are enough. *)
Definition search_run (listdir : str -> result (list str))
  (isdir : str -> bool) (cfg : config) (root_path query : str)
  (max_results : nat) : search_state :=
  search_in_dir listdir isdir cfg (lower query) max_results
                (S (search_max_depth cfg)) root_path [] 0
                {| results := []; log := [] |}.

(** [search_files_recursive(root_path, query, max_results)] *)
Definition search_files_recursive (listdir : str -> result (list str))
  (isdir : str -> bool) (cfg : config) (root_path query : str)
  (max_results : nat) : list (str * str) :=
  results (search_run listdir isdir cfg root_path query max_results).

(** ** The terminal: key codes and mouse masks of [curses]

    The values are those of ncurses 6 ([curses.h], mouse version 2). *)

Local Open Scope Z_scope.

Definition KEY_DOWN : Z := 258.
Definition KEY_UP : Z := 259.
Definition KEY_BACKSPACE : Z := 263.
Definition KEY_F2 : Z := 266.
Definition KEY_DC : Z := 330.
Definition KEY_ENTER : Z := 343.
Definition KEY_MOUSE : Z := 409.
Definition BUTTON1_PRESSED : Z := 2.
Definition BUTTON3_PRESSED : Z := 2048.
Definition BUTTON4_PRESSED : Z := 65536.
Definition BUTTON5_PRESSED : Z := 2097152.

(** [ord('c')] for a character literal. *)
Definition key_of (c : ascii) : Z := ord c.

(** [len(l)] *)
Definition len (A : Type) (l : list A) : Z := Z.of_nat (length l).

(** The truth value of a list or of an integer. *)
Definition nonempty (A : Type) (l : list A) : bool :=
  match l with [] => false | _ :: _ => true end.

Definition nonzero (z : Z) : bool := negb (z =? 0).

(** ** The context menu *)

(** One round of the loop of [show_context_menu]: what [getch] returned,
    with the report [getmouse] would give ([None]: it raises
    [curses.error]); or [getch] itself raising [curses.error]. *)
Inductive menu_input : Type :=
| Getch (key : Z) (mouse : option (Z * Z))
| GetchError.

(** How [show_context_menu] ends: it returns an option's value, it returns
    [None], it raises, or, its input used up, it still waits for a key. *)
Inductive menu_result (A : Type) : Type :=
| Chosen (a : A)
| Closed
| MenuRaise (e : exn)
| Waiting.

Arguments Chosen {A} a.
Arguments Closed {A}.
Arguments MenuRaise {A} e.
Arguments Waiting {A}.

Section Menu.

Variable A : Type.
Variable options : list (str * A).
Variables y x menu_h menu_w : Z.

(** The [while True] loop of [show_context_menu]. *)
Fixpoint menu_loop (inputs : list menu_input) : menu_result A :=
  match inputs with
  | [] => Waiting
  | GetchError :: rest => menu_loop rest
  | Getch key mouse :: rest =>
      if key =? 27 then Closed
      else if key =? KEY_MOUSE then
        match mouse with
        | None => menu_loop rest
        | Some (mx, my) =>
            if negb ((y <=? my) && (my <? y + menu_h)
                     && (x <=? mx) && (mx <? x + menu_w))
            then Closed
            else menu_loop rest
        end
      else if (0 <=? key - key_of "1") && (key - key_of "1" <? len options)
      then match py_index options (key - key_of "1") with
           | Some (_, a) => Chosen a
           | None => MenuRaise IndexError
           end
      else menu_loop rest
  end.

End Menu.

(** [max(max(len(opt[0]) for opt in options) + 4, 25)], the width of the
    menu. *)
Definition menu_width (A : Type) (options : list (str * A)) : Z :=
  Z.max (fold_right Z.max 0 (map (fun opt => len (fst opt)) options) + 4) 25.

(** The row and the column the menu asked for at [(y, x)] is put at: one
    that would end below or right of the screen is moved up or left. *)
Definition menu_row (A : Type) (h y : Z) (options : list (str * A)) : Z :=
  if y + (len options + 2) >? h then h - (len options + 2) else y.

Definition menu_col (A : Type) (w x : Z) (options : list (str * A)) : Z :=
  if x + menu_width options >? w then w - menu_width options else x.

(** A text with a null character: [addstr] and [addnstr] raise
    [ValueError] on it. *)
Definition has_null (t : str) : bool := existsb (Ascii.eqb Ascii.zero) t.

(** A text of printable ASCII characters, which [addstr] writes on as
    many cells of a row as it has characters. *)
Definition plain_text (t : str) : bool :=
  forallb (fun c => (32 <=? nat_of_ascii c)%nat
                    && (nat_of_ascii c <=? 126)%nat) t.

(** [show_context_menu(stdscr, y, x, options)] on a screen of [h] rows and
    [w] columns.  [max] of no option raises [ValueError].  The window is
    made and written before the loop, outside its [try]:
    [curses.newwin] raises [curses.error] for a window that begins above
    or left of the screen, which is where a menu larger than the screen
    is moved to, and [addstr] raises [ValueError] on a label with a null
    character.  The labels are taken to be written within their rows
    otherwise, as texts of printable characters are: a label is at most
    [menu_w - 4] characters long and is written from the column 2. *)
Definition show_context_menu (A : Type) (h w y x : Z)
  (options : list (str * A)) (inputs : list menu_input) : menu_result A :=
  match options with
  | [] => MenuRaise ValueError
  | _ :: _ =>
      let menu_h := len options + 2 in
      let menu_w := menu_width options in
      let y := menu_row h y options in
      let x := menu_col w x options in
      if (y <? 0) || (x <? 0) then MenuRaise CursesError
      else if existsb (fun opt => has_null (fst opt)) options
      then MenuRaise ValueError
      else menu_loop options y x menu_h menu_w inputs
  end.

(** The screen of [h] rows and [w] columns has room for the menu of
    [options], and the place [(y, x)] the menu is asked for is on it. *)
Definition menu_room (A : Type) (h w y x : Z) (options : list (str * A))
  : Prop :=
  0 <= y /\ 0 <= x /\ len options + 2 <= h /\ menu_width options <= w.

(** The labels of [options] are texts of printable characters. *)
Definition plain_labels (A : Type) (options : list (str * A)) : Prop :=
  Forall (fun opt => plain_text (fst opt) = true) options.

(** ** The list pane *)

(** An entry of the listing: a name of the current directory, or a pair
    (display path, full path) of the search. *)
Inductive entry : Type :=
| Plain (name : str)
| Located (display_path full_path : str).

(** Where the first [curses.error] of a call of [draw_files] is raised, if
    any: while the pane is cleared, while the title is written, or while
    the rows are. *)
Inductive draw_fault : Type :=
| NoFault
| FaultAtClear
| FaultAtTitle
| FaultAtRows.

(** The loop of [draw_files] that fills [click_areas], over the enumerated
    visible entries. *)
Fixpoint click_loop (h offset : Z) (items : list (Z * entry))
  : list (Z * Z) :=
  match items with
  | [] => []
  | (i, _) :: rest =>
      let y_pos := i + 2 in
      if y_pos >=? h - 2 then []
      else (y_pos, i + offset) :: click_loop h offset rest
  end.

(** The scroll adjustment of [draw_files]. *)
Definition adjust_offset (current_idx offset max_visible : Z) : Z :=
  if current_idx <? offset then current_idx
  else if current_idx >=? offset + max_visible
       then current_idx - max_visible + 1
       else offset.

(** [draw_files(stdscr, path, files, current_idx, offset, search_mode, ...)]
    on a screen of [h] rows: the offset and the click areas it returns.
    It catches [curses.error] only: the [os.listdir] of the title line
    raises through it.  The keys of the click areas are distinct, so a list
    of pairs stands for the dict. *)
Definition draw_files (fs : filesystem) (h : Z) (fault : draw_fault)
  (path : str) (files : list entry) (current_idx offset : Z)
  (search_mode : bool) : result (Z * list (Z * Z)) :=
  match fault with
  | FaultAtClear => Ok (offset, [])
  | _ =>
      match (if negb search_mode && nonempty files && os_path_isdir fs path
             then os_listdir fs path else Ok []) with
      | Raise e => Raise e
      | Ok _ =>
          match fault, files with
          | FaultAtTitle, _ => Ok (offset, [])
          | _, [] => Ok (offset, [])
          | _, _ :: _ =>
              let max_visible := h - 4 in
              let offset := adjust_offset current_idx offset max_visible in
              match fault with
              | NoFault =>
                  Ok (offset,
                      click_loop h offset
                        (enumerate_from 0
                           (py_slice files offset (offset + max_visible))))
              | _ => Ok (offset, [])
              end
          end
      end
  end.

(** [click_areas[y]], when [y in click_areas]. *)
Fixpoint click_at (y : Z) (click_areas : list (Z * Z)) : option Z :=
  match click_areas with
  | [] => None
  | (k, v) :: rest => if k =? y then Some v else click_at y rest
  end.

(** ** The popups *)

(** [get_input_popup]: the line typed, stripped. *)
Definition get_input_popup (typed : str) : str := strip typed.

(** [confirm_popup]: only [y] confirms. *)
Definition confirm_popup (key : Z) : bool := key =? key_of "y".

(** ** The mutations *)

(** [create_file_or_dir(path, is_file)] *)
Definition create_file_or_dir (fs : filesystem) (path : str) (is_file : bool)
  : bool * filesystem :=
  match (if is_file then open_w fs path else os_mkdir fs path) with
  | Ok fs' => (true, fs')
  | Raise _ => (false, fs)
  end.

(** [rename_file_or_dir(old_path, new_path)] *)
Definition rename_file_or_dir (fs : filesystem) (old_path new_path : str)
  : bool * filesystem :=
  match os_rename fs old_path new_path with
  | Ok fs' => (true, fs')
  | Raise _ => (false, fs)
  end.

(** [delete_file_or_dir(path)] *)
Definition delete_file_or_dir (fs : filesystem) (cfg : config) (path : str)
  : bool * filesystem :=
  if os_path_isdir fs path then
    if confirm_actions cfg then
      match shutil_rmtree fs path with
      | (fs', None) => (true, fs')
      | (fs', Some _) => (false, fs')
      end
    else
      match os_rmdir fs path with
      | Ok fs' => (true, fs')
      | Raise _ => (false, fs)
      end
  else
    match os_remove fs path with
    | Ok fs' => (true, fs')
    | Raise _ => (false, fs)
    end.

(** ** The context menu of a file *)

Definition context_options : list (str * str) :=
  [ (py "1. Open with default", py "open_default");
    (py "2. Open with Vim", py "open_vim");
    (py "3. Rename", py "rename");
    (py "4. Delete", py "delete");
    (py "5. Copy Path", py "copy_path");
    (py "6. Properties", py "properties") ].

(** How [show_file_context] ends: it returns a boolean, leaving a file
    system; it raises; or its menu still waits for a key. *)
Inductive context_result : Type :=
| CtxReturn (changed : bool) (fs : filesystem)
| CtxRaise (e : exn)
| CtxWaiting.

(** [show_file_context(stdscr, full_path, y, x)]; [pos] is [(y, x)] when
    they are given.  Opening a file, copying its path and showing its
    properties leave the browser and the file system as they are. *)
Definition show_file_context (fs : filesystem) (cfg : config) (h w : Z)
  (full_path : str) (pos : option (Z * Z)) (menu_keys : list menu_input)
  (typed : str) (confirm_key : Z) : context_result :=
  let '(y, x) := match pos with
                 | Some (y, x) => (y, x)
                 | None => (h / 2, w / 2)
                 end in
  match show_context_menu h w y x context_options menu_keys with
  | Waiting => CtxWaiting
  | MenuRaise e => CtxRaise e
  | Closed => CtxReturn false fs
  | Chosen action =>
      if str_eqb action (py "open_default") then CtxReturn false fs
      else if str_eqb action (py "open_vim") then CtxReturn false fs
      else if str_eqb action (py "rename") then
        let new_name := get_input_popup typed in
        if truthy new_name then
          let new_path :=
            os_path_join (os_path_dirname full_path) new_name in
          match rename_file_or_dir fs full_path new_path with
          | (true, fs') => CtxReturn true fs'
          | (false, fs') => CtxReturn false fs'
          end
        else CtxReturn false fs
      else if str_eqb action (py "delete") then
        if confirm_popup confirm_key then
          match delete_file_or_dir fs cfg full_path with
          | (true, fs') => CtxReturn true fs'
          | (false, fs') => CtxReturn false fs'
          end
        else CtxReturn false fs
      else CtxReturn false fs
  end.

(** ** The browser *)

(** The file system, [CONFIG] and the local variables of [main].  Times
    are in milliseconds. *)
Record state : Type := {
  fs : filesystem;
  cfg : config;
  path : str;
  files : list entry;
  all_files : list entry;
  search_results : list entry;
  current_idx : Z;
  offset : Z;
  search_mode : bool;
  search_query : str;
  last_click_time : Z;
  last_click_idx : Z;
  clicked_idx : Z
}.

Definition set_fs (v : filesystem) (s : state) : state :=
  {| fs := v; cfg := cfg s; path := path s; files := files s;
     all_files := all_files s; search_results := search_results s;
     current_idx := current_idx s; offset := offset s;
     search_mode := search_mode s; search_query := search_query s;
     last_click_time := last_click_time s; last_click_idx := last_click_idx s;
     clicked_idx := clicked_idx s |}.

Definition set_cfg (v : config) (s : state) : state :=
  {| fs := fs s; cfg := v; path := path s; files := files s;
     all_files := all_files s; search_results := search_results s;
     current_idx := current_idx s; offset := offset s;
     search_mode := search_mode s; search_query := search_query s;
     last_click_time := last_click_time s; last_click_idx := last_click_idx s;
     clicked_idx := clicked_idx s |}.

Definition set_path (v : str) (s : state) : state :=
  {| fs := fs s; cfg := cfg s; path := v; files := files s;
     all_files := all_files s; search_results := search_results s;
     current_idx := current_idx s; offset := offset s;
     search_mode := search_mode s; search_query := search_query s;
     last_click_time := last_click_time s; last_click_idx := last_click_idx s;
     clicked_idx := clicked_idx s |}.

Definition set_files (v : list entry) (s : state) : state :=
  {| fs := fs s; cfg := cfg s; path := path s; files := v;
     all_files := all_files s; search_results := search_results s;
     current_idx := current_idx s; offset := offset s;
     search_mode := search_mode s; search_query := search_query s;
     last_click_time := last_click_time s; last_click_idx := last_click_idx s;
     clicked_idx := clicked_idx s |}.

Definition set_all_files (v : list entry) (s : state) : state :=
  {| fs := fs s; cfg := cfg s; path := path s; files := files s;
     all_files := v; search_results := search_results s;
     current_idx := current_idx s; offset := offset s;
     search_mode := search_mode s; search_query := search_query s;
     last_click_time := last_click_time s; last_click_idx := last_click_idx s;
     clicked_idx := clicked_idx s |}.

Definition set_search_results (v : list entry) (s : state) : state :=
  {| fs := fs s; cfg := cfg s; path := path s; files := files s;
     all_files := all_files s; search_results := v;
     current_idx := current_idx s; offset := offset s;
     search_mode := search_mode s; search_query := search_query s;
     last_click_time := last_click_time s; last_click_idx := last_click_idx s;
     clicked_idx := clicked_idx s |}.

Definition set_current_idx (v : Z) (s : state) : state :=
  {| fs := fs s; cfg := cfg s; path := path s; files := files s;
     all_files := all_files s; search_results := search_results s;
     current_idx := v; offset := offset s;
     search_mode := search_mode s; search_query := search_query s;
     last_click_time := last_click_time s; last_click_idx := last_click_idx s;
     clicked_idx := clicked_idx s |}.

Definition set_offset (v : Z) (s : state) : state :=
  {| fs := fs s; cfg := cfg s; path := path s; files := files s;
     all_files := all_files s; search_results := search_results s;
     current_idx := current_idx s; offset := v;
     search_mode := search_mode s; search_query := search_query s;
     last_click_time := last_click_time s; last_click_idx := last_click_idx s;
     clicked_idx := clicked_idx s |}.

Definition set_search_mode (v : bool) (s : state) : state :=
  {| fs := fs s; cfg := cfg s; path := path s; files := files s;
     all_files := all_files s; search_results := search_results s;
     current_idx := current_idx s; offset := offset s;
     search_mode := v; search_query := search_query s;
     last_click_time := last_click_time s; last_click_idx := last_click_idx s;
     clicked_idx := clicked_idx s |}.

Definition set_search_query (v : str) (s : state) : state :=
  {| fs := fs s; cfg := cfg s; path := path s; files := files s;
     all_files := all_files s; search_results := search_results s;
     current_idx := current_idx s; offset := offset s;
     search_mode := search_mode s; search_query := v;
     last_click_time := last_click_time s; last_click_idx := last_click_idx s;
     clicked_idx := clicked_idx s |}.

Definition set_last_click (time idx : Z) (s : state) : state :=
  {| fs := fs s; cfg := cfg s; path := path s; files := files s;
     all_files := all_files s; search_results := search_results s;
     current_idx := current_idx s; offset := offset s;
     search_mode := search_mode s; search_query := search_query s;
     last_click_time := time; last_click_idx := idx;
     clicked_idx := clicked_idx s |}.

Definition set_clicked_idx (v : Z) (s : state) : state :=
  {| fs := fs s; cfg := cfg s; path := path s; files := files s;
     all_files := all_files s; search_results := search_results s;
     current_idx := current_idx s; offset := offset s;
     search_mode := search_mode s; search_query := search_query s;
     last_click_time := last_click_time s; last_click_idx := last_click_idx s;
     clicked_idx := v |}.

(** How a call of [draw_preview] goes, which the contents of the files
    and the screen decide: it writes its lines, or is cut short by a
    [curses.error] among them; a [curses.error] ends it while the pane
    is cleared, before an entry is read; or a line it gets to write has a
    null character, on which [addnstr] raises [ValueError]. *)
Inductive preview_fault : Type :=
| PreviewDrawn
| PreviewCut
| PreviewNull.

(** What one turn of the loop of [main] reads from outside: the size of the
    screen, what the drawing meets, the key, the mouse report, the clock,
    and what the user gives to a menu or a popup the turn opens. *)
Record env : Type := {
  term_h : Z;
  term_w : Z;
  fault : draw_fault;
  preview : preview_fault;
  status_null : bool;           (* outside the search mode, the status
                                   line has a null character *)
  getch : option Z;             (* [None]: [KeyboardInterrupt] *)
  getmouse : option (Z * Z * Z); (* [(x, y, bstate)]; [None]: [curses.error] *)
  time_now : Z;
  menu_keys : list menu_input;
  typed : str;
  confirm_key : Z;
  time_end : Z
}.

(** How a turn of the loop ends: the loop goes on, it is left ([break]),
    an exception escapes [main], or a menu still waits for its key. *)
Inductive outcome : Type :=
| Next (s : state)
| Exit (s : state)
| Crash (e : exn)
| Blocked.

(** [draw_preview(stdscr, path, files, current_idx, search_mode)], which
    catches [curses.error] only: the pane is cleared; with an entry
    selected, [files[current_idx]] is read and the lines of its preview
    are written with [addnstr], which raises [ValueError] on a line with
    a null character. *)
Definition draw_preview (files : list entry) (current_idx : Z)
  (fault : preview_fault) : result unit :=
  match fault with
  | PreviewCut => Ok tt
  | _ =>
      if negb (nonempty files) || (current_idx >=? len files) then Ok tt
      else
        match py_index files current_idx with
        | None => Raise IndexError
        | Some _ =>
            match fault with
            | PreviewNull => Raise ValueError
            | _ => Ok tt
            end
        end
  end.

(** The branch [if search_mode] of [draw_status_line(stdscr, path,
    search_mode, search_query, ...)] on a screen of [h] rows and [w]
    columns, when no [curses.error] is raised: the text written on the
    last row, and the column the cursor mark is written at, if it is
    written.  [None]: the function returns at once, the screen being too
    small. *)
Definition draw_status_search (h w : Z) (search_query : str)
  : option (str * option Z) :=
  if (h <? 2) || (w <? 10) then None
  else
    let status := py "Search: " ++ search_query in
    let cursor_pos := len status in
    let '(status, cursor_pos) :=
      if len status >? w - 2
      then (py_slice status 0 (w - 5) ++ py "...",
            len (py_slice status 0 (w - 5) ++ py "..."))
      else (status, cursor_pos) in
    Some (status, if cursor_pos <? w - 1 then Some cursor_pos else None).

(** [draw_status_line(stdscr, path, search_mode, search_query,
    current_file, file_count)], which catches [curses.error] only: on a
    screen of at least 2 rows and 10 columns the text of the status line
    is written with [addnstr], which raises [ValueError] on a text with a
    null character.  In the search mode the text is the one of
    [draw_status_search]; outside it the text is made of the path and of
    the selected entry, and [null] tells whether it has a null
    character. *)
Definition draw_status_line (h w : Z) (search_mode : bool)
  (search_query : str) (null : bool) : result unit :=
  if search_mode then
    match draw_status_search h w search_query with
    | Some (status, _) =>
        if has_null status then Raise ValueError else Ok tt
    | None => Ok tt
    end
  else if (h <? 2) || (w <? 10) then Ok tt
  else if null then Raise ValueError
  else Ok tt.

(** ** The loop of [main]

    The body of the loop is written over the search it calls, so that the
    queries it runs the search on can be told. *)

Section Loop.

Variable search : filesystem -> config -> str -> str -> list (str * str).

(** [list_dir(p)] on the file system of the browser. *)
Definition listing (s : state) (p : str) : result (list entry) :=
  match list_dir (os_listdir (fs s)) (os_path_isdir (fs s)) (cfg s) p with
  | Ok l => Ok (map Plain l)
  | Raise e => Raise e
  end.

(** [files = list_dir(path); all_files = list(files)], then [k]. *)
Definition reload (s : state) (k : state -> state) : outcome :=
  match listing s (path s) with
  | Ok l => Next (k (set_all_files l (set_files l s)))
  | Raise e => Crash e
  end.

(** [min(current_idx, len(files) - 1) if files else 0] *)
Definition clamp (s : state) : state :=
  set_current_idx
    (if nonempty (files s) then Z.min (current_idx s) (len (files s) - 1)
     else 0) s.

(** The path of the entry at index [i], under the guard
    [files and i < len(files)]; [None] when the guard fails. *)
Definition full_path_at (s : state) (i : Z) : option (result str) :=
  if nonempty (files s) && (i <? len (files s)) then
    Some (match py_index (files s) i with
          | None => Raise IndexError
          | Some (Located _ full_path) => Ok full_path
          | Some (Plain name) => Ok (os_path_join (path s) name)
          end)
  else None.

(** [path = full_path; files = list_dir(path); all_files = list(files);
    current_idx, offset = 0, 0] *)
Definition enter_directory (s : state) (full_path : str) : outcome :=
  reload (set_path full_path s) (fun s => set_offset 0 (set_current_idx 0 s)).

(** The branch [key == curses.KEY_MOUSE]; its body is in a [try] that
    drops a [curses.error]. *)
Definition on_mouse (s : state) (click_areas : list (Z * Z)) (e : env)
  : outcome :=
  match getmouse e with
  | None => Next s
  | Some (x, y, button_state) =>
      let current_time := time_now e in
      if nonzero (Z.land button_state BUTTON4_PRESSED) then
        Next (set_clicked_idx (-1)
                (set_current_idx (Z.max 0 (current_idx s - 3)) s))
      else if nonzero (Z.land button_state BUTTON5_PRESSED) then
        let s :=
          if nonempty (files s)
          then set_current_idx
                 (Z.min (len (files s) - 1) (current_idx s + 3)) s
          else s in
        Next (set_clicked_idx (-1) s)
      else if nonzero (Z.land button_state BUTTON1_PRESSED)
              && negb (search_mode s) then
        match click_at y click_areas with
        | None => Next s
        | Some clicked =>
            let s := set_current_idx clicked (set_clicked_idx clicked s) in
            let after :=
              if (current_time - last_click_time s <? 500)
                 && (clicked =? last_click_idx s) then
                match full_path_at s clicked with
                | None => Next s
                | Some (Raise ex) => Crash ex
                | Some (Ok full_path) =>
                    if os_path_isdir (fs s) full_path
                    then enter_directory s full_path
                    else Next s
                end
              else Next s in
            match after with
            | Next s => Next (set_last_click current_time clicked s)
            | o => o
            end
        end
      else if nonzero (Z.land button_state BUTTON3_PRESSED)
              && negb (search_mode s) then
        match click_at y click_areas with
        | None => Next s
        | Some clicked =>
            let s := set_current_idx clicked s in
            match full_path_at s (current_idx s) with
            | None => Next s
            | Some (Raise ex) => Crash ex
            | Some (Ok full_path) =>
                match show_file_context (fs s) (cfg s) (term_h e) (term_w e)
                        full_path (Some (y, x)) (menu_keys e) (typed e)
                        (confirm_key e) with
                | CtxReturn _ fs' => Next (set_fs fs' s)
                | CtxRaise CursesError => Next s (* [except curses.error] *)
                | CtxRaise ex => Crash ex
                | CtxWaiting => Blocked
                end
            end
        end
      else Next s
  end.

(** [search_results = search_files_recursive(path, search_query);
    files = search_results; current_idx = 0; offset = 0] *)
Definition run_search (s : state) : state :=
  let found :=
    map (fun r => Located (fst r) (snd r))
        (search (fs s) (cfg s) (path s) (search_query s)) in
  set_offset 0 (set_current_idx 0 (set_files found
    (set_search_results found s))).

(** The branch [search_mode]. *)
Definition on_search_key (s : state) (key : Z) : outcome :=
  if (key =? KEY_BACKSPACE) || (key =? 127) || (key =? 8) || (key =? KEY_DC)
  then
    if truthy (search_query s) then
      let s := set_search_query (removelast (search_query s)) s in
      if truthy (search_query s) then Next (run_search s)
      else
        Next (set_offset 0 (set_current_idx 0
                (set_search_results [] (set_files (all_files s) s))))
    else Next s
  else if key =? 27 then
    Next (set_offset 0 (set_current_idx 0 (set_files (all_files s)
            (set_search_query [] (set_search_mode false s)))))
  else if (key =? KEY_ENTER) || (key =? 10) || (key =? 13) then
    let s := set_search_mode false s in
    let s := if nonempty (search_results s)
             then set_files (search_results s) s else s in
    Next (set_offset 0 (set_current_idx 0 s))
  else if (32 <=? key) && (key <=? 126) then
    Next (run_search (set_search_query (search_query s ++ [chr key]) s))
  else Next s.

(** A call of [show_file_context] whose result [main] drops. *)
Definition open_context (s : state) (full_path : str) (pos : option (Z * Z))
  (e : env) : outcome :=
  match show_file_context (fs s) (cfg s) (term_h e) (term_w e) full_path pos
          (menu_keys e) (typed e) (confirm_key e) with
  | CtxReturn _ fs' => Next (set_fs fs' s)
  | CtxRaise ex => Crash ex
  | CtxWaiting => Blocked
  end.

(** The keys [n] and [m]. *)
Definition on_create (s : state) (e : env) (is_file : bool) : outcome :=
  let name := get_input_popup (typed e) in
  if truthy name then
    let full_path := os_path_join (path s) name in
    match create_file_or_dir (fs s) full_path is_file with
    | (true, fs') => reload (set_fs fs' s) (fun s => s)
    | (false, fs') => Next (set_fs fs' s)
    end
  else Next s.

(** The branch of the keys outside the search mode. *)
Definition on_key (s : state) (key : Z) (e : env) : outcome :=
  if key =? key_of "q" then Exit s
  else if key =? key_of " " then
    match full_path_at s (current_idx s) with
    | None => Next s
    | Some (Raise ex) => Crash ex
    | Some (Ok full_path) => open_context s full_path None e
    end
  else if key =? key_of "/" then
    Next (set_all_files (files s)
            (set_search_query [] (set_search_mode true s)))
  else if key =? key_of "?" then Next s
  else if key =? key_of "b" then
    let new_path :=
      if truthy (os_path_dirname (path s)) then os_path_dirname (path s)
      else py "/" in
    if os_path_isdir (fs s) new_path && negb (str_eqb new_path (path s))
    then enter_directory s new_path
    else Next s
  else if key =? key_of "r" then reload s clamp
  else if key =? key_of "o" then
    match full_path_at s (current_idx s) with
    | Some (Raise ex) => Crash ex
    | _ => Next s
    end
  else if key =? key_of "h" then
    let c := cfg s in
    let s :=
      set_cfg {| show_hidden := negb (show_hidden c);
                 sort_dirs_first := sort_dirs_first c;
                 preview_max_lines := preview_max_lines c;
                 search_max_depth := search_max_depth c;
                 confirm_actions := confirm_actions c |} s in
    reload s (fun s => set_offset 0 (clamp s))
  else if (key =? KEY_UP) || (key =? key_of "k") then
    if nonempty (files s)
    then Next (set_current_idx (Z.max 0 (current_idx s - 1)) s)
    else Next s
  else if (key =? KEY_DOWN) || (key =? key_of "j") then
    if nonempty (files s)
    then Next (set_current_idx
                 (Z.min (current_idx s + 1) (len (files s) - 1)) s)
    else Next s
  else if (key =? KEY_ENTER) || (key =? 10) || (key =? 13) then
    match full_path_at s (current_idx s) with
    | None => Next s
    | Some (Raise ex) => Crash ex
    | Some (Ok full_path) =>
        if os_path_isdir (fs s) full_path then enter_directory s full_path
        else Next s
    end
  else if key =? key_of "n" then on_create s e true
  else if key =? key_of "m" then on_create s e false
  else if key =? KEY_F2 then
    match full_path_at s (current_idx s) with
    | None => Next s
    | Some (Raise ex) => Crash ex
    | Some (Ok full_path) =>
        let new_name := get_input_popup (typed e) in
        if truthy new_name then
          let new_path :=
            os_path_join (os_path_dirname full_path) new_name in
          match rename_file_or_dir (fs s) full_path new_path with
          | (true, fs') => reload (set_fs fs' s) (fun s => s)
          | (false, fs') => Next (set_fs fs' s)
          end
        else Next s
    end
  else if key =? key_of "d" then
    match full_path_at s (current_idx s) with
    | None => Next s
    | Some (Raise ex) => Crash ex
    | Some (Ok full_path) =>
        if confirm_popup (confirm_key e) then
          match delete_file_or_dir (fs s) (cfg s) full_path with
          | (true, fs') => reload (set_fs fs' s) clamp
          | (false, fs') => Next (set_fs fs' s)
          end
        else Next s
    end
  else Next s.

(** The end of a turn:
    [if clicked_idx != -1 and time.time() - last_click_time > 0.3] *)
Definition end_of_turn (e : env) (o : outcome) : outcome :=
  match o with
  | Next s =>
      if negb (clicked_idx s =? -1) && (time_end e - last_click_time s >? 300)
      then Next (set_clicked_idx (-1) s)
      else Next s
  | _ => o
  end.

(** One turn of [while True] in [main]: the list and the preview are
    drawn, [files[current_idx]] is read for the status line, the status
    line is drawn, a key is read and acted on. *)
Definition main_turn (s : state) (e : env) : outcome :=
  match draw_files (fs s) (term_h e) (fault e) (path s) (files s)
          (current_idx s) (offset s) (search_mode s) with
  | Raise ex => Crash ex
  | Ok (offset', click_areas) =>
      let s := set_offset offset' s in
      match draw_preview (files s) (current_idx s) (preview e) with
      | Raise ex => Crash ex
      | Ok _ =>
          match (if nonempty (files s)
                 then py_index (files s) (current_idx s)
                 else Some (Plain [])) with
          | None => Crash IndexError
          | Some _ =>
              match draw_status_line (term_h e) (term_w e) (search_mode s)
                      (search_query s) (status_null e)
              with
              | Raise ex => Crash ex
              | Ok _ =>
                  match getch e with
                  | None => Exit s
                  | Some key =>
                      end_of_turn e
                        (if key =? KEY_MOUSE then on_mouse s click_areas e
                         else if search_mode s then on_search_key s key
                         else on_key s key e)
                  end
              end
          end
      end
  end.

(** The turns of the loop on a sequence of inputs. *)
Fixpoint main_loop (s : state) (es : list env) : outcome :=
  match es with
  | [] => Next s
  | e :: es' =>
      match main_turn s e with
      | Next s' => main_loop s' es'
      | o => o
      end
  end.

End Loop.

(** The search [main] calls: [search_files_recursive(path, search_query)],
    with the default cap of 100 results. *)
Definition search_from (fs : filesystem) (cfg : config) (root query : str)
  : list (str * str) :=
  search_files_recursive (os_listdir fs) (os_path_isdir fs) cfg root query 100.

(** The turn and the loop of [main] as the program runs them. *)
Definition main_step : state -> env -> outcome := main_turn search_from.

Definition main_run : state -> list env -> outcome := main_loop search_from.

(** The state [main] enters its loop with, in the directory [cwd]. *)
Definition main_init (fs0 : filesystem) (c : config) (cwd : str)
  : result state :=
  match list_dir (os_listdir fs0) (os_path_isdir fs0) c cwd with
  | Raise e => Raise e
  | Ok l =>
      Ok {| fs := fs0; cfg := c; path := cwd; files := map Plain l;
            all_files := map Plain l; search_results := [];
            current_idx := 0; offset := 0; search_mode := false;
            search_query := []; last_click_time := 0; last_click_idx := -1;
            clicked_idx := -1 |}
  end.

(** ** The vocabulary of the statements about the search *)

(** The path reached from [root] through the entries [names], one
    [os.path.join] for each, as [search_in_dir] builds [full_path]. *)
Definition joins (root : str) (names : list str) : str :=
  fold_left os_path_join names root.

(** The display path of the entry reached through [names]. *)
Definition display (names : list str) : str :=
  fold_left os_path_join names [].

(** The matches a log records, in order. *)
Fixpoint matches_of (l : list action) : list (str * str) :=
  match l with
  | [] => []
  | Matched d f :: l' => (d, f) :: matches_of l'
  | Listed _ _ :: l' => matches_of l'
  end.

(** A name a directory can hold: not empty and without separator. *)
Definition name_ok (e : str) : Prop := e <> [] /\ ~ In sep e.

Definition name_okb (e : str) : bool :=
  truthy e && negb (existsb (Ascii.eqb sep) e).

(** [os.listdir] reports names only. *)
Definition names_ok (listdir : str -> result (list str)) : Prop :=
  forall p entries, listdir p = Ok entries -> Forall name_ok entries.

(** All the names of a tree are names. *)
Fixpoint node_names_ok (n : node) : bool :=
  match n with
  | File => true
  | Dir _ ch =>
      (fix go (l : list (str * node)) : bool :=
         match l with
         | [] => true
         | (k, m) :: l' => name_okb k && node_names_ok m && go l'
         end) ch
  end.

(** An entry the search looks at: any entry if [show_hidden] is set, one
    not beginning with a dot otherwise. *)
Definition visible (cfg : config) (e : str) : Prop :=
  show_hidden cfg = false -> hidden e = false.

(** The entries [names] lead down from [root]: each is a visible entry of
    the listing of the directory the ones before it lead to. *)
Inductive reaches (listdir : str -> result (list str)) (cfg : config)
  (root : str) : list str -> Prop :=
| reaches_root : reaches listdir cfg root []
| reaches_entry (names : list str) (e : str) (entries : list str) :
    reaches listdir cfg root names ->
    listdir (joins root names) = Ok entries ->
    In e entries ->
    visible cfg e ->
    reaches listdir cfg root (names ++ [e]).

(** The logs the search can write, one action after the other.  Each
    action comes while fewer than [max_results] matches are recorded.  A
    directory is listed at a depth up to [search_max_depth], as many
    entries below the root, and, if its own name matches, straight after it
    was recorded.  A match is a visible entry whose name holds the query,
    met in a directory at a depth up to [search_max_depth]. *)
Inductive search_log (listdir : str -> result (list str)) (cfg : config)
  (query_lower : str) (max_results : nat) (root : str)
  : list action -> Prop :=
| log_nil : search_log listdir cfg query_lower max_results root []
| log_listed (l : list action) (names : list str) :
    search_log listdir cfg query_lower max_results root l ->
    (length (matches_of l) < max_results)%nat ->
    (length names <= search_max_depth cfg)%nat ->
    reaches listdir cfg root names ->
    (forall names' e, names = names' ++ [e] ->
       str_in query_lower (lower e) = true ->
       exists l', l = l' ++ [Matched (display names) (joins root names)]) ->
    search_log listdir cfg query_lower max_results root
      (l ++ [Listed (joins root names) (length names)])
| log_matched (l : list action) (names : list str) (e : str) :
    search_log listdir cfg query_lower max_results root l ->
    (length (matches_of l) < max_results)%nat ->
    (length names <= search_max_depth cfg)%nat ->
    reaches listdir cfg root (names ++ [e]) ->
    str_in query_lower (lower e) = true ->
    search_log listdir cfg query_lower max_results root
      (l ++ [Matched (display (names ++ [e])) (joins root (names ++ [e]))]).

(** What an action [a] of a log says, [l] being the log before it. *)
Definition action_ok (listdir : str -> result (list str)) (cfg : config)
  (query_lower root : str) (l : list action) (a : action) : Prop :=
  match a with
  | Listed p d =>
      exists names,
        p = joins root names /\ d = length names
        /\ (d <= search_max_depth cfg)%nat
        /\ reaches listdir cfg root names
        /\ (forall names' e, names = names' ++ [e] ->
              str_in query_lower (lower e) = true ->
              exists l', l = l' ++ [Matched (display names) p])
  | Matched d f =>
      exists names e,
        d = display (names ++ [e]) /\ f = joins root (names ++ [e])
        /\ (length names <= search_max_depth cfg)%nat
        /\ reaches listdir cfg root (names ++ [e])
        /\ str_in query_lower (lower e) = true
  end.

(** What a state of the search keeps true: its results are the matches
    of its log, and its log is one the search can write. *)
Definition search_coherent (listdir : str -> result (list str))
  (cfg : config) (query_lower : str) (max_results : nat) (root : str)
  (st : search_state) : Prop :=
  results st = matches_of (log st)
  /\ search_log listdir cfg query_lower max_results root (log st).

(** ** The vocabulary of the statements about the search mode *)

(** The status line can read [files[current_idx]]. *)
Definition selectable (s : state) : Prop :=
  files s = [] \/ - len (files s) <= current_idx s < len (files s).

(** A turn on which no line of the preview has a null character:
    [draw_preview] does not raise [ValueError]. *)
Definition plain_preview (e : env) : Prop := preview e <> PreviewNull.

(** The keys that delete a character of the query. *)
Definition is_backspace (key : Z) : bool :=
  (key =? KEY_BACKSPACE) || (key =? 127) || (key =? 8) || (key =? KEY_DC).

(** The states of one stay in the search mode: the state the key [/]
    leaves, pressed outside the search mode on the entry list [snap], and
    the states the following turns leave as long as they stay in the search
    mode. *)
Inductive searching (snap : list entry) : state -> Prop :=
| searching_start (s : state) (e : env) (s1 : state) :
    search_mode s = false ->
    files s = snap ->
    getch e = Some (key_of "/") ->
    main_step s e = Next s1 ->
    searching snap s1
| searching_turn (t : state) (e : env) (t' : state) :
    searching snap t ->
    main_step t e = Next t' ->
    search_mode t' = true ->
    searching snap t'.

(** What a stay in the search mode keeps true. *)
Definition search_inv (snap : list entry) (t : state) : Prop :=
  search_mode t = true
  /\ all_files t = snap
  /\ (search_query t = [] -> files t = snap)
  /\ selectable t.

(** ** A file system to run the model on

    [/home/u] holds two files, a directory [docs] with a subdirectory, a
    hidden directory and a directory that cannot be listed. *)

Definition demo_root : node :=
  Dir true
    [ (py "home",
       Dir true
         [ (py "u",
            Dir true
              [ (py "b.txt", File);
                (py "docs",
                 Dir true
                   [ (py "Notes.md", File);
                     (py "old", Dir true [ (py "notes.bak", File) ]) ]);
                (py "a.txt", File);
                (py ".cache", Dir true [ (py "notes.tmp", File) ]);
                (py "locked", Dir false [ (py "notes.key", File) ]) ]) ]) ].

Definition demo_fs : filesystem :=
  {| fs_root := demo_root; fs_cwd := [py "home"; py "u"] |}.

(** The browser started in [/home/u]. *)
Definition demo_state : state :=
  match main_init demo_fs CONFIG (py "/home/u") with
  | Ok s => s
  | Raise _ =>
      {| fs := demo_fs; cfg := CONFIG; path := py "/home/u"; files := [];
         all_files := []; search_results := []; current_idx := 0;
         offset := 0; search_mode := false; search_query := [];
         last_click_time := 0; last_click_idx := -1; clicked_idx := -1 |}
  end.

(** A turn in which the key [k] is pressed on a screen of 24 rows and 80
    columns, [text] is given to a popup and [y] to a confirmation. *)
Definition press (k : Z) (text : str) : env :=
  {| term_h := 24; term_w := 80; fault := NoFault;
     preview := PreviewDrawn; status_null := false; getch := Some k;
     getmouse := None; time_now := 0; menu_keys := []; typed := text;
     confirm_key := key_of "y"; time_end := 0 |}.

(** The selection is within [0, max(0, len(files) - 1)]. *)
Definition in_range (s : state) : Prop :=
  0 <= current_idx s <= Z.max 0 (len (files s) - 1).

(** The state of the browser after the turns [es] from [demo_state]. *)
Definition demo_after (es : list env) : state :=
  match main_run demo_state es with
  | Next s => s
  | _ => demo_state
  end.

(** A turn on which a key that deletes a character is read. *)
Definition backspace_turn (e : env) : Prop :=
  exists key, getch e = Some key /\ is_backspace key = true.

(** Two searches that answer alike on every query that is not empty. *)
Definition same_on_queries
  (f g : filesystem -> config -> str -> str -> list (str * str)) : Prop :=
  forall fs cfg root query, query <> [] -> f fs cfg root query = g fs cfg root query.

(** ** The vocabulary of the further statements *)

(** The selection is in range and the offset is not negative. *)
Definition in_bounds (s : state) : Prop := in_range s /\ 0 <= offset s.

(** The entries [names] lead down from [root] through directories: each
    is a visible entry of the listing of the directory the ones before it
    lead to, and [os.path.isdir] holds of it, so that [search_in_dir] goes
    down into it. *)
Inductive descends (listdir : str -> result (list str))
  (isdir : str -> bool) (cfg : config) (root : str) : list str -> Prop :=
| descends_root : descends listdir isdir cfg root []
| descends_entry (names : list str) (e : str) (entries : list str) :
    descends listdir isdir cfg root names ->
    listdir (joins root names) = Ok entries ->
    In e entries ->
    visible cfg e ->
    isdir (joins root (names ++ [e])) = true ->
    descends listdir isdir cfg root (names ++ [e]).

(** The search only appends to its results. *)
Definition grows (st st' : search_state) : Prop :=
  exists extra, results st' = results st ++ extra.

(** A turn on which none of the keys [n], [m] and F2 is read. *)
Definition no_create_or_rename (e : env) : Prop :=
  forall key, getch e = Some key ->
    key <> key_of "n" /\ key <> key_of "m" /\ key <> KEY_F2.

(** A turn in which the key [k] is pressed on a screen of 24 rows and 80
    columns, the keys [keys] are given to a menu and the key [confirm] to
    a confirmation. *)
Definition press_menu (k : Z) (keys : list menu_input) (confirm : Z) : env :=
  {| term_h := 24; term_w := 80; fault := NoFault;
     preview := PreviewDrawn; status_null := false; getch := Some k;
     getmouse := None; time_now := 0; menu_keys := keys; typed := [];
     confirm_key := confirm; time_end := 0 |}.

(** A turn in which the first mouse button is pressed on the row [y] at
    the time [now], on a screen of 24 rows and 80 columns. *)
Definition click (y now : Z) : env :=
  {| term_h := 24; term_w := 80; fault := NoFault;
     preview := PreviewDrawn; status_null := false;
     getch := Some KEY_MOUSE;
     getmouse := Some (5, y, BUTTON1_PRESSED); time_now := now;
     menu_keys := []; typed := []; confirm_key := key_of "y";
     time_end := now |}.

(** The rows [show_help_popup(stdscr)] writes in its window on a screen
    of [h] rows and [w] columns, when no [curses.error] is raised: the row
    and the text of each [addstr] of the loop over [help_text].  The text
    is a parameter here: the list of the source has 35 lines, and two
    characters of its second line have no code in [str]. *)
Definition show_help_popup (h w : Z) (help_text : list str)
  : list (Z * str) :=
  let popup_h := Z.min 22 (h - 4) in
  let popup_w := Z.min 65 (w - 4) in
  map (fun r => (fst r + 1, py_slice (snd r) 0 (popup_w - 4)))
      (filter (fun r => fst r <? popup_h - 3) (enumerate_from 0 help_text)).

(* ================================================================== *)
(** * Part II.  Lemmas and theorems                                    *)
(* ================================================================== *)

(** ** The model runs *)

Example demo_listing :
  files demo_state
  = [Plain (py "docs"); Plain (py "locked"); Plain (py "a.txt");
     Plain (py "b.txt")].
Proof. reflexivity. Qed.

Example demo_search :
  search_from demo_fs CONFIG (py "/home/u") (py "NOTES")
  = [(py "docs/Notes.md", py "/home/u/docs/Notes.md");
     (py "docs/old/notes.bak", py "/home/u/docs/old/notes.bak")].
Proof. reflexivity. Qed.

(** ** Strings and paths *)

Lemma str_eqb_refl (a : str) : str_eqb a a = true.
Proof.
  induction a as [|c a IH]; simpl; [reflexivity|].
  now rewrite Ascii.eqb_refl, IH.
Qed.

Lemma str_eqb_eq (a b : str) : str_eqb a b = true <-> a = b.
Proof.
  split.
  - revert b; induction a as [|c a IH]; intros [|d b]; simpl;
      try discriminate; [reflexivity|].
    intros H; apply andb_true_iff in H as [Hc Hr].
    apply Ascii.eqb_eq in Hc; subst; f_equal; auto.
  - intros ->; apply str_eqb_refl.
Qed.

Lemma len_nonneg (A : Type) (l : list A) : 0 <= len l.
Proof. unfold len; lia. Qed.

Lemma py_index_in_range (A : Type) (l : list A) (i : Z) :
  0 <= i < len l -> py_index l i = nth_error l (Z.to_nat i).
Proof.
  unfold py_index, len; intros [H0 H1].
  destruct (0 <=? i) eqn:E0; [|lia].
  destruct (i <? Z.of_nat (length l)) eqn:E1; [reflexivity|lia].
Qed.

(** ** The context menu (C9) *)

Lemma plain_text_no_null (t : str) :
  plain_text t = true -> has_null t = false.
Proof.
  unfold plain_text, has_null.
  induction t as [|c t IH]; [reflexivity|]. cbn [forallb existsb].
  intros H. apply andb_true_iff in H as [Hc Ht].
  rewrite (IH Ht), orb_false_r. apply Ascii.eqb_neq. intros <-.
  discriminate Hc.
Qed.

Lemma plain_labels_no_null (A : Type) (options : list (str * A)) :
  plain_labels options ->
  existsb (fun opt => has_null (fst opt)) options = false.
Proof.
  induction 1 as [|opt l Ho _ IH]; [reflexivity|]. cbn [existsb].
  now rewrite (plain_text_no_null _ Ho), IH.
Qed.

Section MenuFacts.

Variable A : Type.
Variables h w y x : Z.
Variable options : list (str * A).
Hypothesis some_option : options <> [].

(** On a screen smaller than the menu the window cannot be made. *)
Lemma menu_no_room (inputs : list menu_input) :
  h < len options + 2 \/ w < menu_width options ->
  show_context_menu h w y x options inputs = MenuRaise CursesError.
Proof.
  unfold show_context_menu.
  destruct options as [|o os] eqn:Eo; [contradiction|]. rewrite <- Eo.
  intros Hs. cbv zeta.
  assert (E : (menu_row h y options <? 0) || (menu_col w x options <? 0)
              = true).
  { unfold menu_row, menu_col. apply orb_true_iff. rewrite !Z.ltb_lt.
    destruct (y + (len options + 2) >? h) eqn:Ey;
      destruct (x + menu_width options >? w) eqn:Ex; cbv iota; lia. }
  now rewrite E.
Qed.

Hypothesis plain : plain_labels options.
Hypothesis room : menu_room h w y x options.

(** With room for it the menu is drawn and reads its input. *)
Lemma menu_opens (inputs : list menu_input) :
  show_context_menu h w y x options inputs
  = menu_loop options (menu_row h y options) (menu_col w x options)
      (len options + 2) (menu_width options) inputs.
Proof.
  unfold show_context_menu.
  destruct options as [|o os] eqn:Eo; [contradiction|]. rewrite <- Eo in *.
  cbv zeta. rewrite (plain_labels_no_null plain).
  destruct room as (Hy & Hx & Hh & Hw).
  assert (E : (menu_row h y options <? 0) || (menu_col w x options <? 0)
              = false).
  { unfold menu_row, menu_col. apply orb_false_iff. rewrite !Z.ltb_ge.
    destruct (y + (len options + 2) >? h) eqn:Ey;
      destruct (x + menu_width options >? w) eqn:Ex; cbv iota; lia. }
  now rewrite E.
Qed.

Lemma menu_escape (mouse : option (Z * Z)) (rest : list menu_input) :
  show_context_menu h w y x options (Getch 27 mouse :: rest) = Closed.
Proof. rewrite menu_opens. reflexivity. Qed.

Lemma menu_digit (key : Z) (mouse : option (Z * Z))
  (rest : list menu_input) (text : str) (a : A) :
  key <> KEY_MOUSE ->
  0 <= key - key_of "1" ->
  nth_error options (Z.to_nat (key - key_of "1")) = Some (text, a) ->
  show_context_menu h w y x options (Getch key mouse :: rest) = Chosen a.
Proof.
  intros Hm H0 Hn.
  assert (Hlt : key - key_of "1" < len options).
  { unfold len. assert (Hs : nth_error options (Z.to_nat (key - key_of "1"))
                             <> None) by congruence.
    apply nth_error_Some in Hs. lia. }
  rewrite menu_opens. cbn [menu_loop].
  assert (E27 : (key =? 27) = false).
  { apply Z.eqb_neq; intros ->. vm_compute in H0. contradiction. }
  rewrite E27.
  apply Z.eqb_neq in Hm; rewrite Hm.
  apply Z.leb_le in H0; rewrite H0.
  pose proof Hlt as Hlt'. apply Z.ltb_lt in Hlt; rewrite Hlt.
  cbn [andb].
  rewrite py_index_in_range, Hn; [reflexivity|].
  apply Z.leb_le in H0; lia.
Qed.

Lemma menu_other_key (key : Z) (mouse : option (Z * Z))
  (rest : list menu_input) :
  key <> 27 -> key <> KEY_MOUSE ->
  ~ (0 <= key - key_of "1" < len options) ->
  show_context_menu h w y x options (Getch key mouse :: rest)
  = show_context_menu h w y x options rest.
Proof.
  intros H27 Hm Hr. rewrite !menu_opens. cbn [menu_loop].
  apply Z.eqb_neq in H27; rewrite H27.
  apply Z.eqb_neq in Hm; rewrite Hm.
  destruct (0 <=? key - key_of "1") eqn:E0; [|reflexivity].
  destruct (key - key_of "1" <? len options) eqn:E1; [|reflexivity].
  apply Z.leb_le in E0; apply Z.ltb_lt in E1; exfalso; apply Hr; lia.
Qed.

End MenuFacts.

(** C9, as the code has it.  The menu is drawn before a key is read: on
    a screen with fewer rows or columns than the menu, [curses.newwin]
    raises [curses.error] and the call returns nothing.  Where the screen
    has room for the menu, with labels of printable characters: a digit
    key in range returns its option and Escape returns none; any other
    key that is not a mouse event, a digit out of range among them, is
    dropped and the menu goes on reading: it answers the rest of the
    input as if the key had not been pressed. *)
Theorem context_menu_keys (A : Type) (h w y x : Z) (options : list (str * A))
  (key : Z) (mouse : option (Z * Z)) (rest : list menu_input) :
  options <> [] ->
  plain_labels options ->
  key <> KEY_MOUSE ->
  (menu_room h w y x options ->
   (forall text a,
       0 <= key - key_of "1" ->
       nth_error options (Z.to_nat (key - key_of "1")) = Some (text, a) ->
       show_context_menu h w y x options (Getch key mouse :: rest)
       = Chosen a)
   /\ (key = 27 ->
       show_context_menu h w y x options (Getch key mouse :: rest)
       = Closed)
   /\ (key <> 27 -> ~ (0 <= key - key_of "1" < len options) ->
       show_context_menu h w y x options (Getch key mouse :: rest)
       = show_context_menu h w y x options rest))
  /\ (h < len options + 2 \/ w < menu_width options ->
      show_context_menu h w y x options (Getch key mouse :: rest)
      = MenuRaise CursesError).
Proof.
  intros Hne Hp Hm. split.
  - intros Hr. split; [|split].
    + intros text a H0 Hn. now apply menu_digit with (text := text).
    + intros ->. now apply menu_escape.
    + intros H27 Hk. now apply menu_other_key.
  - intros Hs. now apply menu_no_room.
Qed.

Lemma context_menu_keys_witness :
  context_options <> [] /\ plain_labels context_options
  /\ key_of "9" <> KEY_MOUSE
  /\ menu_room 24 80 5 5 context_options
  /\ show_context_menu 24 80 5 5 context_options
       [Getch (key_of "9") None; Getch (key_of "4") None]
     = show_context_menu 24 80 5 5 context_options [Getch (key_of "4") None]
  /\ show_context_menu 6 80 3 40 context_options
       [Getch (key_of "9") None; Getch (key_of "4") None]
     = MenuRaise CursesError.
Proof.
  assert (Hne : context_options <> []) by discriminate.
  assert (Hp : plain_labels context_options)
    by (repeat constructor).
  assert (Hm : key_of "9" <> KEY_MOUSE) by discriminate.
  assert (Hr : menu_room 24 80 5 5 context_options)
    by (vm_compute; intuition discriminate).
  split; [exact Hne|]. split; [exact Hp|]. split; [exact Hm|].
  split; [exact Hr|]. split.
  - apply (proj1 (context_menu_keys 24 80 5 5 None
                    [Getch (key_of "4") None] Hne Hp Hm) Hr).
    + discriminate.
    + vm_compute. intros [_ H]. discriminate H.
  - apply (proj2 (context_menu_keys 6 80 3 40 None
                    [Getch (key_of "4") None] Hne Hp Hm)).
    left. vm_compute. reflexivity.
Defined.

(** The claim of C9 fails: after the digit 9, out of the range of the six
    options, the menu has not returned none; it still waits, and takes the
    next key. *)
Lemma context_menu_digit_out_of_range_counterexample :
  show_context_menu 24 80 5 5 context_options [Getch (key_of "9") None]
  = Waiting
  /\ show_context_menu 24 80 5 5 context_options
       [Getch (key_of "9") None; Getch (key_of "4") None]
     = Chosen (py "delete").
Proof. split; reflexivity. Qed.

(** ** The viewport (C4) *)

Lemma adjust_offset_window (current_idx offset max_visible : Z) :
  1 <= max_visible ->
  let o := adjust_offset current_idx offset max_visible in
  o <= current_idx < o + max_visible.
Proof.
  intros Hv; unfold adjust_offset; cbv zeta.
  destruct (current_idx <? offset) eqn:E1; [lia|].
  destruct (current_idx >=? offset + max_visible) eqn:E2; lia.
Qed.

Lemma adjust_offset_minimal (current_idx offset max_visible : Z) :
  let o := adjust_offset current_idx offset max_visible in
  (current_idx < offset -> o = current_idx)
  /\ (offset <= current_idx -> offset + max_visible <= current_idx ->
      o = current_idx - max_visible + 1)
  /\ (offset <= current_idx < offset + max_visible -> o = offset).
Proof.
  unfold adjust_offset; cbv zeta.
  destruct (current_idx <? offset) eqn:E1;
    destruct (current_idx >=? offset + max_visible) eqn:E2;
    repeat split; intros; lia.
Qed.

Lemma draw_files_offset (fs : filesystem) (h : Z) (fault : draw_fault)
  (path : str) (files : list entry) (current_idx offset : Z)
  (search_mode : bool) (o : Z) (areas : list (Z * Z)) :
  fault = NoFault \/ fault = FaultAtRows ->
  files <> [] ->
  draw_files fs h fault path files current_idx offset search_mode
  = Ok (o, areas) ->
  o = adjust_offset current_idx offset (h - 4).
Proof.
  intros Hf Hne H. unfold draw_files in H.
  destruct files as [|f fl]; [contradiction|].
  destruct Hf as [-> | ->];
    destruct (if negb search_mode && nonempty (f :: fl)
                 && os_path_isdir fs path
              then os_listdir fs path else Ok []);
    try discriminate; now inversion H.
Qed.

(** C4, as the code has it: on a viewport of at least one row
    ([max_visible = h - 4 >= 1]) and a list of at least as many entries,
    the offset [draw_files] returns after its layout has the selection in
    the window, [offset <= current_idx < offset + max_visible]; it is the
    selection when that was above the previous window, the selection
    brought to the last row when it was below, and the previous offset
    otherwise. *)
Theorem draw_files_viewport (fs : filesystem) (h : Z) (fault : draw_fault)
  (path : str) (files : list entry) (current_idx offset : Z)
  (search_mode : bool) (o : Z) (areas : list (Z * Z)) :
  1 <= h - 4 ->
  len files >= h - 4 ->
  fault = NoFault \/ fault = FaultAtRows ->
  draw_files fs h fault path files current_idx offset search_mode
  = Ok (o, areas) ->
  o <= current_idx < o + (h - 4)
  /\ (current_idx < offset -> o = current_idx)
  /\ (offset <= current_idx -> offset + (h - 4) <= current_idx ->
      o = current_idx - (h - 4) + 1)
  /\ (offset <= current_idx < offset + (h - 4) -> o = offset).
Proof.
  intros Hv Hl Hf H.
  assert (Hne : files <> []).
  { intros ->. unfold len in Hl; simpl in Hl. lia. }
  apply draw_files_offset in H; [subst o|assumption..].
  split; [now apply adjust_offset_window|apply adjust_offset_minimal].
Qed.

Lemma draw_files_viewport_witness :
  1 <= 10 - 4
  /\ len (files demo_state ++ files demo_state) >= 10 - 4
  /\ draw_files demo_fs 10 NoFault (py "/home/u")
       (files demo_state ++ files demo_state) 7 0 false
     = Ok (2, [(2, 2); (3, 3); (4, 4); (5, 5); (6, 6); (7, 7)])
  /\ 2 <= 7 < 2 + (10 - 4).
Proof.
  assert (Hv : 1 <= 10 - 4) by lia.
  assert (Hl : len (files demo_state ++ files demo_state) >= 10 - 4)
    by (vm_compute; discriminate).
  assert (Hd : draw_files demo_fs 10 NoFault (py "/home/u")
                 (files demo_state ++ files demo_state) 7 0 false
               = Ok (2, [(2, 2); (3, 3); (4, 4); (5, 5); (6, 6); (7, 7)]))
    by reflexivity.
  pose proof (@draw_files_viewport _ _ _ _ _ _ _ _ _ _ Hv Hl
                (or_introl eq_refl) Hd) as [Hw _].
  repeat split; try assumption; apply Hw.
Defined.

(** The claim of C4 fails on a screen of four rows, where the viewport has
    no row: the list is at least as long as the viewport, and the layout
    moves the offset past the selection. *)
Lemma draw_files_no_row_counterexample :
  len (files demo_state) >= 4 - 4
  /\ draw_files demo_fs 4 NoFault (py "/home/u") (files demo_state) 0 0 false
     = Ok (1, [])
  /\ ~ (1 <= 0 < 1 + (4 - 4)).
Proof.
  split; [vm_compute; discriminate|]. split; [reflexivity|lia].
Qed.

(** ** Sorting *)

Lemma str_leb_total (a b : str) : str_leb a b = false -> str_leb b a = true.
Proof.
  revert b; induction a as [|c a IH]; intros [|d b]; simpl;
    try discriminate; try reflexivity.
  destruct (Nat.ltb_spec (nat_of_ascii c) (nat_of_ascii d));
    [discriminate|].
  destruct (Nat.ltb_spec (nat_of_ascii d) (nat_of_ascii c));
    [reflexivity|]. apply IH.
Qed.

Lemma str_leb_trans (a b c : str) :
  str_leb a b = true -> str_leb b c = true -> str_leb a c = true.
Proof.
  revert b c; induction a as [|x a IH]; intros [|y b] [|z c]; simpl;
    try discriminate; try reflexivity.
  destruct (Nat.ltb_spec (nat_of_ascii x) (nat_of_ascii y));
    destruct (Nat.ltb_spec (nat_of_ascii y) (nat_of_ascii x));
    destruct (Nat.ltb_spec (nat_of_ascii y) (nat_of_ascii z));
    destruct (Nat.ltb_spec (nat_of_ascii z) (nat_of_ascii y));
    destruct (Nat.ltb_spec (nat_of_ascii x) (nat_of_ascii z));
    destruct (Nat.ltb_spec (nat_of_ascii z) (nat_of_ascii x));
    try discriminate; try reflexivity; try lia.
  apply IH.
Qed.

Lemma str_leb_antisym (a b : str) :
  str_leb a b = true -> str_leb b a = true -> a = b.
Proof.
  revert b; induction a as [|x a IH]; intros [|y b]; simpl;
    try discriminate; try reflexivity.
  destruct (Nat.ltb_spec (nat_of_ascii x) (nat_of_ascii y));
    destruct (Nat.ltb_spec (nat_of_ascii y) (nat_of_ascii x));
    try discriminate; try lia.
  intros H1 H2. f_equal; [|now apply IH].
  rewrite <- (ascii_nat_embedding x), <- (ascii_nat_embedding y).
  f_equal; lia.
Qed.

Lemma insert_sorted_perm (x : str) (l : list str) :
  Permutation (insert_sorted x l) (x :: l).
Proof.
  induction l as [|y l IH]; simpl; [reflexivity|].
  destruct (str_leb x y); [reflexivity|].
  rewrite IH. apply perm_swap.
Qed.

Lemma sorted_perm (l : list str) : Permutation (sorted l) l.
Proof.
  induction l as [|x l IH]; simpl; [reflexivity|].
  rewrite insert_sorted_perm. now constructor.
Qed.

Lemma insert_sorted_ordered (x : str) (l : list str) :
  StronglySorted str_le l -> StronglySorted str_le (insert_sorted x l).
Proof.
  induction 1 as [|y l Hs IH Hy]; simpl.
  - repeat constructor.
  - destruct (str_leb x y) eqn:E.
    + constructor; [now constructor|].
      constructor; [exact E|].
      eapply Forall_impl; [|exact Hy].
      intros z Hz. now apply str_leb_trans with y.
    + constructor; [exact IH|].
      eapply Permutation_Forall; [symmetry; apply insert_sorted_perm|].
      constructor; [now apply str_leb_total|exact Hy].
Qed.

Lemma sorted_ordered (l : list str) : StronglySorted str_le (sorted l).
Proof.
  induction l as [|x l IH]; simpl; [constructor|].
  now apply insert_sorted_ordered.
Qed.

Lemma sorted_forall (P : str -> Prop) (l : list str) :
  Forall P l -> Forall P (sorted l).
Proof.
  intros H. eapply Permutation_Forall; [symmetry; apply sorted_perm|exact H].
Qed.

Lemma forall_filter (f : str -> bool) (l : list str) :
  Forall (fun e => f e = true) (filter f l).
Proof.
  apply Forall_forall. intros e He. now apply filter_In in He.
Qed.

Lemma filter_split_perm (f : str -> bool) (l : list str) :
  Permutation (filter f l ++ filter (fun e => negb (f e)) l) l.
Proof.
  induction l as [|x l IH]; simpl; [reflexivity|].
  destruct (f x); simpl.
  - now constructor.
  - rewrite <- Permutation_middle. now constructor.
Qed.

(** ** The listing (C8) *)

(** C8: where listing a directory raises [PermissionError], [list_dir]
    returns the empty list.  Where [os.listdir] reports [entries], it
    returns a list that holds the reported entries, all of them if
    [show_hidden] is set and those not beginning with a dot otherwise; if
    [sort_dirs_first] is set, the list is the directories in order followed
    by the other entries in order, and otherwise the whole list is in
    order. *)
Theorem list_dir_listing (listdir : str -> result (list str))
  (isdir : str -> bool) (cfg : config) (path : str) :
  (listdir path = Raise PermissionError ->
   list_dir listdir isdir cfg path = Ok [])
  /\ (forall entries, listdir path = Ok entries ->
      exists l,
        list_dir listdir isdir cfg path = Ok l
        /\ Permutation l (shown cfg entries)
        /\ (show_hidden cfg = false ->
            Forall (fun e => startswith e [dot] = false) l)
        /\ (show_hidden cfg = true -> Permutation l entries)
        /\ (sort_dirs_first cfg = true ->
            exists dirs files,
              l = dirs ++ files
              /\ Forall (fun e => isdir (os_path_join path e) = true) dirs
              /\ Forall (fun e => isdir (os_path_join path e) = false) files
              /\ StronglySorted str_le dirs
              /\ StronglySorted str_le files)
        /\ (sort_dirs_first cfg = false -> StronglySorted str_le l)).
Proof.
  split.
  - intros H. unfold list_dir. now rewrite H.
  - intros entries H. unfold list_dir. rewrite H.
    fold (shown cfg entries).
    assert (Hh : show_hidden cfg = false ->
                 Forall (fun e => startswith e [dot] = false)
                        (shown cfg entries)).
    { intros Hs. unfold shown. rewrite Hs. simpl.
      eapply Forall_impl; [|apply forall_filter].
      intros e He. now apply negb_true_iff in He. }
    assert (Ha : show_hidden cfg = true -> shown cfg entries = entries).
    { intros Hs. unfold shown. now rewrite Hs. }
    set (vis := shown cfg entries) in *.
    destruct (sort_dirs_first cfg) eqn:Es.
    + eexists. split; [reflexivity|].
      assert (Hp : Permutation
                     (sorted (filter (fun e => isdir (os_path_join path e))
                                     vis)
                      ++ sorted (filter (fun e => negb (isdir
                                                   (os_path_join path e)))
                                        vis)) vis).
      { rewrite !sorted_perm. apply filter_split_perm. }
      split; [exact Hp|].
      split; [intros Hs; eapply Permutation_Forall;
              [symmetry; exact Hp|auto]|].
      split; [intros Hs; rewrite <- (Ha Hs); exact Hp|].
      split; [|discriminate].
      intros _. do 2 eexists. split; [reflexivity|].
      split; [apply sorted_forall, forall_filter|].
      split; [|split; apply sorted_ordered].
      apply sorted_forall. eapply Forall_impl; [|apply forall_filter].
      intros e He. now apply negb_true_iff in He.
    + eexists. split; [reflexivity|].
      split; [apply sorted_perm|].
      split; [intros Hs; apply sorted_forall; auto|].
      split; [intros Hs; rewrite <- (Ha Hs); apply sorted_perm|].
      split; [discriminate|]. intros _. apply sorted_ordered.
Qed.

Lemma list_dir_listing_witness :
  os_listdir demo_fs (py "/home/u/locked") = Raise PermissionError
  /\ list_dir (os_listdir demo_fs) (os_path_isdir demo_fs) CONFIG
       (py "/home/u/locked") = Ok [].
Proof.
  assert (H : os_listdir demo_fs (py "/home/u/locked")
              = Raise PermissionError) by reflexivity.
  split; [exact H|].
  apply (proj1 (list_dir_listing (os_listdir demo_fs)
                  (os_path_isdir demo_fs) CONFIG (py "/home/u/locked")) H).
Defined.

(** ** The search: its log (C2, C7, C10) *)

Lemma join_empty (b : str) : os_path_join [] b = b.
Proof. unfold os_path_join. now destruct (startswith b [sep]). Qed.

Lemma display_path_join (rel e : str) :
  (if truthy rel then os_path_join rel e else e) = os_path_join rel e.
Proof. destruct rel; [now rewrite join_empty|reflexivity]. Qed.

Lemma joins_snoc (root : str) (names : list str) (e : str) :
  joins root (names ++ [e]) = os_path_join (joins root names) e.
Proof. unfold joins. now rewrite fold_left_app. Qed.

Lemma display_snoc (names : list str) (e : str) :
  display (names ++ [e]) = os_path_join (display names) e.
Proof. unfold display. now rewrite fold_left_app. Qed.

Lemma matches_of_app (l1 l2 : list action) :
  matches_of (l1 ++ l2) = matches_of l1 ++ matches_of l2.
Proof.
  induction l1 as [|[p d|d f] l1 IH]; simpl; [reflexivity|exact IH|].
  now rewrite IH.
Qed.

Section SearchFacts.

Variable listdir : str -> result (list str).
Variable isdir : str -> bool.
Variable cfg : config.
Variable query_lower : str.
Variable max_results : nat.
Variable root : str.

Local Abbreviation sid :=
  (search_in_dir listdir isdir cfg query_lower max_results).
Local Abbreviation sloop :=
  (search_loop listdir isdir cfg query_lower max_results).
Local Abbreviation coherent :=
  (search_coherent listdir cfg query_lower max_results root).

(** The equations of [search_in_dir] and of its loop. *)
Lemma search_in_dir_eq (fuel : nat) (cur rel : str) (depth : nat)
  (st : search_state) :
  sid fuel cur rel depth st
  = if (max_results <=? length (results st))%nat
       || (search_max_depth cfg <? depth)%nat
    then st
    else match fuel with
         | O => st
         | S fuel' =>
             match listdir cur with
             | Raise _ => record_listing st cur depth
             | Ok entries =>
                 sloop fuel' cur rel depth entries
                       (record_listing st cur depth)
             end
         end.
Proof. destruct fuel; reflexivity. Qed.

Lemma search_loop_cons (fuel : nat) (cur rel : str) (depth : nat)
  (entry : str) (rest : list str) (st : search_state) :
  sloop fuel cur rel depth (entry :: rest) st
  = if (max_results <=? length (results st))%nat then st
    else if negb (show_hidden cfg) && hidden entry
    then sloop fuel cur rel depth rest st
    else
      let st1 :=
        if str_in query_lower (lower entry)
        then append_result st (os_path_join rel entry)
                           (os_path_join cur entry)
        else st in
      let st2 :=
        if isdir (os_path_join cur entry)
        then sid fuel (os_path_join cur entry) (os_path_join rel entry)
                 (S depth) st1
        else st1 in
      sloop fuel cur rel depth rest st2.
Proof. simpl. now rewrite display_path_join. Qed.

Lemma coherent_cap (st : search_state) :
  coherent st ->
  (max_results <=? length (results st))%nat = false ->
  (length (matches_of (log st)) < max_results)%nat.
Proof.
  intros [Hr _] H. rewrite <- Hr. now apply Nat.leb_gt in H.
Qed.

Lemma search_in_dir_coherent (fuel : nat) :
  forall (names : list str) (st : search_state),
    coherent st ->
    reaches listdir cfg root names ->
    (forall names' e, names = names' ++ [e] ->
       str_in query_lower (lower e) = true ->
       exists l',
         log st = l' ++ [Matched (display names) (joins root names)]) ->
    coherent (sid fuel (joins root names) (display names) (length names) st).
Proof.
  induction fuel as [|fuel IH]; intros names st Hc Hv Hadj;
    rewrite search_in_dir_eq.
  - destruct (_ || _); exact Hc.
  - destruct ((max_results <=? length (results st))%nat) eqn:Ecap;
      [exact Hc|].
    destruct ((search_max_depth cfg <? length names)%nat) eqn:Edepth;
      [exact Hc|]. simpl orb. cbv iota.
    apply Nat.ltb_ge in Edepth.
    assert (Hl : coherent (record_listing st (joins root names)
                                          (length names))).
    { destruct Hc as [Hr Hg]. split; simpl.
      - rewrite matches_of_app. simpl. now rewrite app_nil_r.
      - apply log_listed; auto. rewrite <- Hr. now apply Nat.leb_gt. }
    destruct (listdir (joins root names)) as [entries|ex] eqn:Els;
      [|exact Hl].
    clear Hc Hadj Ecap. revert Hl.
    generalize (record_listing st (joins root names) (length names)).
    assert (Hsub : incl entries entries) by apply incl_refl.
    revert Hsub. generalize entries at 1 3.
    intros todo. induction todo as [|entry rest IHl]; intros Hsub st' Hc;
      [exact Hc|].
    assert (Hrest : incl rest entries)
      by (intros z Hz; apply Hsub; now right).
    rewrite search_loop_cons.
    destruct ((max_results <=? length (results st'))%nat) eqn:Ecap;
      [exact Hc|].
    destruct (negb (show_hidden cfg) && hidden entry) eqn:Ehid;
      [now apply IHl|].
    assert (Hve : reaches listdir cfg root (names ++ [entry])).
    { apply reaches_entry with entries; auto.
      - apply Hsub. now left.
      - intros Hs. rewrite Hs in Ehid. exact Ehid. }
    cbv zeta. apply IHl; [exact Hrest|].
    assert (Hc1 : coherent
                    (if str_in query_lower (lower entry)
                     then append_result st'
                            (os_path_join (display names) entry)
                            (os_path_join (joins root names) entry)
                     else st')).
    { destruct (str_in query_lower (lower entry)) eqn:Em; [|exact Hc].
      pose proof (coherent_cap Hc Ecap) as Hlt.
      destruct Hc as [Hr Hg]. split; simpl.
      - rewrite matches_of_app, Hr. reflexivity.
      - rewrite <- display_snoc, <- joins_snoc.
        now apply log_matched. }
    destruct (isdir (os_path_join (joins root names) entry)); [|exact Hc1].
    rewrite <- display_snoc, <- joins_snoc in Hc1 |- *.
    replace (S (length names)) with (length (names ++ [entry]))
      by (rewrite length_app; simpl; lia).
    apply IH; [exact Hc1|exact Hve|].
    intros names' e Heq Hm.
    apply app_inj_tail in Heq as [_ <-]. rewrite Hm.
    eexists. simpl. reflexivity.
Qed.

(** The fuel is not what stops the search: once it covers the levels down
    to [search_max_depth], more of it changes nothing. *)
Lemma search_in_dir_fuel (fuel1 : nat) :
  forall (fuel2 : nat) (cur rel : str) (depth : nat) (st : search_state),
    (S (search_max_depth cfg) - depth <= fuel1)%nat ->
    (S (search_max_depth cfg) - depth <= fuel2)%nat ->
    sid fuel1 cur rel depth st = sid fuel2 cur rel depth st.
Proof.
  induction fuel1 as [|fuel1 IH]; intros fuel2 cur rel depth st H1 H2;
    rewrite !search_in_dir_eq;
    destruct ((max_results <=? length (results st))%nat); simpl orb;
      try reflexivity;
    destruct ((search_max_depth cfg <? depth)%nat) eqn:Ed;
      try reflexivity; apply Nat.ltb_ge in Ed; [lia|].
  destruct fuel2 as [|fuel2]; [lia|].
  destruct (listdir cur) as [entries|ex]; [|reflexivity].
  generalize (record_listing st cur depth).
  induction entries as [|entry rest IHl]; intros st'; [reflexivity|].
  rewrite !search_loop_cons.
  destruct ((max_results <=? length (results st'))%nat); [reflexivity|].
  destruct (negb (show_hidden cfg) && hidden entry); [apply IHl|].
  cbv zeta.
  destruct (isdir (os_path_join cur entry)); [|apply IHl].
  rewrite (IH fuel2) by lia. apply IHl.
Qed.

End SearchFacts.

(** ** The search: what a log tells *)

Lemma snoc_split (A : Type) (l l1 l2 : list A) (x a : A) :
  l ++ [x] = l1 ++ a :: l2 ->
  (l2 = [] /\ l = l1 /\ x = a)
  \/ (exists l2', l2 = l2' ++ [x] /\ l = l1 ++ a :: l2').
Proof.
  destruct (exists_last (l := a :: l2)) as (l2' & y & E); [discriminate|].
  intros H. destruct l2' as [|b l2'].
  - simpl in E. injection E as -> ->.
    apply app_inj_tail in H as [-> ->]. left; auto.
  - simpl in E. injection E as -> ->.
    assert (H' : l ++ [x] = (l1 ++ b :: l2') ++ [y])
      by (rewrite H, <- app_assoc; reflexivity).
    apply app_inj_tail in H' as [-> ->]. right; eauto.
Qed.

Section LogFacts.

Variable listdir : str -> result (list str).
Variable cfg : config.
Variable query_lower : str.
Variable max_results : nat.
Variable root : str.

Local Abbreviation good_log :=
  (search_log listdir cfg query_lower max_results root).
Local Abbreviation last_action_ok :=
  (action_ok listdir cfg query_lower root).

Lemma search_log_last (l : list action) (a : action) :
  good_log (l ++ [a]) ->
  good_log l /\ (length (matches_of l) < max_results)%nat
  /\ last_action_ok l a.
Proof.
  intros H. inversion H as [E|l0 names Hg Hc Hd Hv Ha E|l0 names e Hg Hc Hd Hv Hm E].
  - now apply app_cons_not_nil in E.
  - apply app_inj_tail in E as [-> <-]. repeat split; auto.
    exists names. repeat split; auto.
  - apply app_inj_tail in E as [-> <-]. repeat split; auto.
    exists names, e. repeat split; auto.
Qed.

Lemma search_log_prefix (l1 l2 : list action) (a : action) :
  good_log (l1 ++ a :: l2) -> good_log (l1 ++ [a]).
Proof.
  induction l2 as [|x l2 IH] using rev_ind; [auto|].
  intros H. apply IH.
  rewrite app_comm_cons, app_assoc in H.
  now apply search_log_last in H as [H _].
Qed.

(** Every action comes before the cap is reached, and is as
    [last_action_ok] says. *)
Lemma search_log_at (l l1 l2 : list action) (a : action) :
  good_log l -> l = l1 ++ a :: l2 ->
  (length (matches_of l1) < max_results)%nat /\ last_action_ok l1 a.
Proof.
  intros H ->. apply search_log_prefix in H.
  now apply search_log_last in H as [_ H].
Qed.

Lemma search_log_cap (l : list action) :
  good_log l -> (length (matches_of l) <= max_results)%nat.
Proof.
  destruct l as [|a l] using rev_ind; [simpl; lia|].
  intros H. apply search_log_last in H as (_ & Hc & _).
  rewrite matches_of_app, length_app. destruct a; simpl; lia.
Qed.

Lemma search_log_in (l : list action) (a : action) :
  good_log l -> In a l -> exists l1, last_action_ok l1 a.
Proof.
  intros H Hin. apply in_split in Hin as (l1 & l2 & E).
  exists l1. destruct (@search_log_at l l1 l2 a H E) as [_ Ha]. exact Ha.
Qed.

End LogFacts.

Lemma matches_of_in (l : list action) (d f : str) :
  In (d, f) (matches_of l) <-> In (Matched d f) l.
Proof.
  induction l as [|[p n|d' f'] l IH]; simpl; [tauto| |].
  - rewrite IH. split; [auto|]. intros [H|H]; [discriminate|auto].
  - rewrite IH. split; intros [H|H]; auto; left; congruence.
Qed.

(** The run of the search is coherent, whatever the file system answers. *)
Lemma search_run_coherent (listdir : str -> result (list str))
  (isdir : str -> bool) (cfg : config) (root query : str)
  (max_results : nat) :
  search_coherent listdir cfg (lower query) max_results root
    (search_run listdir isdir cfg root query max_results).
Proof.
  unfold search_run.
  apply (@search_in_dir_coherent listdir isdir cfg (lower query) max_results
           root (S (search_max_depth cfg)) []).
  - split; [reflexivity|constructor].
  - constructor.
  - intros names' e E. now apply app_cons_not_nil in E.
Qed.

(** ** Paths made of names *)

Lemma startswith_sep (s : str) :
  startswith s [sep] = match s with c :: _ => Ascii.eqb sep c | [] => false end.
Proof.
  destruct s as [|c s]; [reflexivity|]. cbn [startswith].
  destruct s; apply andb_true_r.
Qed.

Lemma startswith_app (s t : str) :
  s <> [] -> startswith (s ++ t) [sep] = startswith s [sep].
Proof.
  intros H. rewrite !startswith_sep. destruct s; [contradiction|reflexivity].
Qed.

Lemma endswith_app (s t : str) :
  t <> [] -> endswith (s ++ t) [sep] = endswith t [sep].
Proof.
  intros Ht. unfold endswith. rewrite rev_app_distr.
  apply startswith_app. intros E. apply Ht.
  now rewrite <- (rev_involutive t), E.
Qed.

Lemma join_relative (a b : str) :
  startswith b [sep] = false -> os_path_join a b = a ++ glue a ++ b.
Proof.
  intros H. unfold os_path_join, glue. rewrite H.
  now destruct (negb (truthy a) || endswith a [sep]).
Qed.

Lemma name_ok_head (e : str) : name_ok e -> startswith e [sep] = false.
Proof.
  intros [Hne Hs]. rewrite startswith_sep. destruct e as [|c e]; [easy|].
  apply Ascii.eqb_neq. intros E. apply Hs. rewrite E. now left.
Qed.

Lemma name_ok_tail (e : str) : name_ok e -> endswith e [sep] = false.
Proof.
  intros [Hne Hs]. unfold endswith. rewrite startswith_sep.
  destruct (rev e) as [|c r] eqn:E; [reflexivity|].
  apply Ascii.eqb_neq. intros E'. apply Hs.
  apply in_rev. rewrite E, E'. now left.
Qed.

Lemma until_sep_app (x y : str) :
  ~ In sep x -> until_sep (x ++ y) = x ++ until_sep y.
Proof.
  induction x as [|c x IH]; intros H; simpl; [reflexivity|].
  destruct (Ascii.eqb c sep) eqn:E.
  - apply Ascii.eqb_eq in E. subst. exfalso. apply H. now left.
  - f_equal. apply IH. intros Hx. apply H. now right.
Qed.

Lemma until_sep_glue (a : str) : until_sep (rev (glue a) ++ rev a) = [].
Proof.
  unfold glue. destruct (negb (truthy a) || endswith a [sep]) eqn:E;
    [|reflexivity].
  cbn [rev app]. apply orb_true_iff in E as [E|E].
  - destruct a; [reflexivity|discriminate].
  - unfold endswith in E. rewrite startswith_sep in E.
    destruct (rev a) as [|d r]; [discriminate|].
    cbn [until_sep]. rewrite Ascii.eqb_sym, E. reflexivity.
Qed.

(** The basename of a path that ends in a name is the name. *)
Lemma basename_join (a e : str) :
  name_ok e -> os_path_basename (os_path_join a e) = e.
Proof.
  intros He. rewrite join_relative by now apply name_ok_head.
  unfold os_path_basename. rewrite !rev_app_distr, <- app_assoc.
  rewrite until_sep_app.
  - rewrite until_sep_glue, app_nil_r. apply rev_involutive.
  - intros H. apply in_rev in H. now apply He.
Qed.

Lemma glue_after (a d : str) :
  d <> [] -> endswith d [sep] = false -> glue (a ++ d) = [sep].
Proof.
  intros Hd He. unfold glue. rewrite endswith_app, He by assumption.
  destruct (a ++ d) eqn:E; [|reflexivity].
  apply app_eq_nil in E as [_ E]. contradiction.
Qed.

(** A display path is relative and does not end in a separator, and the
    full path is the root, its separator and the display path. *)
Lemma display_of_names (root : str) (names : list str) :
  Forall name_ok names -> names <> [] ->
  display names <> []
  /\ startswith (display names) [sep] = false
  /\ endswith (display names) [sep] = false
  /\ joins root names = root ++ glue root ++ display names.
Proof.
  induction names as [|e names IH] using rev_ind; [easy|].
  intros Hall _. apply Forall_app in Hall as [Hns He].
  inversion He as [|? ? Hok _]; subst.
  rewrite display_snoc, joins_snoc.
  pose proof (name_ok_head Hok) as Hh.
  pose proof (name_ok_tail Hok) as Ht.
  assert (Hne : e <> []) by apply Hok.
  destruct names as [|n names'] eqn:En.
  - simpl. rewrite join_empty. repeat split; auto.
    now apply join_relative.
  - rewrite <- En in *.
    destruct IH as (Hd & Hs & Hl & Hj); [exact Hns|subst; discriminate|].
    rewrite Hj. rewrite !join_relative by exact Hh.
    assert (Hg : glue (display names) = [sep]).
    { apply (glue_after [] Hd Hl). }
    replace (root ++ glue root ++ display names)
      with ((root ++ glue root) ++ display names) by now rewrite app_assoc.
    rewrite (glue_after _ Hd Hl), Hg.
    repeat split.
    + intros E. apply app_eq_nil in E as [E _]. contradiction.
    + now rewrite startswith_app.
    + rewrite app_assoc. now rewrite endswith_app.
    + now rewrite <- !app_assoc.
Qed.

(** C10's equation, on names. *)
Lemma join_display (root : str) (names : list str) :
  Forall name_ok names -> names <> [] ->
  os_path_join root (display names) = joins root names.
Proof.
  intros Hall Hne.
  destruct (display_of_names root Hall Hne) as (_ & Hs & _ & ->).
  now apply join_relative.
Qed.

Lemma reaches_names_ok (listdir : str -> result (list str)) (cfg : config)
  (root : str) (names : list str) :
  names_ok listdir -> reaches listdir cfg root names ->
  Forall name_ok names.
Proof.
  intros Hok. induction 1 as [|names e entries _ IH Hl Hin _];
    [constructor|].
  apply Forall_app. split; [exact IH|]. constructor; [|constructor].
  pose proof (Hok _ _ Hl) as Hall.
  rewrite Forall_forall in Hall. now apply Hall.
Qed.

Lemma reaches_visible (listdir : str -> result (list str)) (cfg : config)
  (root : str) (names : list str) :
  reaches listdir cfg root names -> Forall (visible cfg) names.
Proof.
  induction 1; [constructor|].
  apply Forall_app. split; [assumption|]. now repeat constructor.
Qed.

(** ** The names of the file system *)

Lemma name_okb_ok (e : str) : name_okb e = true -> name_ok e.
Proof.
  unfold name_okb, name_ok. intros H. apply andb_true_iff in H as [Ht Hs].
  split; [now destruct e|].
  intros Hin. apply negb_true_iff in Hs.
  assert (Hex : existsb (Ascii.eqb sep) e = true).
  { apply existsb_exists. exists sep. split; [exact Hin|].
    apply Ascii.eqb_refl. }
  congruence.
Qed.

Lemma node_names_ok_dir (r : bool) (ch : list (str * node)) :
  node_names_ok (Dir r ch)
  = forallb (fun km => name_okb (fst km) && node_names_ok (snd km)) ch.
Proof.
  induction ch as [|[k m] ch IH]; [reflexivity|].
  simpl in *. now rewrite <- IH.
Qed.

Lemma assoc_in (k : str) (ch : list (str * node)) (m : node) :
  assoc k ch = Some m -> In (k, m) ch.
Proof.
  induction ch as [|[k' v] ch IH]; simpl; [discriminate|].
  destruct (str_eqb k k') eqn:E.
  - intros H. injection H as ->. apply str_eqb_eq in E. subst. now left.
  - intros H. right. now apply IH.
Qed.

Lemma get_names_ok (c : list str) :
  forall n m, node_names_ok n = true -> get n c = Some m ->
              node_names_ok m = true.
Proof.
  induction c as [|k c IH]; intros n m Hn Hg; simpl in Hg.
  - now injection Hg as <-.
  - destruct n as [|r ch]; [discriminate|].
    destruct (assoc k ch) as [m'|] eqn:Ea; [|discriminate].
    apply IH with m'; [|exact Hg].
    rewrite node_names_ok_dir in Hn.
    rewrite forallb_forall in Hn.
    apply assoc_in in Ea. apply Hn in Ea.
    now apply andb_true_iff in Ea as [_ Ea].
Qed.

(** A tree whose names are names lists names. *)
Lemma tree_names_ok (fs : filesystem) :
  node_names_ok (fs_root fs) = true -> names_ok (os_listdir fs).
Proof.
  intros Hr p entries H. unfold os_listdir, lookup in H.
  destruct (resolve fs p) as [c|]; [|discriminate].
  destruct (get (fs_root fs) c) as [[|r ch]|] eqn:Eg; try discriminate.
  destruct r; [|discriminate]. injection H as <-.
  apply (@get_names_ok _ _ _ Hr) in Eg.
  rewrite node_names_ok_dir in Eg. rewrite forallb_forall in Eg.
  apply Forall_forall. intros e He.
  apply in_map_iff in He as ([k m] & <- & Hin).
  apply Eg in Hin. apply andb_true_iff in Hin as [Hk _].
  now apply name_okb_ok.
Qed.

(** ** The search: the claims *)

Lemma search_in_dir_full (listdir : str -> result (list str))
  (isdir : str -> bool) (cfg : config) (query_lower : str)
  (max_results fuel : nat) (cur rel : str) (depth : nat)
  (st : search_state) :
  (max_results <= length (results st))%nat ->
  search_in_dir listdir isdir cfg query_lower max_results fuel cur rel
                depth st = st.
Proof.
  intros H. rewrite search_in_dir_eq.
  apply Nat.leb_le in H. now rewrite H.
Qed.

Lemma search_loop_full (listdir : str -> result (list str))
  (isdir : str -> bool) (cfg : config) (query_lower : str)
  (max_results fuel : nat) (cur rel : str) (depth : nat)
  (entries : list str) (st : search_state) :
  (max_results <= length (results st))%nat ->
  search_loop listdir isdir cfg query_lower max_results fuel cur rel
              depth entries st = st.
Proof.
  intros H. destruct entries as [|entry rest]; [reflexivity|].
  rewrite search_loop_cons. apply Nat.leb_le in H. now rewrite H.
Qed.

(** C2: whatever the file system answers, the search returns at most
    [max_results] pairs; every directory it lists is at a depth of at most
    [search_max_depth], that is as many entries below the root; it lists no
    directory and records no match once [max_results] matches are
    recorded, its recursion and its loop returning at once from there; and
    the depth bound, not the fuel of the model, is what ends the
    recursion. *)
Theorem search_is_bounded (listdir : str -> result (list str))
  (isdir : str -> bool) (cfg : config) (root query : str)
  (max_results : nat) :
  let run := search_run listdir isdir cfg root query max_results in
  results run = matches_of (log run)
  /\ (length (search_files_recursive listdir isdir cfg root query
                                     max_results) <= max_results)%nat
  /\ (forall p d, In (Listed p d) (log run) ->
        (d <= search_max_depth cfg)%nat
        /\ exists names,
             length names = d /\ p = joins root names
             /\ reaches listdir cfg root names)
  /\ (forall l1 a l2, log run = l1 ++ a :: l2 ->
        (length (matches_of l1) < max_results)%nat)
  /\ (forall fuel cur rel depth st,
        (max_results <= length (results st))%nat ->
        search_in_dir listdir isdir cfg (lower query) max_results fuel
                      cur rel depth st = st)
  /\ (forall fuel cur rel depth entries st,
        (max_results <= length (results st))%nat ->
        search_loop listdir isdir cfg (lower query) max_results fuel
                    cur rel depth entries st = st)
  /\ (forall fuel, (S (search_max_depth cfg) <= fuel)%nat ->
        search_in_dir listdir isdir cfg (lower query) max_results fuel
                      root [] 0 {| results := []; log := [] |} = run).
Proof.
  intros run.
  destruct (search_run_coherent listdir isdir cfg root query max_results)
    as [Hr Hg]. fold run in Hr, Hg.
  split; [exact Hr|].
  split.
  { unfold search_files_recursive. fold run. rewrite Hr.
    now apply search_log_cap in Hg. }
  split.
  { intros p d Hin.
    destruct (@search_log_in _ _ _ _ _ _ _ Hg Hin)
      as (l1 & names & Hp & Hd & Hle & Hre & _).
    subst. split; [exact Hle|]. exists names. auto. }
  split.
  { intros l1 a l2 E. now destruct (@search_log_at _ _ _ _ _ _ _ _ _ Hg E). }
  split; [intros; now apply search_in_dir_full|].
  split; [intros; now apply search_loop_full|].
  intros fuel Hf. unfold run, search_run.
  apply search_in_dir_fuel; lia.
Qed.

Lemma search_is_bounded_witness :
  (length (search_files_recursive (os_listdir demo_fs)
             (os_path_isdir demo_fs) CONFIG (py "/home/u") (py "notes") 1)
   <= 1)%nat.
Proof.
  apply (search_is_bounded (os_listdir demo_fs) (os_path_isdir demo_fs)
           CONFIG (py "/home/u") (py "notes") 1).
Defined.

(** C10: the full path of every pair the search returns is the root
    joined with its display path, on a file system that lists names. *)
Theorem search_display_path (listdir : str -> result (list str))
  (isdir : str -> bool) (cfg : config) (root query : str)
  (max_results : nat) (display_path full_path : str) :
  names_ok listdir ->
  In (display_path, full_path)
     (search_files_recursive listdir isdir cfg root query max_results) ->
  os_path_join root display_path = full_path.
Proof.
  intros Hok Hin.
  destruct (search_run_coherent listdir isdir cfg root query max_results)
    as [Hr Hg].
  unfold search_files_recursive in Hin. rewrite Hr in Hin.
  apply matches_of_in in Hin.
  destruct (@search_log_in _ _ _ _ _ _ _ Hg Hin)
    as (l1 & names & e & -> & -> & _ & Hre & _).
  apply join_display.
  - now apply (@reaches_names_ok _ _ _ _ Hok Hre).
  - intros E. symmetry in E. now apply app_cons_not_nil in E.
Qed.

Lemma search_display_path_witness :
  names_ok (os_listdir demo_fs)
  /\ In (py "docs/old/notes.bak", py "/home/u/docs/old/notes.bak")
        (search_files_recursive (os_listdir demo_fs) (os_path_isdir demo_fs)
           CONFIG (py "/home/u") (py "NOTES") 100)
  /\ os_path_join (py "/home/u") (py "docs/old/notes.bak")
     = py "/home/u/docs/old/notes.bak".
Proof.
  assert (Hok : names_ok (os_listdir demo_fs))
    by (apply tree_names_ok; reflexivity).
  assert (Hin : In (py "docs/old/notes.bak", py "/home/u/docs/old/notes.bak")
                   (search_files_recursive (os_listdir demo_fs)
                      (os_path_isdir demo_fs) CONFIG (py "/home/u")
                      (py "NOTES") 100))
    by (vm_compute; auto).
  split; [exact Hok|]. split; [exact Hin|].
  apply (@search_display_path _ _ _ _ _ _ _ _ Hok Hin).
Defined.

Lemma visible_names (cfg : config) (names : list str) :
  show_hidden cfg = false -> Forall (visible cfg) names ->
  Forall (fun e => startswith e [dot] = false) names.
Proof.
  intros Hs H. eapply Forall_impl; [|exact H].
  intros e He. now apply He.
Qed.

(** A path below the root is made of its names in one way only. *)
Lemma display_inj (a : list str) :
  forall b, Forall name_ok a -> Forall name_ok b ->
            display a = display b -> a = b.
Proof.
  induction a as [|x a IH] using rev_ind; intros b Ha Hb E.
  - destruct b as [|y b]; [reflexivity|].
    destruct (@display_of_names [] (y :: b) Hb) as (Hd & _);
      [discriminate|].
    now contradiction Hd.
  - destruct b as [|y b _] using rev_ind.
    { destruct (@display_of_names [] (a ++ [x]) Ha) as (Hd & _).
      - intros E'. symmetry in E'. now apply app_cons_not_nil in E'.
      - now contradiction Hd. }
    apply Forall_app in Ha as [Ha Hx]. apply Forall_app in Hb as [Hb Hy].
    inversion Hx as [|? ? Hxo _]; subst. inversion Hy as [|? ? Hyo _]; subst.
    rewrite !display_snoc in E.
    assert (Exy : x = y).
    { rewrite <- (basename_join (display a) Hxo), E.
      now apply basename_join. }
    subst y.
    rewrite !join_relative in E by now apply name_ok_head.
    rewrite !app_assoc in E. apply app_inv_tail in E.
    assert (Hg : forall l, Forall name_ok l ->
                   (l = [] /\ display l ++ glue (display l) = [])
                   \/ (l <> [] /\ display l ++ glue (display l)
                                  = display l ++ [sep])).
    { intros l Hl. destruct l as [|n l]; [left; split; reflexivity|right].
      split; [discriminate|].
      destruct (@display_of_names [] (n :: l) Hl) as (Hd & _ & Ht & _);
        [discriminate|].
      pose proof (glue_after [] Hd Ht) as G. cbn [app] in G.
      now rewrite G. }
    destruct (Hg a Ha) as [[-> Ea]|[Hna Ea]];
      destruct (Hg b Hb) as [[-> Eb]|[Hnb Eb]];
      try rewrite Ea in E; try rewrite Eb in E.
    + reflexivity.
    + now apply app_cons_not_nil in E.
    + symmetry in E. now apply app_cons_not_nil in E.
    + apply app_inj_tail in E as [E _]. now rewrite (IH b Ha Hb E).
Qed.

Lemma joins_inj (root : str) (a b : list str) :
  Forall name_ok a -> Forall name_ok b ->
  joins root a = joins root b -> a = b.
Proof.
  intros Ha Hb E.
  assert (Hj : forall l, Forall name_ok l ->
                 (l = [] /\ joins root l = root)
                 \/ (l <> [] /\ display l <> []
                     /\ joins root l = root ++ glue root ++ display l)).
  { intros l Hl. destruct l as [|n l]; [left; split; reflexivity|right].
    split; [discriminate|].
    destruct (@display_of_names root (n :: l) Hl) as (Hd & _ & _ & Hj);
      [discriminate|]. auto. }
  assert (Hroot : forall d, d <> [] -> root ++ glue root ++ d <> root).
  { intros d Hd H.
    assert (H' : root ++ glue root ++ d = root ++ [])
      by (rewrite app_nil_r; exact H).
    apply app_inv_head in H'. apply app_eq_nil in H' as [_ H'].
    contradiction. }
  destruct (Hj a Ha) as [[-> Ea]|(Hna & Hda & Ea)];
    destruct (Hj b Hb) as [[-> Eb]|(Hnb & Hdb & Eb)];
    try rewrite Ea in E; try rewrite Eb in E.
  - reflexivity.
  - symmetry in E. now apply Hroot in E.
  - now apply Hroot in E.
  - apply app_inv_head, app_inv_head in E. now apply display_inj.
Qed.

(** C7: on a file system that lists names, the basename of every pair the
    search returns holds the query, both in lower case.  Every pair
    returned and every directory listed lies at the end of a chain of
    entries leading down from the root, each a name met in the listing of
    the directory the ones before it lead to, and its path is made of
    names in this one way only; unless [show_hidden] is set, none of these
    entries begins with a dot, the returned entry included: nothing is
    matched in, and nothing listed below, an entry that begins with a
    dot.  And a directory below the root whose name matches is
    listed straight after it was recorded as a match. *)
Theorem search_matches_names (listdir : str -> result (list str))
  (isdir : str -> bool) (cfg : config) (root query : str)
  (max_results : nat) :
  names_ok listdir ->
  let run := search_run listdir isdir cfg root query max_results in
  (forall d f,
      In (d, f) (search_files_recursive listdir isdir cfg root query
                                        max_results) ->
      str_in (lower query) (lower (os_path_basename f)) = true
      /\ exists names e,
           f = joins root (names ++ [e])
           /\ d = display (names ++ [e])
           /\ os_path_basename f = e
           /\ reaches listdir cfg root (names ++ [e])
           /\ Forall name_ok (names ++ [e])
           /\ (forall names', Forall name_ok names' ->
                 f = joins root names' -> names' = names ++ [e])
           /\ (show_hidden cfg = false ->
               Forall (fun n => startswith n [dot] = false) (names ++ [e])))
  /\ (forall p d, In (Listed p d) (log run) ->
        exists names,
          p = joins root names
          /\ d = length names
          /\ reaches listdir cfg root names
          /\ Forall name_ok names
          /\ (forall names', Forall name_ok names' ->
                 p = joins root names' -> names' = names)
          /\ (show_hidden cfg = false ->
              Forall (fun n => startswith n [dot] = false) names))
  /\ (forall l1 p d l2,
        log run = l1 ++ Listed p d :: l2 ->
        (1 <= d)%nat ->
        str_in (lower query) (lower (os_path_basename p)) = true ->
        exists l0 dp, l1 = l0 ++ [Matched dp p]).
Proof.
  intros Hok run.
  destruct (search_run_coherent listdir isdir cfg root query max_results)
    as [Hr Hg]. fold run in Hr, Hg.
  split; [|split].
  - intros d f Hin. unfold search_files_recursive in Hin. fold run in Hin.
    rewrite Hr in Hin. apply matches_of_in in Hin.
    destruct (@search_log_in _ _ _ _ _ _ _ Hg Hin)
      as (l1 & names & e & -> & -> & _ & Hre & Hm).
    pose proof (@reaches_names_ok _ _ _ _ Hok Hre) as Hall.
    assert (He : name_ok e).
    { apply Forall_app in Hall as [_ Hall]. now inversion Hall. }
    rewrite joins_snoc, (basename_join _ He).
    split; [exact Hm|].
    exists names, e. rewrite joins_snoc.
    split; [reflexivity|]. split; [reflexivity|].
    split; [reflexivity|]. split; [exact Hre|]. split; [exact Hall|].
    split.
    { intros names' Hn' E. rewrite <- joins_snoc in E. symmetry.
      now apply (joins_inj root). }
    intros Hs. exact (visible_names Hs (reaches_visible Hre)).
  - intros p d Hin.
    destruct (@search_log_in _ _ _ _ _ _ _ Hg Hin)
      as (l1 & names & -> & -> & _ & Hre & _).
    exists names. split; [reflexivity|]. split; [reflexivity|].
    split; [exact Hre|].
    split; [exact (@reaches_names_ok _ _ _ _ Hok Hre)|].
    split.
    { intros names' Hn' E. symmetry.
      apply (joins_inj root); [|exact Hn'|exact E].
      exact (@reaches_names_ok _ _ _ _ Hok Hre). }
    intros Hs. exact (visible_names Hs (reaches_visible Hre)).
  - intros l1 p d l2 E Hd Hm.
    destruct (@search_log_at _ _ _ _ _ _ _ _ _ Hg E)
      as (_ & names & -> & -> & _ & Hre & Hadj).
    destruct names as [|n names0] eqn:En using rev_ind;
      [simpl in Hd; lia|].
    clear IHnames0.
    pose proof (@reaches_names_ok _ _ _ _ Hok Hre) as Hall.
    assert (He : name_ok n).
    { apply Forall_app in Hall as [_ Hall]. now inversion Hall. }
    rewrite joins_snoc, (basename_join _ He) in Hm.
    destruct (Hadj names0 n eq_refl Hm) as (l0 & ->).
    now exists l0, (display (names0 ++ [n])).
Qed.

(** The lower case of the letters of Latin-1: the codes 201, 84, 201 (an
    E with an acute accent, T, the same E) give 233, 116, 233; the signs
    215 and 247 stay. *)
Example lower_latin1 :
  lower [ascii_of_nat 201; ascii_of_nat 84; ascii_of_nat 201]
  = [ascii_of_nat 233; ascii_of_nat 116; ascii_of_nat 233]
  /\ lower [ascii_of_nat 215; ascii_of_nat 247]
     = [ascii_of_nat 215; ascii_of_nat 247]
  /\ str_in (lower [ascii_of_nat 201; ascii_of_nat 84; ascii_of_nat 201])
       (lower ([ascii_of_nat 201; ascii_of_nat 116; ascii_of_nat 233]
               ++ py ".txt")) = true.
Proof. split; [|split]; vm_compute; reflexivity. Qed.

(** The search finds [Notes.md] for the query [NOTES], and nothing in the
    hidden directory [.cache], whose [notes.tmp] holds the query as
    well. *)
Lemma search_matches_names_witness :
  names_ok (os_listdir demo_fs)
  /\ In (py "docs/Notes.md", py "/home/u/docs/Notes.md")
        (search_files_recursive (os_listdir demo_fs) (os_path_isdir demo_fs)
           CONFIG (py "/home/u") (py "NOTES") 100)
  /\ str_in (lower (py "NOTES"))
            (lower (os_path_basename (py "/home/u/docs/Notes.md"))) = true
  /\ ~ In (py ".cache/notes.tmp", py "/home/u/.cache/notes.tmp")
         (search_files_recursive (os_listdir demo_fs)
            (os_path_isdir demo_fs) CONFIG (py "/home/u") (py "NOTES") 100).
Proof.
  assert (Hok : names_ok (os_listdir demo_fs))
    by (apply tree_names_ok; reflexivity).
  assert (Hin : In (py "docs/Notes.md", py "/home/u/docs/Notes.md")
                   (search_files_recursive (os_listdir demo_fs)
                      (os_path_isdir demo_fs) CONFIG (py "/home/u")
                      (py "NOTES") 100))
    by (vm_compute; auto).
  split; [exact Hok|]. split; [exact Hin|]. split.
  - apply (proj1 (@search_matches_names (os_listdir demo_fs)
                    (os_path_isdir demo_fs) CONFIG (py "/home/u")
                    (py "NOTES") 100 Hok) _ _ Hin).
  - vm_compute. intuition discriminate.
Defined.

(** ** The file system: unlinking *)


Lemma assoc_set_child (k : str) (v : node) (ch : list (str * node)) :
  assoc k (set_child k v ch) = Some v.
Proof.
  induction ch as [|[k' v'] ch IH]; simpl.
  - now rewrite str_eqb_refl.
  - destruct (str_eqb k k') eqn:E; simpl.
    + now rewrite str_eqb_refl.
    + now rewrite E.
Qed.





Lemma split_sep_nonempty (p : str) : split_sep p <> [].
Proof.
  destruct p as [|c p]; [discriminate|]. simpl.
  destruct (Ascii.eqb c sep); [discriminate|].
  destruct (split_sep p); discriminate.
Qed.


(** ** Deleting (C6) *)




(** A failure part of the way is a false result over a tree partly
    removed: [a.txt], [b.txt] and [docs] are gone, [locked] stays. *)
Example delete_partly :
  delete_file_or_dir demo_fs CONFIG (py "/home/u")
  = (false,
     {| fs_root :=
          Dir true
            [ (py "home",
               Dir true
                 [ (py "u",
                    Dir true
                      [ (py "locked",
                         Dir false [ (py "notes.key", File) ]) ]) ]) ];
        fs_cwd := [py "home"; py "u"] |}).
Proof. reflexivity. Qed.

(** ** Renaming (C5) *)

Lemma split_sep_app (a b : str) :
  split_sep (a ++ sep :: b) = split_sep a ++ split_sep b.
Proof.
  induction a as [|c a IH]; cbn [app split_sep].
  - now rewrite Ascii.eqb_refl.
  - destruct (Ascii.eqb c sep); [now rewrite IH|]. rewrite IH.
    destruct (split_sep a) eqn:E; [now apply split_sep_nonempty in E|].
    reflexivity.
Qed.

Lemma split_sep_name (n : str) : ~ In sep n -> split_sep n = [n].
Proof.
  induction n as [|c n IH]; intros H; cbn [split_sep]; [reflexivity|].
  destruct (Ascii.eqb c sep) eqn:E.
  - apply Ascii.eqb_eq in E. subst. exfalso. apply H. now left.
  - rewrite IH; [reflexivity|]. intros Hx. apply H. now right.
Qed.

Lemma walk_app (root : node) (xs ys : list str) :
  forall st,
    walk root st (xs ++ ys)
    = match walk root st xs with
      | Some st' => walk root st' ys
      | None => None
      end.
Proof.
  induction xs as [|k xs IH]; intros st; cbn [app walk]; [reflexivity|].
  destruct (is_dir (get root st)); [|reflexivity].
  destruct (str_eqb k [] || str_eqb k (py ".")); [apply IH|].
  destruct (str_eqb k (py "..")); apply IH.
Qed.

(** The separators a path ends with do not change what it names. *)
Lemma resolve_drop_sep (fs : filesystem) (q : str) (n : list str) :
  q <> [] -> resolve fs (q ++ [sep]) = Some n -> resolve fs q = Some n.
Proof.
  intros Hq. unfold resolve.
  destruct (q ++ [sep]) as [|c0 q0] eqn:E;
    [now apply app_eq_nil in E as [_ E]|].
  rewrite <- E. clear E c0 q0.
  destruct q as [|c q'] eqn:Eq; [contradiction|]. rewrite <- Eq in *.
  rewrite (startswith_app _ Hq).
  change (q ++ [sep]) with (q ++ sep :: []).
  rewrite split_sep_app, walk_app.
  destruct (walk (fs_root fs)
              (if startswith q [sep] then [] else fs_cwd fs) (split_sep q))
    as [st|]; [|discriminate].
  cbn [split_sep walk].
  destruct (is_dir (get (fs_root fs) st)); [|discriminate].
  cbn [str_eqb orb]. trivial.
Qed.

Lemma resolve_drop_seps (fs : filesystem) (k : nat) :
  forall (q : str) (n : list str),
    q <> [] -> resolve fs (q ++ repeat sep k) = Some n ->
    resolve fs q = Some n.
Proof.
  induction k as [|k IH]; intros q n Hq H; cbn [repeat] in H.
  - now rewrite app_nil_r in H.
  - apply resolve_drop_sep; [exact Hq|]. apply IH.
    + intros E. now apply app_eq_nil in E as [_ E].
    + now rewrite <- app_assoc.
Qed.

Lemma lstrip_sep_repeat (r : str) :
  exists k, r = repeat sep k ++ lstrip_sep r.
Proof.
  induction r as [|c r [k IH]]; [now exists 0%nat|]. cbn [lstrip_sep].
  destruct (Ascii.eqb c sep) eqn:E.
  - apply Ascii.eqb_eq in E. subst c. exists (S k). cbn [repeat app].
    now f_equal.
  - now exists 0%nat.
Qed.

Lemma rev_repeat_sep (k : nat) : rev (repeat sep k) = repeat sep k.
Proof.
  induction k as [|k IH]; [reflexivity|]. cbn [repeat rev]. rewrite IH.
  clear IH. induction k as [|k IH]; [reflexivity|].
  cbn [repeat app]. now rewrite IH.
Qed.

Lemma rstrip_sep_cases (p : str) :
  rstrip_sep p = p
  \/ exists k, rstrip_sep p <> [] /\ p = rstrip_sep p ++ repeat sep k.
Proof.
  unfold rstrip_sep. destruct (lstrip_sep_repeat (rev p)) as [k Hk].
  remember (lstrip_sep (rev p)) as l eqn:El. clear El.
  destruct (rev l) as [|c q] eqn:E; [now left|].
  right. exists k. cbv iota. split; [discriminate|].
  apply (f_equal (@rev ascii)) in Hk.
  rewrite rev_involutive, rev_app_distr, rev_repeat_sep, E in Hk.
  exact Hk.
Qed.

Lemma resolve_rstrip (fs : filesystem) (p : str) (n : list str) :
  resolve fs p = Some n -> resolve fs (rstrip_sep p) = Some n.
Proof.
  intros H. destruct (rstrip_sep_cases p) as [->|(k & Hne & E)];
    [exact H|].
  apply (@resolve_drop_seps fs k); [exact Hne|]. now rewrite <- E.
Qed.

(** A path that ends in a name is resolved as it stands. *)
Lemma rstrip_sep_snoc (p : str) (c : ascii) :
  c <> sep -> rstrip_sep (p ++ [c]) = p ++ [c].
Proof.
  intros Hc. unfold rstrip_sep. rewrite rev_app_distr. cbn [rev app].
  cbn [lstrip_sep]. apply Ascii.eqb_neq in Hc. rewrite Hc.
  cbn [rev]. rewrite rev_involutive.
  destruct (p ++ [c]); reflexivity.
Qed.

Lemma name_ok_snoc (e : str) :
  name_ok e -> exists e' c, e = e' ++ [c] /\ c <> sep.
Proof.
  intros [Hne Hs]. destruct (exists_last Hne) as (e' & c & ->).
  exists e', c. split; [reflexivity|]. intros ->. apply Hs.
  apply in_or_app. right. now left.
Qed.

Lemma rstrip_sep_join (a e : str) :
  name_ok e -> rstrip_sep (os_path_join a e) = os_path_join a e.
Proof.
  intros He. rewrite join_relative by now apply name_ok_head.
  destruct (name_ok_snoc He) as (e' & c & -> & Hc).
  rewrite !app_assoc. now apply rstrip_sep_snoc.
Qed.

Lemma endswith_join (a e : str) :
  name_ok e -> endswith (os_path_join a e) [sep] = false.
Proof.
  intros He. rewrite join_relative by now apply name_ok_head.
  rewrite app_assoc, endswith_app by apply He. now apply name_ok_tail.
Qed.

Lemma last_split_sep (x e : str) :
  ~ In sep e -> last (split_sep (x ++ sep :: e)) [] = e.
Proof.
  intros He. rewrite split_sep_app, (@split_sep_name e He).
  apply last_last.
Qed.

Lemma ends_in_dots_join (a e : str) :
  name_ok e -> e <> py "." -> e <> py ".." ->
  ends_in_dots (os_path_join a e) = false.
Proof.
  intros He H1 H2. unfold ends_in_dots. rewrite rstrip_sep_join by exact He.
  assert (E : last (split_sep (os_path_join a e)) [] = e).
  { rewrite join_relative by now apply name_ok_head. unfold glue.
    destruct (negb (truthy a)) eqn:Ea.
    - destruct a; [|discriminate]. cbn [orb app].
      now rewrite (@split_sep_name e (proj2 He)).
    - cbn [orb]. destruct (endswith a [sep]) eqn:Ee.
      + unfold endswith in Ee. rewrite startswith_sep in Ee.
        destruct (rev a) as [|c r] eqn:Er; [discriminate|].
        apply Ascii.eqb_eq in Ee. subst c.
        assert (Ha : a = rev r ++ [sep])
          by (now rewrite <- (rev_involutive a), Er).
        rewrite Ha. cbn [app]. rewrite <- app_assoc. cbn [app].
        apply last_split_sep, He.
      + cbn [app]. apply last_split_sep, He. }
  cbv zeta. rewrite E.
  destruct (str_eqb e (py ".")) eqn:E1;
    [apply str_eqb_eq in E1; contradiction|].
  destruct (str_eqb e (py "..")) eqn:E2;
    [apply str_eqb_eq in E2; contradiction|].
  reflexivity.
Qed.

(** A directory is made and renamed under a path that ends in a
    separator; a file is not, and no entry is renamed to [.]. *)
Example mkdir_trailing_separator :
  fst (create_file_or_dir demo_fs (py "/home/u/new/") false) = true
  /\ os_path_isdir
       (snd (create_file_or_dir demo_fs (py "/home/u/new/") false))
       (py "/home/u/new") = true
  /\ fst (create_file_or_dir demo_fs (py "/home/u/new/") true) = false.
Proof. split; [|split]; vm_compute; reflexivity. Qed.

Example rename_trailing_separator :
  fst (rename_file_or_dir demo_fs (py "/home/u/docs") (py "/home/u/docs2/"))
  = true
  /\ os_listdir
       (snd (rename_file_or_dir demo_fs (py "/home/u/docs")
               (py "/home/u/docs2/")))
       (py "/home/u/docs2") = Ok [py "Notes.md"; py "old"]
  /\ fst (rename_file_or_dir demo_fs (py "/home/u/a.txt") (py "/home/u/c/"))
     = false
  /\ os_rename demo_fs (py "/home/u/docs/.") (py "/home/u/docs2")
     = Raise OSError.
Proof. split; [|split; [|split]]; vm_compute; reflexivity. Qed.


Lemma path_eqb_eq (a b : list str) : path_eqb a b = true <-> a = b.
Proof.
  split.
  - revert b; induction a as [|x a IH]; intros [|y b]; simpl;
      try discriminate; [reflexivity|].
    intros H. apply andb_true_iff in H as [Hx Hr].
    apply str_eqb_eq in Hx. subst. f_equal. auto.
  - intros ->. induction b as [|y b IH]; simpl; [reflexivity|].
    now rewrite str_eqb_refl, IH.
Qed.

Lemma rename_failed_unchanged (fs : filesystem) (old_path new_path : str) :
  fst (rename_file_or_dir fs old_path new_path) = false ->
  snd (rename_file_or_dir fs old_path new_path) = fs.
Proof.
  unfold rename_file_or_dir.
  destruct (os_rename fs old_path new_path); [discriminate|reflexivity].
Qed.

Lemma rename_clash_fails (fs : filesystem) (old_path new_path : str)
  (o n : list str) (src dst : node) :
  resolve fs old_path = Some o ->
  resolve fs new_path = Some n ->
  o <> n ->
  get (fs_root fs) o = Some src ->
  get (fs_root fs) n = Some dst ->
  kinds_clash src dst = true ->
  rename_file_or_dir fs old_path new_path = (false, fs).
Proof.
  intros Ho Hn Hne Hs Hd Hk.
  unfold rename_file_or_dir, os_rename.
  rewrite Ho, (@resolve_rstrip fs new_path n Hn). cbv beta iota zeta.
  destruct (ends_in_dots old_path || ends_in_dots new_path); [reflexivity|].
  destruct o as [|k o']; rewrite Hs; [reflexivity|].
  destruct (negb (is_dir (Some src)) && endswith new_path [sep]);
    [reflexivity|].
  destruct (path_eqb (k :: o') n) eqn:E;
    [apply path_eqb_eq in E; contradiction|].
  destruct (path_prefix (k :: o') n); [reflexivity|].
  destruct (negb (parent_is_dir (fs_root fs) n)); [reflexivity|].
  rewrite Hd.
  destruct src as [|rs chs], dst as [|rd [|x chd]];
    try discriminate Hk; reflexivity.
Qed.

Lemma end_of_turn_next (e : env) (o : outcome) (s' : state) :
  end_of_turn e o = Next s' ->
  exists s0, o = Next s0 /\ (s' = s0 \/ s' = set_clicked_idx (-1) s0).
Proof.
  destruct o as [s0| | |]; simpl; try discriminate.
  destruct (negb (clicked_idx s0 =? -1)
            && (time_end e - last_click_time s0 >? 300));
    intros H; injection H as <-; eauto.
Qed.

(** The key F2 when the rename fails: the turn changes nothing but the
    offset the drawing computed. *)
Lemma rename_key_failed (s : state) (e : env) (full_path : str) :
  full_path_at s (current_idx s) = Some (Ok full_path) ->
  fst (rename_file_or_dir (fs s) full_path
         (os_path_join (os_path_dirname full_path)
                       (get_input_popup (typed e)))) = false ->
  on_key s KEY_F2 e = Next s.
Proof.
  intros Hp Hf.
  assert (E : on_key s KEY_F2 e
              = match full_path_at s (current_idx s) with
                | None => Next s
                | Some (Raise ex) => Crash ex
                | Some (Ok full_path) =>
                    let new_name := get_input_popup (typed e) in
                    if truthy new_name then
                      let new_path :=
                        os_path_join (os_path_dirname full_path) new_name in
                      match rename_file_or_dir (fs s) full_path new_path with
                      | (true, fs') => reload (set_fs fs' s) (fun s => s)
                      | (false, fs') => Next (set_fs fs' s)
                      end
                    else Next s
                end) by reflexivity.
  rewrite E, Hp. cbv zeta.
  destruct (truthy (get_input_popup (typed e))); [|reflexivity].
  pose proof (rename_failed_unchanged _ _ _ Hf) as Hu.
  destruct (rename_file_or_dir (fs s) full_path
              (os_path_join (os_path_dirname full_path)
                            (get_input_popup (typed e)))) as [b fs'].
  simpl in Hf, Hu. subst. now destruct s.
Qed.

(** C5, as the code has it: a rename that fails leaves the file system as
    it was, and the turn of the loop in which F2 was pressed leaves the
    file system and the entry list of the browser as they were.  Renaming
    onto an existing entry fails when a file would replace a directory, a
    directory a file, or a directory a directory that is not empty. *)
Theorem rename_failure_keeps_listing :
  (forall fs old_path new_path,
      fst (rename_file_or_dir fs old_path new_path) = false ->
      snd (rename_file_or_dir fs old_path new_path) = fs)
  /\ (forall fs old_path new_path o n src dst,
        resolve fs old_path = Some o ->
        resolve fs new_path = Some n ->
        o <> n ->
        get (fs_root fs) o = Some src ->
        get (fs_root fs) n = Some dst ->
        kinds_clash src dst = true ->
        rename_file_or_dir fs old_path new_path = (false, fs))
  /\ (forall s e s' full_path,
        search_mode s = false ->
        getch e = Some KEY_F2 ->
        full_path_at s (current_idx s) = Some (Ok full_path) ->
        fst (rename_file_or_dir (fs s) full_path
               (os_path_join (os_path_dirname full_path)
                             (get_input_popup (typed e)))) = false ->
        main_step s e = Next s' ->
        fs s' = fs s /\ files s' = files s /\ all_files s' = all_files s).
Proof.
  split; [exact rename_failed_unchanged|].
  split; [exact rename_clash_fails|].
  intros s e s' full_path Hm Hk Hp Hf H.
  unfold main_step, main_turn in H.
  destruct (draw_files (fs s) (term_h e) (fault e) (path s) (files s)
              (current_idx s) (offset s) (search_mode s))
    as [[o areas]|]; [|discriminate].
  cbv zeta in H.
  destruct (draw_preview _ _ _); [|discriminate].
  destruct (if nonempty (files (set_offset o s))
            then py_index (files (set_offset o s))
                          (current_idx (set_offset o s))
            else Some (Plain [])); [|discriminate].
  destruct (draw_status_line _ _ _ _ _); [|discriminate].
  rewrite Hk in H. change (KEY_F2 =? KEY_MOUSE) with false in H.
  change (search_mode (set_offset o s)) with (search_mode s) in H.
  rewrite Hm in H. cbv iota in H.
  rewrite (@rename_key_failed (set_offset o s) e full_path Hp Hf) in H.
  apply end_of_turn_next in H as (s0 & E & [-> | ->]);
    injection E as <-; repeat split.
Qed.

Lemma rename_failure_keeps_listing_witness :
  rename_file_or_dir demo_fs (py "/home/u/a.txt") (py "/home/u/docs")
  = (false, demo_fs).
Proof.
  apply (proj1 (proj2 rename_failure_keeps_listing) demo_fs
           (py "/home/u/a.txt") (py "/home/u/docs")
           [py "home"; py "u"; py "a.txt"] [py "home"; py "u"; py "docs"]
           File
           (Dir true [ (py "Notes.md", File);
                       (py "old", Dir true [ (py "notes.bak", File) ]) ]));
    try reflexivity.
  discriminate.
Defined.

(** The claim of C5 fails where a file is renamed onto an existing file:
    the rename succeeds, the target is replaced and the listing changes,
    in the file system and in the browser. *)
Lemma rename_onto_existing_file_counterexample :
  list_dir (os_listdir demo_fs) (os_path_isdir demo_fs) CONFIG (py "/home/u")
  = Ok [py "docs"; py "locked"; py "a.txt"; py "b.txt"]
  /\ fst (rename_file_or_dir demo_fs (py "/home/u/a.txt")
                             (py "/home/u/b.txt")) = true
  /\ (let fs' := snd (rename_file_or_dir demo_fs (py "/home/u/a.txt")
                                         (py "/home/u/b.txt")) in
      list_dir (os_listdir fs') (os_path_isdir fs') CONFIG (py "/home/u")
      = Ok [py "docs"; py "locked"; py "b.txt"])
  /\ (let turns := [press (key_of "j") []; press (key_of "j") [];
                    press KEY_F2 (py "b.txt")] in
      main_run demo_state turns = Next (demo_after turns)
      /\ files (demo_after turns)
         = [Plain (py "docs"); Plain (py "locked"); Plain (py "b.txt")]).
Proof.
  split; [vm_compute; reflexivity|]. split; [vm_compute; reflexivity|].
  split; [vm_compute; reflexivity|]. cbv zeta.
  split; vm_compute; reflexivity.
Qed.

(** ** The search mode (C3) *)

Lemma selectable_index (s : state) :
  selectable s ->
  (if nonempty (files s) then py_index (files s) (current_idx s)
   else Some (Plain [])) <> None.
Proof.
  intros [E | [Hlo Hhi]].
  - rewrite E. discriminate.
  - destruct (files s) as [|f fl] eqn:E; [discriminate|]. simpl nonempty.
    cbv iota. unfold py_index. fold (len (f :: fl)).
    destruct ((0 <=? current_idx s) && (current_idx s <? len (f :: fl)))
      eqn:E1.
    + apply andb_true_iff in E1 as [H0 H1].
      apply Z.leb_le in H0. apply Z.ltb_lt in H1.
      apply nth_error_Some. unfold len in H1. lia.
    + destruct ((- len (f :: fl) <=? current_idx s) && (current_idx s <? 0))
        eqn:E2.
      * apply andb_true_iff in E2 as [H0 H1].
        apply Z.leb_le in H0. apply Z.ltb_lt in H1.
        apply nth_error_Some. unfold len in *. lia.
      * apply andb_false_iff in E1. apply andb_false_iff in E2.
        rewrite !Z.leb_gt, !Z.ltb_ge in *. lia.
Qed.

Lemma index_selectable (s : state) :
  (if nonempty (files s) then py_index (files s) (current_idx s)
   else Some (Plain [])) <> None ->
  selectable s.
Proof.
  unfold selectable. destruct (files s) as [|f fl] eqn:E; [now left|].
  simpl nonempty. cbv iota. unfold py_index. fold (len (f :: fl)).
  intros H. right.
  destruct ((0 <=? current_idx s) && (current_idx s <? len (f :: fl)))
    eqn:E1.
  - apply andb_true_iff in E1 as [H0 H1].
    apply Z.leb_le in H0. apply Z.ltb_lt in H1. lia.
  - destruct ((- len (f :: fl) <=? current_idx s) && (current_idx s <? 0))
      eqn:E2; [|contradiction].
    apply andb_true_iff in E2 as [H0 H1].
    apply Z.leb_le in H0. apply Z.ltb_lt in H1. lia.
Qed.

Lemma selectable_zero (s : state) : current_idx s = 0 -> selectable s.
Proof.
  intros H. unfold selectable. rewrite H.
  destruct (files s) as [|f fl]; [now left|right].
  unfold len. simpl length. lia.
Qed.

(** The drawing raises nothing in the search mode. *)
Lemma draw_files_searching (fs : filesystem) (h : Z) (fault : draw_fault)
  (path : str) (files : list entry) (current_idx offset : Z) :
  exists o areas,
    draw_files fs h fault path files current_idx offset true
    = Ok (o, areas).
Proof.
  unfold draw_files. simpl negb. simpl andb.
  destruct fault, files; eauto.
Qed.

(** A mouse event in the search mode moves the selection at most. *)
Lemma on_mouse_searching (snap : list entry) (t : state)
  (areas : list (Z * Z)) (e : env) :
  search_inv snap t ->
  exists t', on_mouse t areas e = Next t'
             /\ search_inv snap t'
             /\ files t' = files t /\ search_query t' = search_query t.
Proof.
  intros (Hm & Ha & Hq & Hs). unfold on_mouse.
  destruct (getmouse e) as [[[x y] b]|]; [|exists t; repeat split; auto].
  destruct (nonzero (Z.land b BUTTON4_PRESSED)).
  { eexists. split; [reflexivity|]. repeat split; auto.
    unfold selectable in *. simpl.
    destruct Hs as [Hs|Hs]; [now left|right]. lia. }
  destruct (nonzero (Z.land b BUTTON5_PRESSED)).
  { eexists. split; [reflexivity|].
    destruct (nonempty (files t)) eqn:En; repeat split; auto.
    unfold selectable in *. simpl.
    destruct Hs as [Hs|Hs]; [now left|right].
    pose proof (len_nonneg (files t)). lia. }
  rewrite Hm. simpl negb. rewrite !andb_false_r.
  exists t. repeat split; auto.
Qed.

(** A key in the search mode: the turn goes on, and a stay in the search
    mode stays as [search_inv] says. *)
Lemma on_search_key_searching (snap : list entry) (t : state) (key : Z) :
  search_inv snap t ->
  exists t', on_search_key search_from t key = Next t'
             /\ (search_mode t' = true -> search_inv snap t')
             /\ (is_backspace key = true ->
                 search_mode t' = true
                 /\ search_query t' = removelast (search_query t))
             /\ (is_backspace key = false -> key = 27 ->
                 files t' = snap /\ search_mode t' = false
                 /\ search_query t' = []).
Proof.
  intros (Hm & Ha & Hq & Hs). unfold on_search_key.
  fold (is_backspace key).
  destruct (is_backspace key) eqn:Eb.
  - destruct (truthy (search_query t)) eqn:Et0.
    + cbv zeta.
      change (search_query
                (set_search_query (removelast (search_query t)) t))
        with (removelast (search_query t)).
      destruct (truthy (removelast (search_query t))) eqn:Et.
      * eexists. split; [reflexivity|]. split; [|split; [|discriminate]].
        -- intros _. repeat split; auto.
           ++ simpl. intros E. rewrite E in Et. discriminate.
           ++ now apply selectable_zero.
        -- intros _. split; [exact Hm|reflexivity].
      * eexists. split; [reflexivity|]. split; [|split; [|discriminate]].
        -- intros _. repeat split; auto. now apply selectable_zero.
        -- intros _. split; [exact Hm|reflexivity].
    + exists t. split; [reflexivity|]. split; [|split; [|discriminate]].
      * intros _. repeat split; auto.
      * intros _. split; [exact Hm|].
        destruct (search_query t); [reflexivity|discriminate].
  - destruct (key =? 27) eqn:E27.
    + eexists. split; [reflexivity|]. split; [discriminate|].
      split; [discriminate|]. intros _ _. repeat split. exact Ha.
    + destruct ((key =? KEY_ENTER) || (key =? 10) || (key =? 13)).
      * eexists. split; [reflexivity|]. split; [|split; [discriminate|]].
        -- destruct (nonempty (search_results (set_search_mode false t)));
             discriminate.
        -- intros _ ->. discriminate.
      * destruct ((32 <=? key) && (key <=? 126)).
        -- eexists. split; [reflexivity|]. split; [|split; [discriminate|]].
           ++ intros _. repeat split; auto.
              ** simpl. intros E. symmetry in E.
                 now apply app_cons_not_nil in E.
              ** now apply selectable_zero.
           ++ intros _ ->. discriminate.
        -- exists t. split; [reflexivity|]. split; [|split; [discriminate|]].
           ++ intros _. repeat split; auto.
           ++ intros _ ->. discriminate.
Qed.

Lemma end_of_turn_of_next (e : env) (t1 : state) :
  exists t', end_of_turn e (Next t1) = Next t'
             /\ (t' = t1 \/ t' = set_clicked_idx (-1) t1).
Proof.
  simpl. destruct (negb (clicked_idx t1 =? -1)
                   && (time_end e - last_click_time t1 >? 300)); eauto.
Qed.

Lemma is_backspace_not_mouse (key : Z) :
  is_backspace key = true -> (key =? KEY_MOUSE) = false.
Proof.
  unfold is_backspace. intros H.
  repeat (apply orb_true_iff in H as [H|H]);
    apply Z.eqb_eq in H; subst; reflexivity.
Qed.

(** With an entry that can be read, or none, the preview is drawn unless
    a line of it has a null character. *)
Lemma draw_preview_ok (s : state) (f : preview_fault) :
  selectable s -> f <> PreviewNull ->
  draw_preview (files s) (current_idx s) f = Ok tt.
Proof.
  intros Hs Hf. apply selectable_index in Hs. unfold draw_preview.
  destruct f; [|reflexivity|contradiction].
  destruct (nonempty (files s)); [|reflexivity]. cbn [negb orb].
  destruct (current_idx s >=? len (files s)); [reflexivity|].
  destruct (py_index (files s) (current_idx s)); [reflexivity|].
  contradiction.
Qed.

Lemma has_null_app (a b : str) :
  has_null (a ++ b) = has_null a || has_null b.
Proof. apply existsb_app. Qed.

Lemma has_null_firstn (n : nat) (l : str) :
  has_null l = false -> has_null (firstn n l) = false.
Proof.
  revert l. induction n as [|n IH]; intros [|c l]; try reflexivity.
  unfold has_null. cbn [firstn existsb]. intros H.
  apply orb_false_iff in H as [Hc Hl]. rewrite Hc. now apply IH.
Qed.

Lemma has_null_skipn (n : nat) (l : str) :
  has_null l = false -> has_null (skipn n l) = false.
Proof.
  revert l. induction n as [|n IH]; intros [|c l]; try reflexivity;
    [trivial|].
  unfold has_null. cbn [skipn existsb]. intros H.
  apply orb_false_iff in H as [_ Hl]. now apply IH.
Qed.

Lemma has_null_removelast (l : str) :
  has_null l = false -> has_null (removelast l) = false.
Proof.
  induction l as [|c l IH]; [reflexivity|]. destruct l as [|d l].
  - reflexivity.
  - change (removelast (c :: d :: l)) with (c :: removelast (d :: l)).
    unfold has_null in *. cbn [existsb] in *. intros H.
    apply orb_false_iff in H as [Hc Hl]. rewrite Hc. now apply IH.
Qed.

(** A character a key of the query gives is not the null character. *)
Lemma has_null_typed (q : str) (key : Z) :
  (32 <=? key) && (key <=? 126) = true ->
  has_null q = false -> has_null (q ++ [chr key]) = false.
Proof.
  intros Hk Hq. rewrite has_null_app, Hq. unfold has_null.
  cbn [existsb orb]. rewrite orb_false_r.
  apply andb_true_iff in Hk as [H0 H1].
  apply Z.leb_le in H0. apply Z.leb_le in H1.
  apply Ascii.eqb_neq. intros E.
  assert (En : nat_of_ascii (chr key) = Z.to_nat key).
  { unfold chr. apply nat_ascii_embedding. lia. }
  rewrite <- E in En. cbn in En. lia.
Qed.

(** In the search mode the status line of a query without a null
    character is written. *)
Lemma draw_status_line_searching (h w : Z) (query : str) (null : bool) :
  has_null query = false -> draw_status_line h w true query null = Ok tt.
Proof.
  intros Hq. unfold draw_status_line, draw_status_search.
  destruct ((h <? 2) || (w <? 10)); [reflexivity|]. cbv zeta.
  assert (Hs : has_null (py "Search: " ++ query) = false)
    by (now rewrite has_null_app, Hq).
  destruct (len (py "Search: " ++ query) >? w - 2); cbv iota beta.
  - rewrite has_null_app. unfold py_slice.
    rewrite has_null_firstn by (now apply has_null_skipn). reflexivity.
  - now rewrite Hs.
Qed.

(** A key in the search mode leaves a query without a null character
    without one. *)
Lemma on_search_key_query (s : state) (key : Z) (s' : state) :
  on_search_key search_from s key = Next s' ->
  has_null (search_query s) = false -> has_null (search_query s') = false.
Proof.
  unfold on_search_key. intros H Hq.
  destruct ((key =? KEY_BACKSPACE) || (key =? 127) || (key =? 8)
            || (key =? KEY_DC)).
  { destruct (truthy (search_query s)); cbv zeta in H;
      [destruct (truthy _)|]; injection H as <-;
      solve [exact Hq | now apply has_null_removelast]. }
  destruct (key =? 27); [injection H as <-; reflexivity|].
  destruct ((key =? KEY_ENTER) || (key =? 10) || (key =? 13)).
  { cbv zeta in H. destruct (nonempty _); injection H as <-; exact Hq. }
  destruct ((32 <=? key) && (key <=? 126)) eqn:Ek; injection H as <-;
    [now apply has_null_typed|exact Hq].
Qed.

(** What a turn in the search mode does with the key it read. *)
Lemma search_turn_rest (snap : list entry) (t : state)
  (areas : list (Z * Z)) (e : env) (key : Z) :
  search_inv snap t ->
  exists t',
    end_of_turn e
      (if key =? KEY_MOUSE then on_mouse t areas e
       else on_search_key search_from t key) = Next t'
    /\ (search_mode t' = true -> search_inv snap t')
    /\ (is_backspace key = true ->
        search_mode t' = true
        /\ search_query t' = removelast (search_query t))
    /\ (key = 27 ->
        files t' = snap /\ search_mode t' = false
        /\ search_query t' = [])
    /\ (has_null (search_query t) = false ->
        has_null (search_query t') = false).
Proof.
  intros Hinv0.
  destruct (key =? KEY_MOUSE) eqn:Emouse.
  - destruct (on_mouse_searching areas e Hinv0)
      as (t1 & -> & Hinv1 & Hf & Hq).
    destruct (end_of_turn_of_next e t1) as (t' & -> & Ht').
    exists t'. split; [reflexivity|].
    destruct Ht' as [-> | ->];
      (split; [intros _; exact Hinv1|]);
      (split; [intros Hb; apply is_backspace_not_mouse in Hb; congruence|]);
      (split; [intros ->; discriminate|]);
      intros Hn; cbn [search_query set_clicked_idx]; now rewrite Hq.
  - destruct (on_search_key_searching key Hinv0)
      as (t1 & E1 & Hinv1 & Hback & Hesc).
    pose proof (@on_search_key_query t key t1 E1) as Hn1.
    rewrite E1.
    assert (Hesc' : key = 27 ->
                    files t1 = snap /\ search_mode t1 = false
                    /\ search_query t1 = []).
    { intros ->. now apply Hesc. }
    destruct (end_of_turn_of_next e t1) as (t' & -> & Ht').
    exists t'. split; [reflexivity|].
    destruct Ht' as [-> | ->]; (split; [exact Hinv1|]);
      (split; [exact Hback|]); (split; [exact Hesc'|exact Hn1]).
Qed.

(** A turn in the search mode on which a key is read goes on, unless a
    line of the preview has a null character. *)
Lemma main_step_searching (snap : list entry) (t : state) (e : env)
  (key : Z) :
  search_inv snap t ->
  has_null (search_query t) = false ->
  getch e = Some key ->
  plain_preview e ->
  exists t', main_step t e = Next t'
             /\ (search_mode t' = true -> search_inv snap t')
             /\ (is_backspace key = true ->
                 search_mode t' = true
                 /\ search_query t' = removelast (search_query t))
             /\ (key = 27 ->
                 files t' = snap /\ search_mode t' = false
                 /\ search_query t' = []).
Proof.
  intros Hinv Hq Hk Hp. pose proof Hinv as (Hm & _ & _ & Hs).
  unfold main_step, main_turn. rewrite Hm.
  destruct (draw_files_searching (fs t) (term_h e) (fault e) (path t)
              (files t) (current_idx t) (offset t)) as (o & areas & ->).
  assert (Hinv0 : search_inv snap (set_offset o t)) by exact Hinv.
  cbv zeta.
  rewrite (@draw_preview_ok (set_offset o t) (preview e) Hs Hp).
  change (search_mode (set_offset o t)) with (search_mode t).
  change (search_query (set_offset o t)) with (search_query t).
  rewrite Hm, (@draw_status_line_searching _ _ _ (status_null e) Hq).
  pose proof (@selectable_index (set_offset o t) Hs) as Hi.
  destruct (if nonempty (files (set_offset o t))
            then py_index (files (set_offset o t))
                          (current_idx (set_offset o t))
            else Some (Plain [])); [|contradiction]. clear Hi.
  rewrite Hk.
  destruct (search_turn_rest areas e key Hinv0)
    as (t' & E & H1 & H2 & H3 & _).
  exists t'. split; [exact E|]. split; [exact H1|]. split; [exact H2|].
  exact H3.
Qed.

(** A turn in the search mode that goes on came to its key. *)
Lemma search_step_next (snap : list entry) (t : state) (e : env)
  (t' : state) :
  search_inv snap t ->
  main_step t e = Next t' ->
  exists o areas key,
    getch e = Some key
    /\ end_of_turn e
         (if key =? KEY_MOUSE then on_mouse (set_offset o t) areas e
          else on_search_key search_from (set_offset o t) key) = Next t'.
Proof.
  intros Hinv H. pose proof Hinv as (Hm & _).
  unfold main_step, main_turn in H. rewrite Hm in H.
  destruct (draw_files_searching (fs t) (term_h e) (fault e) (path t)
              (files t) (current_idx t) (offset t)) as (o & areas & Ed).
  rewrite Ed in H. cbv zeta in H.
  destruct (draw_preview _ _ _); [|discriminate].
  destruct (if nonempty _ then _ else _); [|discriminate].
  destruct (draw_status_line _ _ _ _ _); [|discriminate].
  destruct (getch e) as [key|]; [|discriminate].
  change (search_mode (set_offset o t)) with (search_mode t) in H.
  rewrite Hm in H. now exists o, areas, key.
Qed.

(** The turn of the key [/] outside the search mode. *)
Lemma search_start_next (s : state) (e : env) (s1 : state) :
  search_mode s = false ->
  getch e = Some (key_of "/") ->
  main_step s e = Next s1 ->
  exists o s0,
    selectable (set_offset o s)
    /\ s0 = set_all_files (files (set_offset o s))
              (set_search_query [] (set_search_mode true (set_offset o s)))
    /\ (s1 = s0 \/ s1 = set_clicked_idx (-1) s0).
Proof.
  intros Hm Hk H. unfold main_step, main_turn in H.
  destruct (draw_files (fs s) (term_h e) (fault e) (path s) (files s)
              (current_idx s) (offset s) (search_mode s))
    as [[o areas]|]; [|discriminate].
  pose proof (@index_selectable (set_offset o s)) as Hsel.
  cbv zeta in H.
  destruct (draw_preview _ _ _); [|discriminate].
  destruct (if nonempty (files (set_offset o s))
            then py_index (files (set_offset o s))
                          (current_idx (set_offset o s))
            else Some (Plain [])); [|discriminate].
  destruct (draw_status_line _ _ _ _ _); [|discriminate].
  assert (Hs : selectable (set_offset o s)) by (apply Hsel; discriminate).
  rewrite Hk in H.
  change (key_of "/" =? KEY_MOUSE) with false in H.
  change (search_mode (set_offset o s)) with (search_mode s) in H.
  rewrite Hm in H. cbv iota in H.
  apply end_of_turn_next in H as (s0 & E & Hs1).
  exists o, s0. split; [exact Hs|]. split; [|exact Hs1].
  assert (E0 : on_key (set_offset o s) (key_of "/") e
               = Next (set_all_files (files (set_offset o s))
                         (set_search_query []
                            (set_search_mode true (set_offset o s)))))
    by reflexivity.
  rewrite E0 in E. now injection E as <-.
Qed.

(** A stay in the search mode is as [search_inv] says. *)
Lemma searching_inv (snap : list entry) (t : state) :
  searching snap t -> search_inv snap t.
Proof.
  induction 1 as [s e s1 Hm Hf Hk H|t e t' _ IH H Hm'].
  - destruct (@search_start_next _ _ _ Hm Hk H) as (o & s0 & Hs & -> & Hs1).
    destruct Hs1 as [-> | ->]; repeat split; auto.
  - destruct (@search_step_next _ _ _ _ IH H) as (o & areas & key & _ & E).
    assert (Hinv0 : search_inv snap (set_offset o t)) by exact IH.
    destruct (search_turn_rest areas e key Hinv0) as (t1 & E1 & Hinv & _).
    rewrite E1 in E. injection E as <-. now apply Hinv.
Qed.

(** The query of a stay in the search mode has no null character. *)
Lemma searching_query (snap : list entry) (t : state) :
  searching snap t -> has_null (search_query t) = false.
Proof.
  induction 1 as [s e s1 Hm Hf Hk H|t e t' Hst IH H Hm'].
  - destruct (@search_start_next _ _ _ Hm Hk H) as (o & s0 & Hs & -> & Hs1).
    destruct Hs1 as [-> | ->]; reflexivity.
  - pose proof (searching_inv Hst) as Hinv.
    destruct (@search_step_next _ _ _ _ Hinv H) as (o & areas & key & _ & E).
    assert (Hinv0 : search_inv snap (set_offset o t)) by exact Hinv.
    destruct (search_turn_rest areas e key Hinv0)
      as (t1 & E1 & _ & _ & _ & Hq).
    rewrite E1 in E. injection E as <-. now apply Hq.
Qed.

Lemma removelast_shorter (A : Type) (l : list A) :
  length (removelast l) = pred (length l).
Proof.
  induction l as [|x l IH]; [reflexivity|].
  destruct l as [|y l]; [reflexivity|].
  change (removelast (x :: y :: l)) with (x :: removelast (y :: l)).
  simpl length in *. now rewrite IH.
Qed.

(** As many backspaces as the query has characters empty it and bring the
    entry list back. *)
Lemma backspaces_restore (snap : list entry) (es : list env) :
  forall t,
    searching snap t ->
    Forall backspace_turn es ->
    Forall plain_preview es ->
    length es = length (search_query t) ->
    exists t', main_run t es = Next t'
               /\ searching snap t'
               /\ search_query t' = [] /\ files t' = snap.
Proof.
  induction es as [|e es IH]; intros t Hs Hall Hdr Hlen.
  - exists t. split; [reflexivity|]. split; [exact Hs|].
    assert (Hq : search_query t = [])
      by (destruct (search_query t); [reflexivity|discriminate]).
    split; [exact Hq|]. now apply (searching_inv Hs).
  - inversion Hall as [|? ? (key & Hk & Hb) Hall']; subst.
    inversion Hdr as [|? ? Hd Hdr']; subst.
    destruct (main_step_searching (searching_inv Hs) (searching_query Hs)
                Hk Hd)
      as (t1 & E & _ & Hback & _).
    destruct (Hback Hb) as [Hm1 Hq1].
    assert (Hs1 : searching snap t1) by (now apply searching_turn with t e).
    destruct (IH t1 Hs1 Hall' Hdr') as (t' & Hrun & Hrest).
    { rewrite Hq1, removelast_shorter. simpl in Hlen. lia. }
    exists t'. split; [|exact Hrest].
    unfold main_run in *. simpl. fold main_step. now rewrite E.
Qed.

(** Whenever as many turns of backspaces as the query has characters go
    on, they empty the query and bring the entry list back. *)
Lemma backspaces_restore_next (snap : list entry) (es : list env) :
  forall t t',
    searching snap t ->
    Forall backspace_turn es ->
    length es = length (search_query t) ->
    main_run t es = Next t' ->
    searching snap t' /\ search_query t' = [] /\ files t' = snap.
Proof.
  induction es as [|e es IH]; intros t t' Hs Hall Hlen Hrun.
  - injection Hrun as <-. split; [exact Hs|].
    assert (Hq : search_query t = [])
      by (destruct (search_query t); [reflexivity|discriminate]).
    split; [exact Hq|]. now apply (searching_inv Hs).
  - inversion Hall as [|? ? (key & Hk & Hb) Hall']; subst.
    unfold main_run in Hrun. cbn [main_loop] in Hrun.
    fold main_step in Hrun.
    destruct (main_step t e) as [t1| | |] eqn:E; try discriminate.
    fold main_run in Hrun.
    pose proof (searching_inv Hs) as Hinv.
    destruct (@search_step_next _ _ _ _ Hinv E)
      as (o & areas & key' & Hk' & E').
    assert (Ekey : key' = key) by congruence. subst key'.
    assert (Hinv0 : search_inv snap (set_offset o t)) by exact Hinv.
    destruct (search_turn_rest areas e key Hinv0)
      as (t2 & E2 & _ & Hback & _).
    rewrite E2 in E'. injection E' as ->.
    destruct (Hback Hb) as [Hm1 Hq1].
    assert (Hs1 : searching snap t1) by (now apply searching_turn with t e).
    apply (IH t1 t' Hs1 Hall'); [|exact Hrun].
    rewrite Hq1, removelast_shorter.
    change (search_query (set_offset o t)) with (search_query t).
    simpl in Hlen. lia.
Qed.

Lemma run_search_agree
  (f g : filesystem -> config -> str -> str -> list (str * str))
  (s : state) :
  same_on_queries f g -> search_query s <> [] ->
  run_search f s = run_search g s.
Proof.
  intros H Hq. unfold run_search. now rewrite (H _ _ _ _ Hq).
Qed.

(** The loop runs the search on queries that are not empty only: it does
    not tell apart two searches that differ on the empty query. *)
Lemma main_turn_agree
  (f g : filesystem -> config -> str -> str -> list (str * str))
  (s : state) (e : env) :
  same_on_queries f g -> main_turn f s e = main_turn g s e.
Proof.
  intros H. unfold main_turn.
  destruct (draw_files _ _ _ _ _ _ _ _) as [[o areas]|]; [|reflexivity].
  cbv zeta.
  destruct (draw_preview _ _ _); [|reflexivity].
  destruct (if nonempty _ then _ else _); [|reflexivity].
  destruct (draw_status_line _ _ _ _ _); [|reflexivity].
  destruct (getch e) as [key|]; [|reflexivity].
  destruct (key =? KEY_MOUSE); [reflexivity|].
  destruct (search_mode (set_offset o s)); [|reflexivity].
  f_equal. unfold on_search_key.
  destruct (_ || _ || _ || _).
  - destruct (truthy (search_query (set_offset o s))); [|reflexivity].
    cbv zeta.
    destruct (truthy (search_query
                (set_search_query
                   (removelast (search_query (set_offset o s)))
                   (set_offset o s)))) eqn:Et; [|reflexivity].
    f_equal. apply run_search_agree; [exact H|].
    intros E. rewrite E in Et. discriminate.
  - destruct (key =? 27); [reflexivity|].
    destruct (_ || _ || _); [reflexivity|].
    destruct (_ && _); [|reflexivity].
    f_equal. apply run_search_agree; [exact H|].
    simpl. intros E. symmetry in E. now apply app_cons_not_nil in E.
Qed.

(** C3: during a stay in the search mode, entered with [/] on the entry
    list [snap], the snapshot is [snap] and the entry list is [snap]
    whenever the query is empty; Escape ends the stay with the entry list
    [snap] and the query empty; as many backspaces as the query has
    characters leave the query empty and the entry list [snap]; and the
    loop never runs the search on the empty query.  The turns of Escape
    and of the backspaces are turns on which no line of the preview has a
    null character: on such a line [addnstr] raises [ValueError], which
    [draw_preview] does not catch, and the turn ends the program before
    the key is read; whenever the turn of Escape goes on, it is with the
    entry list [snap], and so it is with the backspaces. *)
Theorem search_round_trip (snap : list entry) (t : state) :
  searching snap t ->
  (search_mode t = true /\ all_files t = snap
   /\ (search_query t = [] -> files t = snap))
  /\ (forall e, getch e = Some 27 -> plain_preview e ->
        exists t', main_step t e = Next t'
                   /\ files t' = snap /\ search_mode t' = false
                   /\ search_query t' = [])
  /\ (forall es, Forall backspace_turn es -> Forall plain_preview es ->
        length es = length (search_query t) ->
        exists t', main_run t es = Next t'
                   /\ files t' = snap /\ search_query t' = []
                   /\ search_mode t' = true)
  /\ (forall e t', getch e = Some 27 -> main_step t e = Next t' ->
        files t' = snap /\ search_mode t' = false
        /\ search_query t' = [])
  /\ (forall es t', Forall backspace_turn es ->
        length es = length (search_query t) ->
        main_run t es = Next t' ->
        files t' = snap /\ search_query t' = []
        /\ search_mode t' = true)
  /\ (forall search' s e,
        same_on_queries search' search_from ->
        main_turn search' s e = main_step s e).
Proof.
  intros Hs. pose proof (searching_inv Hs) as Hinv.
  pose proof (searching_query Hs) as Hquery.
  split; [|split; [|split; [|split; [|split]]]].
  - destruct Hinv as (Hm & Ha & Hq & _). auto.
  - intros e Hk Hd.
    destruct (main_step_searching Hinv Hquery Hk Hd)
      as (t' & E & _ & _ & Hesc).
    exists t'. split; [exact E|]. now apply Hesc.
  - intros es Hall Hdr Hlen.
    destruct (backspaces_restore Hs Hall Hdr Hlen)
      as (t' & Hrun & Hs' & Hq & Hf).
    exists t'. repeat split; auto. now apply (searching_inv Hs').
  - intros e t' Hk H.
    destruct (@search_step_next _ _ _ _ Hinv H)
      as (o & areas & key & Hk' & E).
    assert (Ekey : key = 27) by congruence. subst key.
    assert (Hinv0 : search_inv snap (set_offset o t)) by exact Hinv.
    destruct (search_turn_rest areas e 27 Hinv0)
      as (t1 & E1 & _ & _ & Hesc & _).
    rewrite E1 in E. injection E as <-. now apply Hesc.
  - intros es t' Hall Hlen Hrun.
    destruct (backspaces_restore_next Hs Hall Hlen Hrun)
      as (Hs' & Hq & Hf).
    split; [exact Hf|]. split; [exact Hq|]. now apply (searching_inv Hs').
  - intros search' s e H. now apply main_turn_agree.
Qed.

Lemma search_round_trip_witness :
  searching (files demo_state)
    (demo_after [press (key_of "/") []; press (key_of "n") [];
                 press (key_of "o") []])
  /\ plain_preview (press 27 [])
  /\ exists t',
       main_step (demo_after [press (key_of "/") []; press (key_of "n") [];
                              press (key_of "o") []])
                 (press 27 []) = Next t'
       /\ files t' = files demo_state /\ search_mode t' = false
       /\ search_query t' = [].
Proof.
  assert (Hs : searching (files demo_state)
                 (demo_after [press (key_of "/") []; press (key_of "n") [];
                              press (key_of "o") []])).
  { apply searching_turn
      with (t := demo_after [press (key_of "/") []; press (key_of "n") []])
           (e := press (key_of "o") []); [|vm_compute; reflexivity
                                          |vm_compute; reflexivity].
    apply searching_turn
      with (t := demo_after [press (key_of "/") []])
           (e := press (key_of "n") []); [|vm_compute; reflexivity
                                          |vm_compute; reflexivity].
    apply searching_start with (s := demo_state)
                               (e := press (key_of "/") []);
      vm_compute; reflexivity. }
  assert (Hd : plain_preview (press 27 [])) by discriminate.
  split; [exact Hs|]. split; [exact Hd|].
  apply (proj1 (proj2 (search_round_trip Hs)) (press 27 []));
    [reflexivity|exact Hd].
Defined.

(** A null character in the file the preview shows ends the program on
    the turn of Escape, whatever the key. *)
Example search_escape_null_preview :
  let t := demo_after [press (key_of "/") []; press (key_of "n") [];
                       press (key_of "o") []] in
  let e := {| term_h := 24; term_w := 80; fault := NoFault;
              preview := PreviewNull; status_null := false;
              getch := Some 27; getmouse := None; time_now := 0;
              menu_keys := []; typed := []; confirm_key := 0;
              time_end := 0 |} in
  nonempty (files t) = true /\ main_step t e = Crash ValueError.
Proof. cbv zeta. split; vm_compute; reflexivity. Qed.

(** ** The selection index (C1) *)

(** C1 fails on the code.  In [/home/u], with the selection moved down to
    the last of the four entries, [b.txt], F2 renames it to [.b], a hidden
    name: the listing is reloaded with three entries and the selection is
    left at index 3, out of the range of C1.  The next turn raises
    [IndexError] where the status line reads [files[current_idx]]. *)
Theorem selection_out_of_range_after_rename :
  let down := press (key_of "j") [] in
  let s3 := demo_after [down; down; down] in
  let s4 := demo_after [down; down; down; press KEY_F2 (py ".b")] in
  main_run demo_state [down; down; down] = Next s3
  /\ files s3 = [Plain (py "docs"); Plain (py "locked"); Plain (py "a.txt");
                 Plain (py "b.txt")]
  /\ current_idx s3 = 3
  /\ in_range s3
  /\ main_step s3 (press KEY_F2 (py ".b")) = Next s4
  /\ files s4 = [Plain (py "docs"); Plain (py "locked"); Plain (py "a.txt")]
  /\ current_idx s4 = 3
  /\ ~ in_range s4
  /\ main_step s4 down = Crash IndexError.
Proof.
  cbv zeta. split; [vm_compute; reflexivity|].
  split; [vm_compute; reflexivity|]. split; [vm_compute; reflexivity|].
  split; [vm_compute; split; discriminate|].
  split; [vm_compute; reflexivity|]. split; [vm_compute; reflexivity|].
  split; [vm_compute; reflexivity|]. split; [|vm_compute; reflexivity].
  unfold in_range. vm_compute. intros [_ H]. now apply H.
Qed.

(** The sibling path: after a deletion the selection is brought back into
    range. *)
Example selection_clamped_after_delete :
  let down := press (key_of "j") [] in
  let s := demo_after [down; down; down; press (key_of "d") []] in
  files s = [Plain (py "docs"); Plain (py "locked"); Plain (py "a.txt")]
  /\ current_idx s = 2.
Proof. split; vm_compute; reflexivity. Qed.

(** ** The selection index: where it is kept in range *)

Lemma nonempty_len (A : Type) (l : list A) : nonempty l = true -> 1 <= len l.
Proof. destruct l; [discriminate|]. unfold len. simpl length. lia. Qed.

Lemma adjust_offset_nonneg (current_idx offset max_visible : Z) :
  0 <= current_idx -> 0 <= offset ->
  0 <= adjust_offset current_idx offset max_visible.
Proof.
  intros. unfold adjust_offset.
  destruct (current_idx <? offset); [lia|].
  destruct (current_idx >=? offset + max_visible) eqn:E; lia.
Qed.

Lemma enumerate_from_in (A : Type) (l : list A) :
  forall k i x, In (i, x) (enumerate_from k l) -> k <= i < k + len l.
Proof.
  induction l as [|y l IH]; intros k i x H; [contradiction|].
  unfold len in *. simpl length. simpl in H. destruct H as [H|H].
  - injection H as <- <-. lia.
  - apply IH in H. lia.
Qed.

Lemma click_loop_at (h o y v : Z) (items : list (Z * entry)) :
  click_at y (click_loop h o items) = Some v ->
  exists i x, In (i, x) items /\ v = i + o.
Proof.
  induction items as [|[i x] items IH]; simpl; [discriminate|].
  destruct (i + 2 >=? h - 2); [discriminate|]. simpl.
  destruct (i + 2 =? y).
  - intros H. injection H as <-. exists i, x. auto.
  - intros H. destruct (IH H) as (i' & x' & Hin & ->). eauto.
Qed.

Lemma py_slice_len (A : Type) (l : list A) (start stop : Z) :
  0 <= start -> len (py_slice l start stop) <= Z.max 0 (len l - start).
Proof.
  intros H. unfold py_slice, len, slice_bound.
  destruct (start <? 0) eqn:E; [lia|].
  rewrite length_firstn, length_skipn. lia.
Qed.

Lemma draw_files_areas (fs : filesystem) (h : Z) (fault : draw_fault)
  (path : str) (files : list entry) (current_idx offset : Z)
  (search_mode : bool) (o : Z) (areas : list (Z * Z)) :
  draw_files fs h fault path files current_idx offset search_mode
  = Ok (o, areas) ->
  0 <= current_idx -> 0 <= offset ->
  0 <= o /\ (forall y v, click_at y areas = Some v -> 0 <= v < len files).
Proof.
  intros H Hi Ho. unfold draw_files in H.
  pose proof (adjust_offset_nonneg (h - 4) Hi Ho) as Ha.
  destruct fault;
    try (injection H as <- <-; split; [lia|discriminate]);
    destruct (if negb search_mode && nonempty files && os_path_isdir fs path
              then os_listdir fs path else Ok []); try discriminate;
    destruct files as [|f fl];
    try (injection H as <- <-; split; [lia|discriminate]).
  injection H as <- <-. split; [exact Ha|].
  intros y v Hv. apply click_loop_at in Hv as (i & x & Hin & ->).
  apply enumerate_from_in in Hin.
  pose proof (@py_slice_len _ (f :: fl)
                (adjust_offset current_idx offset (h - 4))
                (adjust_offset current_idx offset (h - 4) + (h - 4)) Ha).
  lia.
Qed.

Ltac range_step :=
  match goal with
  | H : Next _ = Next _ |- _ => injection H as <-
  | H : Crash _ = Next _ |- _ => discriminate H
  | H : Exit _ = Next _ |- _ => discriminate H
  | H : Blocked = Next _ |- _ => discriminate H
  | H : match ?x with _ => _ end = _ |- _ => destruct x eqn:?
  end.

Ltac proj_simpl :=
  cbn [fs cfg path files all_files search_results current_idx offset
       search_mode search_query last_click_time last_click_idx clicked_idx
       set_fs set_cfg set_path set_files set_all_files set_search_results
       set_current_idx set_offset set_search_mode set_search_query
       set_last_click set_clicked_idx clamp] in *.

Ltac range_facts :=
  repeat match goal with
         | H : nonempty ?l = true |- _ => apply nonempty_len in H
         | |- context [len ?l] =>
             lazymatch goal with
             | _ : 0 <= len l |- _ => fail
             | _ => pose proof (len_nonneg l)
             end
         end.

Ltac range_close :=
  unfold in_bounds, in_range in *; proj_simpl;
  repeat (match goal with
          | |- context [if ?c then _ else _] => destruct c eqn:?
          end; proj_simpl);
  range_facts;
  repeat match goal with
         | H : @eq ?T _ _ |- _ =>
             lazymatch T with Z => fail | _ => clear H end
         end;
  lia.

Lemma on_search_key_bounds
  (search : filesystem -> config -> str -> str -> list (str * str))
  (s : state) (key : Z) (s' : state) :
  in_bounds s -> on_search_key search s key = Next s' -> in_bounds s'.
Proof.
  intros Hb H. unfold on_search_key, run_search in H.
  repeat range_step; range_close.
Qed.

Lemma on_mouse_bounds (s : state) (areas : list (Z * Z)) (e : env)
  (s' : state) :
  in_bounds s ->
  (forall y v, click_at y areas = Some v -> 0 <= v < len (files s)) ->
  on_mouse s areas e = Next s' -> in_bounds s'.
Proof.
  intros Hb Ha H. unfold on_mouse, enter_directory, reload in H.
  repeat range_step;
    try match goal with
        | H : click_at _ _ = Some _ |- _ => apply Ha in H
        end;
    range_close.
Qed.

Lemma on_key_bounds (s : state) (key : Z) (e : env) (s' : state) :
  in_bounds s ->
  key <> key_of "n" -> key <> key_of "m" -> key <> KEY_F2 ->
  on_key s key e = Next s' -> in_bounds s'.
Proof.
  intros Hb Hn Hm Hf H.
  apply Z.eqb_neq in Hn, Hm, Hf.
  unfold on_key, enter_directory, open_context, reload in H.
  rewrite Hn, Hm, Hf in H. cbv iota zeta in H.
  repeat range_step; range_close.
Qed.

(** A turn that goes on: the list was drawn, a key was read, and the
    branch of the key left the state that the end of the turn keeps, the
    click feedback perhaps cleared. *)
Lemma main_step_next (s : state) (e : env) (s' : state) :
  main_step s e = Next s' ->
  exists o areas key s0,
    draw_files (fs s) (term_h e) (fault e) (path s) (files s)
      (current_idx s) (offset s) (search_mode s) = Ok (o, areas)
    /\ getch e = Some key
    /\ (if key =? KEY_MOUSE then on_mouse (set_offset o s) areas e
        else if search_mode s
             then on_search_key search_from (set_offset o s) key
             else on_key (set_offset o s) key e) = Next s0
    /\ (s' = s0 \/ s' = set_clicked_idx (-1) s0).
Proof.
  intros H. unfold main_step, main_turn in H.
  destruct (draw_files (fs s) (term_h e) (fault e) (path s) (files s)
              (current_idx s) (offset s) (search_mode s))
    as [[o areas]|] eqn:Ed; [|discriminate].
  cbv zeta in H.
  destruct (draw_preview _ _ _); [|discriminate].
  destruct (if nonempty (files (set_offset o s))
            then py_index (files (set_offset o s))
                   (current_idx (set_offset o s))
            else Some (Plain [])); [|discriminate].
  destruct (draw_status_line _ _ _ _ _); [|discriminate].
  destruct (getch e) as [key|] eqn:Eg; [|discriminate].
  apply end_of_turn_next in H as (s0 & E & Hs').
  exists o, areas, key, s0. auto.
Qed.

(** X1 ([main], the loop).  A turn keeps the selection within
    [0, max(0, len(files) - 1)] and the offset non-negative, in the search
    mode on any key and outside it on every key but [n], [m] and F2 (and on
    any mouse report). *)
Theorem main_step_keeps_bounds (s : state) (e : env) (s' : state) :
  in_bounds s ->
  main_step s e = Next s' ->
  search_mode s = true
  \/ (forall key, getch e = Some key ->
        key = KEY_MOUSE
        \/ (key <> key_of "n" /\ key <> key_of "m" /\ key <> KEY_F2)) ->
  in_bounds s'.
Proof.
  intros Hb H Hk.
  apply main_step_next in H as (o & areas & key & s0 & Ed & Eg & E & Hs').
  destruct Hb as [Hr Ho]. unfold in_range in Hr.
  destruct (draw_files_areas _ _ _ _ _ _ Ed (proj1 Hr) Ho) as [Ho' Ha].
  assert (Hb0 : in_bounds (set_offset o s)) by (split; assumption).
  assert (Hb1 : in_bounds s0).
  { destruct (key =? KEY_MOUSE) eqn:Em.
    - eapply on_mouse_bounds; [exact Hb0|exact Ha|exact E].
    - destruct (search_mode s) eqn:Es.
      + eapply on_search_key_bounds; [exact Hb0|exact E].
      + destruct Hk as [Hk|Hk]; [discriminate|].
        destruct (Hk key Eg) as [->|(Hn & Hm & Hf)]; [discriminate|].
        eapply on_key_bounds; [exact Hb0|exact Hn|exact Hm|exact Hf|exact E]. }
  destruct Hs' as [->| ->]; exact Hb1.
Qed.

Lemma main_step_keeps_bounds_witness :
  in_bounds (demo_after [press (key_of "j") []]).
Proof.
  apply (@main_step_keeps_bounds demo_state (press (key_of "j") [])).
  - split; [split|]; vm_compute; discriminate.
  - vm_compute; reflexivity.
  - right. intros key H. injection H as <-. right.
    repeat split; vm_compute; discriminate.
Defined.

(** ** The click areas of the list pane *)

Lemma slice_bound_range (n i : Z) : 0 <= n -> 0 <= slice_bound n i <= n.
Proof. intros H. unfold slice_bound. destruct (i <? 0) eqn:E; lia. Qed.

Lemma py_slice_length (A : Type) (l : list A) (start stop : Z) :
  len (py_slice l start stop)
  = Z.max 0 (slice_bound (len l) stop - slice_bound (len l) start).
Proof.
  unfold py_slice, len.
  pose proof (slice_bound_range start (Nat2Z.is_nonneg (length l))).
  pose proof (slice_bound_range stop (Nat2Z.is_nonneg (length l))).
  rewrite length_firstn, length_skipn. lia.
Qed.

(** The rows [click_loop] fills: the row [y] holds the index [y - 2 + o]
    when [y - 2] is the number of an item and [y] is above the row
    [h - 2]. *)
Lemma click_loop_rows (h o y v : Z) (l : list entry) :
  forall k,
    click_at y (click_loop h o (enumerate_from k l)) = Some v
    <-> k <= y - 2 < k + len l /\ y < h - 2 /\ v = y - 2 + o.
Proof.
  induction l as [|x l IH]; intros k.
  - unfold len. simpl. split; [discriminate|lia].
  - unfold len in *. simpl length. simpl enumerate_from. simpl click_loop.
    destruct (k + 2 >=? h - 2) eqn:Eb.
    + simpl. split; [discriminate|lia].
    + simpl click_at. destruct (k + 2 =? y) eqn:Ey.
      * split.
        -- intros H. injection H as <-. lia.
        -- intros (_ & _ & ->). f_equal. lia.
      * rewrite IH. lia.
Qed.

(** When nothing fails while drawing, the row [y] of the pane holds the
    entry [o + (y - 2)], if there is one, [o] being the offset returned. *)
Lemma draw_files_row (fs : filesystem) (h : Z) (path : str)
  (files : list entry) (current_idx offset : Z) (search_mode : bool)
  (o : Z) (areas : list (Z * Z)) (y : Z) :
  draw_files fs h NoFault path files current_idx offset search_mode
  = Ok (o, areas) ->
  0 <= current_idx -> 0 <= offset ->
  2 <= y < h - 2 -> o + (y - 2) < len files ->
  click_at y areas = Some (o + (y - 2)).
Proof.
  intros H Hi Ho Hy Hv. unfold draw_files in H.
  pose proof (adjust_offset_nonneg (h - 4) Hi Ho) as Ha.
  destruct (if negb search_mode && nonempty files && os_path_isdir fs path
            then os_listdir fs path else Ok []); [|discriminate].
  destruct files as [|f fl].
  - injection H as <- <-. unfold len in Hv. simpl in Hv. lia.
  - injection H as <- <-.
    replace (adjust_offset current_idx offset (h - 4) + (y - 2))
      with (y - 2 + adjust_offset current_idx offset (h - 4)) by lia.
    apply click_loop_rows. rewrite py_slice_length. unfold slice_bound.
    destruct (adjust_offset current_idx offset (h - 4) <? 0) eqn:E1; [lia|].
    destruct (adjust_offset current_idx offset (h - 4) + (h - 4) <? 0)
      eqn:E2; lia.
Qed.

(** X2 ([draw_files], the click areas).  Every row of the click areas is a
    row [y] of the pane, from row 2 to row [h - 3], and holds the index
    [offset + (y - 2)] of an entry of the list, [offset] being the offset
    returned; when nothing fails while drawing, each such row whose index
    is an entry's is in the click areas. *)
Theorem draw_files_click_rows (fs : filesystem) (h : Z) (fault : draw_fault)
  (path : str) (files : list entry) (current_idx offset : Z)
  (search_mode : bool) (o : Z) (areas : list (Z * Z)) :
  draw_files fs h fault path files current_idx offset search_mode
  = Ok (o, areas) ->
  0 <= current_idx -> 0 <= offset ->
  (forall y v, click_at y areas = Some v ->
     2 <= y < h - 2 /\ v = o + (y - 2) /\ 0 <= v < len files)
  /\ (fault = NoFault ->
      forall y, 2 <= y < h - 2 -> o + (y - 2) < len files ->
                click_at y areas = Some (o + (y - 2))).
Proof.
  intros H Hi Ho. unfold draw_files in H.
  pose proof (adjust_offset_nonneg (h - 4) Hi Ho) as Ha.
  pose proof (len_nonneg files) as Hn.
  destruct fault;
    try (injection H as <- <-; split; [discriminate|discriminate]);
    destruct (if negb search_mode && nonempty files && os_path_isdir fs path
              then os_listdir fs path else Ok []); try discriminate;
    destruct files as [|f fl];
    try (injection H as <- <-; split; [discriminate|discriminate]).
  - injection H as <- <-. split; [discriminate|].
    intros _ y Hy Hv. unfold len in Hv. simpl in Hv. lia.
  - injection H as <- <-.
    set (o := adjust_offset current_idx offset (h - 4)) in *.
    assert (Hrow : forall y v,
               click_at y (click_loop h o
                             (enumerate_from 0
                                (py_slice (f :: fl) o (o + (h - 4)))))
               = Some v
               <-> 2 <= y < h - 2 /\ v = o + (y - 2)
                   /\ v < len (f :: fl)).
    { intros y v. rewrite click_loop_rows, py_slice_length.
      unfold slice_bound.
      destruct (o <? 0) eqn:E1; [lia|].
      destruct (o + (h - 4) <? 0) eqn:E2; lia. }
    split.
    + intros y v Hv. apply Hrow in Hv. lia.
    + intros _ y Hy Hv. apply Hrow. lia.
Qed.

Lemma draw_files_click_rows_witness :
  click_at 3
    (snd (match draw_files demo_fs 24 NoFault (py "/home/u")
                  (files demo_state) 0 0 false with
          | Ok r => r
          | Raise _ => (0, [])
          end))
  = Some 1.
Proof.
  assert (E : draw_files demo_fs 24 NoFault (py "/home/u")
                (files demo_state) 0 0 false
              = Ok (0, [(2, 0); (3, 1); (4, 2); (5, 3)]))
    by (vm_compute; reflexivity).
  rewrite E.
  destruct (draw_files_click_rows _ _ _ _ _ _ E (Z.le_refl 0) (Z.le_refl 0))
    as [_ H].
  apply (H eq_refl 3); [lia|vm_compute; reflexivity].
Defined.

(** ** The search: what it finds *)

Section SearchFinds.

Variable listdir : str -> result (list str).
Variable isdir : str -> bool.
Variable cfg : config.
Variable query_lower : str.
Variable max_results : nat.
Variable root : str.

Local Abbreviation sid :=
  (search_in_dir listdir isdir cfg query_lower max_results).
Local Abbreviation sloop :=
  (search_loop listdir isdir cfg query_lower max_results).
Local Abbreviation down := (descends listdir isdir cfg root).

Lemma grows_refl (st : search_state) : grows st st.
Proof. exists []. now rewrite app_nil_r. Qed.

Lemma grows_trans (st1 st2 st3 : search_state) :
  grows st1 st2 -> grows st2 st3 -> grows st1 st3.
Proof.
  intros [x1 E1] [x2 E2]. exists (x1 ++ x2).
  now rewrite E2, E1, app_assoc.
Qed.

Lemma grows_length (st st' : search_state) :
  grows st st' -> (length (results st) <= length (results st'))%nat.
Proof. intros [x E]. rewrite E, length_app. lia. Qed.

Lemma grows_in (st st' : search_state) (r : str * str) :
  grows st st' -> In r (results st) -> In r (results st').
Proof. intros [x E] H. rewrite E. apply in_or_app. now left. Qed.

Lemma search_in_dir_grows (fuel : nat) :
  forall (cur rel : str) (depth : nat) (st : search_state),
    grows st (sid fuel cur rel depth st).
Proof.
  induction fuel as [|fuel IH]; intros cur rel depth st;
    rewrite search_in_dir_eq;
    destruct (_ || _); try apply grows_refl.
  destruct (listdir cur) as [entries|ex]; [|exists []; simpl; now rewrite app_nil_r].
  apply grows_trans with (record_listing st cur depth);
    [exists []; simpl; now rewrite app_nil_r|].
  generalize (record_listing st cur depth).
  induction entries as [|entry rest IHl]; intros st'; [apply grows_refl|].
  rewrite search_loop_cons.
  destruct ((max_results <=? length (results st'))%nat); [apply grows_refl|].
  destruct (negb (show_hidden cfg) && hidden entry); [apply IHl|].
  cbv zeta. eapply grows_trans; [|apply IHl].
  eapply grows_trans with
    (if str_in query_lower (lower entry)
     then append_result st' (os_path_join rel entry) (os_path_join cur entry)
     else st').
  - destruct (str_in query_lower (lower entry)); [|apply grows_refl].
    eexists. simpl. reflexivity.
  - destruct (isdir (os_path_join cur entry)); [apply IH|apply grows_refl].
Qed.

Lemma search_loop_grows (fuel : nat) (cur rel : str) (depth : nat)
  (entries : list str) :
  forall st, grows st (sloop fuel cur rel depth entries st).
Proof.
  induction entries as [|entry rest IHl]; intros st'; [apply grows_refl|].
  rewrite search_loop_cons.
  destruct ((max_results <=? length (results st'))%nat); [apply grows_refl|].
  destruct (negb (show_hidden cfg) && hidden entry); [apply IHl|].
  cbv zeta. eapply grows_trans; [|apply IHl].
  eapply grows_trans with
    (if str_in query_lower (lower entry)
     then append_result st' (os_path_join rel entry) (os_path_join cur entry)
     else st').
  - destruct (str_in query_lower (lower entry)); [|apply grows_refl].
    eexists. simpl. reflexivity.
  - destruct (isdir (os_path_join cur entry));
      [apply search_in_dir_grows|apply grows_refl].
Qed.

Lemma descends_last (names : list str) (e : str) :
  down (names ++ [e]) ->
  down names
  /\ (exists entries, listdir (joins root names) = Ok entries
                      /\ In e entries)
  /\ visible cfg e
  /\ isdir (joins root (names ++ [e])) = true.
Proof.
  intros H. inversion H as [E|names' e' entries Hd Hl Hin Hv Hi E].
  - now apply app_cons_not_nil in E.
  - apply app_inj_tail in E as [-> ->]. eauto 6.
Qed.

Lemma descends_prefix (l1 l2 : list str) : down (l1 ++ l2) -> down l1.
Proof.
  induction l2 as [|x l2 IH] using rev_ind.
  - now rewrite app_nil_r.
  - rewrite app_assoc. intros H. apply descends_last in H as [H _]. auto.
Qed.

(** The first step from [names] towards the entry [e] below
    [names ++ rest]: a visible entry of the listing of [names]. *)
Lemma first_step (names rest : list str) (e : str) (entries : list str) :
  down (names ++ rest) ->
  listdir (joins root (names ++ rest)) = Ok entries ->
  In e entries -> visible cfg e ->
  exists x tl found,
    rest ++ [e] = x :: tl
    /\ listdir (joins root names) = Ok found /\ In x found /\ visible cfg x
    /\ (tl <> [] -> isdir (joins root (names ++ [x])) = true).
Proof.
  intros Hd Hl Hin Hv. destruct rest as [|r rest].
  - rewrite app_nil_r in Hl. exists e, [], entries.
    split; [reflexivity|]. split; [exact Hl|]. split; [exact Hin|].
    split; [exact Hv|]. intros H. now contradiction H.
  - assert (Hd' : down (names ++ [r])).
    { apply descends_prefix with rest. now rewrite <- app_assoc. }
    apply descends_last in Hd' as (_ & (found & Hf & Hr) & Hvr & Hi).
    exists r, (rest ++ [e]), found.
    split; [reflexivity|]. split; [exact Hf|]. split; [exact Hr|].
    split; [exact Hvr|]. intros _. exact Hi.
Qed.

(** Below a directory the search is run on, every matching entry is among
    the results, unless the run ends with the cap reached. *)
Lemma search_in_dir_finds (fuel : nat) :
  forall (names rest : list str) (e : str) (entries : list str)
         (st : search_state),
    (S (search_max_depth cfg) - length names <= fuel)%nat ->
    down (names ++ rest) ->
    (length (names ++ rest) <= search_max_depth cfg)%nat ->
    listdir (joins root (names ++ rest)) = Ok entries ->
    In e entries -> visible cfg e ->
    str_in query_lower (lower e) = true ->
    (length (results (sid fuel (joins root names) (display names)
                          (length names) st)) < max_results)%nat ->
    In (display (names ++ rest ++ [e]), joins root (names ++ rest ++ [e]))
       (results (sid fuel (joins root names) (display names)
                     (length names) st)).
Proof.
  induction fuel as [|fuel IH];
    intros names rest e entries st Hfuel Hd Hlen Hl Hin Hv Hm;
    rewrite length_app in Hlen; [lia|].
  pose proof (search_in_dir_grows (S fuel) (joins root names)
                (display names) (length names) st) as Hg.
  rewrite search_in_dir_eq in *. intros Hcap.
  destruct ((max_results <=? length (results st))%nat) eqn:Ec.
  { apply Nat.leb_le in Ec. simpl in Hcap. lia. }
  destruct ((search_max_depth cfg <? length names)%nat) eqn:Ed.
  { apply Nat.ltb_lt in Ed. lia. }
  simpl orb in *. cbv iota in *.
  destruct (first_step names rest Hd Hl Hin Hv)
    as (x & tl & found & Ex & Hf & Hx & Hvx & Hix).
  rewrite Hf in *. clear Hg Ec Hf.
  revert Hcap. generalize (record_listing st (joins root names)
                                          (length names)).
  induction found as [|entry todo IHl]; intros st' Hcap; [contradiction|].
  pose proof (search_loop_grows fuel (joins root names) (display names)
                (length names) (entry :: todo) st') as Hg.
  rewrite search_loop_cons in *.
  destruct ((max_results <=? length (results st'))%nat) eqn:Ec.
  { apply Nat.leb_le in Ec. lia. }
  destruct (negb (show_hidden cfg) && hidden entry) eqn:Eh.
  { destruct Hx as [->|Hx]; [|now apply IHl].
    apply andb_true_iff in Eh as [Es Eh].
    apply negb_true_iff in Es. rewrite (Hvx Es) in Eh. discriminate. }
  cbv zeta in *.
  destruct Hx as [->|Hx]; [|now apply IHl].
  clear IHl Hg.
  set (st1 := if str_in query_lower (lower x)
              then append_result st' (os_path_join (display names) x)
                                 (os_path_join (joins root names) x)
              else st') in *.
  set (st2 := if isdir (os_path_join (joins root names) x)
              then sid fuel (os_path_join (joins root names) x)
                       (os_path_join (display names) x)
                       (S (length names)) st1
              else st1) in *.
  pose proof (search_loop_grows fuel (joins root names) (display names)
                (length names) todo st2) as Hg2.
  pose proof (grows_length Hg2) as Hlen2.
  eapply grows_in; [exact Hg2|].
  rewrite app_assoc.
  destruct rest as [|r rest].
  - simpl in Ex. injection Ex as <- <-. rewrite app_nil_r.
    assert (H1 : In (display (names ++ [e]), joins root (names ++ [e]))
                    (results st1)).
    { unfold st1. rewrite Hm, display_snoc, joins_snoc. simpl.
      apply in_or_app. right. now left. }
    unfold st2.
    destruct (isdir (os_path_join (joins root names) e)); [|exact H1].
    eapply grows_in; [apply search_in_dir_grows|exact H1].
  - simpl in Ex. injection Ex as <- <-.
    assert (Hi : isdir (os_path_join (joins root names) r) = true).
    { rewrite <- joins_snoc. apply Hix. intros E.
      symmetry in E. now apply app_cons_not_nil in E. }
    unfold st2 in *. rewrite Hi in *.
    rewrite <- joins_snoc, <- display_snoc in *.
    replace (S (length names)) with (length (names ++ [r])) in *
      by (rewrite length_app; simpl; lia).
    replace ((names ++ r :: rest) ++ [e])
      with ((names ++ [r]) ++ rest ++ [e])
      by (now rewrite <- !app_assoc).
    apply IH with entries; auto.
    + rewrite length_app. cbn [length]. lia.
    + now rewrite <- app_assoc.
    + rewrite !length_app. cbn [length] in *. lia.
    + now rewrite <- app_assoc.
    + lia.
Qed.

End SearchFinds.

(** X3 ([search_files_recursive], completeness).  Unless the search ends
    with [max_results] results, it returns every visible entry whose name
    holds the query, lower case, and that lies in a directory at most
    [search_max_depth] levels below the root and reached through visible
    directories, with its display path and its full path. *)
Theorem search_finds_all (listdir : str -> result (list str))
  (isdir : str -> bool) (cfg : config) (root query : str)
  (max_results : nat) (names : list str) (e : str) (entries : list str) :
  descends listdir isdir cfg root names ->
  (length names <= search_max_depth cfg)%nat ->
  listdir (joins root names) = Ok entries ->
  In e entries ->
  visible cfg e ->
  str_in (lower query) (lower e) = true ->
  (length (search_files_recursive listdir isdir cfg root query max_results)
   < max_results)%nat ->
  In (display (names ++ [e]), joins root (names ++ [e]))
     (search_files_recursive listdir isdir cfg root query max_results).
Proof.
  intros Hd Hlen Hl Hin Hv Hm Hcap.
  unfold search_files_recursive, search_run in *.
  apply (@search_in_dir_finds listdir isdir cfg (lower query) max_results
           root (S (search_max_depth cfg)) [] names e entries
           {| results := []; log := [] |}); auto; simpl; lia.
Qed.

Lemma search_finds_all_witness :
  In (py "docs/Notes.md", py "/home/u/docs/Notes.md")
     (search_files_recursive (os_listdir demo_fs) (os_path_isdir demo_fs)
        CONFIG (py "/home/u") (py "notes") 100).
Proof.
  apply (@search_finds_all (os_listdir demo_fs) (os_path_isdir demo_fs)
           CONFIG (py "/home/u") (py "notes") 100
           [py "docs"] (py "Notes.md") [py "Notes.md"; py "old"]).
  - apply (@descends_entry (os_listdir demo_fs) (os_path_isdir demo_fs)
             CONFIG (py "/home/u") [] (py "docs")
             [py "b.txt"; py "docs"; py "a.txt"; py ".cache"; py "locked"]).
    + apply descends_root.
    + vm_compute; reflexivity.
    + right; left; reflexivity.
    + intros _; reflexivity.
    + vm_compute; reflexivity.
  - simpl; lia.
  - vm_compute; reflexivity.
  - left; reflexivity.
  - intros _; reflexivity.
  - vm_compute; reflexivity.
  - apply Nat.ltb_lt. vm_compute; reflexivity.
Defined.

(** ** No [IndexError] while the selection is in range *)

Lemma os_listdir_no_index_error (fs : filesystem) (p : str) :
  os_listdir fs p <> Raise IndexError.
Proof.
  unfold os_listdir. destruct (lookup fs p) as [[|[|] ch]|]; discriminate.
Qed.

Lemma listing_no_index_error (s : state) (p : str) :
  listing s p <> Raise IndexError.
Proof.
  unfold listing, list_dir.
  pose proof (os_listdir_no_index_error (fs s) p) as H.
  destruct (os_listdir (fs s) p) as [l|ex]; [|destruct ex]; try discriminate;
    try (destruct (sort_dirs_first (cfg s)); discriminate).
  now contradiction H.
Qed.

Lemma reload_no_index_error (s : state) (k : state -> state) :
  reload s k <> Crash IndexError.
Proof.
  unfold reload. pose proof (listing_no_index_error s (path s)) as H.
  destruct (listing s (path s)) as [l|ex]; [discriminate|].
  intros E. injection E as ->. now contradiction H.
Qed.

Lemma menu_loop_no_index_error (A : Type) (options : list (str * A))
  (y x menu_h menu_w : Z) (inputs : list menu_input) :
  menu_loop options y x menu_h menu_w inputs <> MenuRaise IndexError.
Proof.
  induction inputs as [|[key mouse|] rest IH]; simpl; [discriminate| |exact IH].
  destruct (key =? 27); [discriminate|].
  destruct (key =? KEY_MOUSE).
  - destruct mouse as [[mx my]|]; [|exact IH].
    destruct (negb _); [discriminate|exact IH].
  - destruct ((0 <=? key - key_of "1") && (key - key_of "1" <? len options))
      eqn:E; [|exact IH].
    apply andb_true_iff in E as [E0 E1].
    apply Z.leb_le in E0. apply Z.ltb_lt in E1.
    rewrite py_index_in_range by lia.
    destruct (nth_error options (Z.to_nat (key - key_of "1")))
      as [[text a]|] eqn:En; [discriminate|].
    apply nth_error_None in En. unfold len in E1. lia.
Qed.

Lemma show_context_menu_no_index_error (A : Type) (h w y x : Z)
  (options : list (str * A)) (inputs : list menu_input) :
  show_context_menu h w y x options inputs <> MenuRaise IndexError.
Proof.
  unfold show_context_menu. destruct options as [|o os]; [discriminate|].
  cbv zeta. destruct (_ || _); [discriminate|].
  destruct (existsb _ _); [discriminate|].
  apply menu_loop_no_index_error.
Qed.

Lemma show_file_context_no_index_error (fs : filesystem) (cfg : config)
  (h w : Z) (full_path : str) (pos : option (Z * Z))
  (menu_keys : list menu_input) (typed : str) (confirm_key : Z) :
  show_file_context fs cfg h w full_path pos menu_keys typed confirm_key
  <> CtxRaise IndexError.
Proof.
  unfold show_file_context.
  destruct (match pos with Some (y, x) => (y, x) | None => (h / 2, w / 2) end)
    as [y x].
  pose proof (show_context_menu_no_index_error h w y x context_options
                menu_keys) as H.
  destruct (show_context_menu h w y x context_options menu_keys)
    as [action| |ex|]; try discriminate.
  - repeat match goal with
           | |- (if ?c then _ else _) <> _ => destruct c
           | |- (match ?c with _ => _ end) <> _ => destruct c
           end; discriminate.
  - intros E. injection E as ->. now contradiction H.
Qed.

Lemma full_path_at_no_index_error (s : state) (i : Z) (ex : exn) :
  0 <= i -> full_path_at s i <> Some (Raise ex).
Proof.
  intros Hi. unfold full_path_at.
  destruct (nonempty (files s) && (i <? len (files s))) eqn:E;
    [|discriminate].
  apply andb_true_iff in E as [_ E]. apply Z.ltb_lt in E.
  rewrite py_index_in_range by lia.
  destruct (nth_error (files s) (Z.to_nat i)) as [[name|d f]|] eqn:En;
    try discriminate.
  apply nth_error_None in En. unfold len in E. lia.
Qed.

Ltac crash_step :=
  match goal with
  | |- Next _ <> _ => discriminate
  | |- Exit _ <> _ => discriminate
  | |- Blocked <> _ => discriminate
  | |- reload _ _ <> _ => apply reload_no_index_error
  | |- enter_directory _ _ <> _ => apply reload_no_index_error
  | |- (if ?c then _ else _) <> _ => destruct c eqn:?
  | |- (let (_, _) := ?c in _) <> _ => destruct c eqn:?
  | |- (match ?c with _ => _ end) <> _ => destruct c eqn:?
  end.

Lemma open_context_no_index_error (s : state) (full_path : str)
  (pos : option (Z * Z)) (e : env) :
  open_context s full_path pos e <> Crash IndexError.
Proof.
  unfold open_context.
  pose proof (show_file_context_no_index_error (fs s) (cfg s) (term_h e)
                (term_w e) full_path pos (menu_keys e) (typed e)
                (confirm_key e)) as H.
  destruct (show_file_context _ _ _ _ _ _ _ _ _); try discriminate.
  intros E. injection E as ->. now contradiction H.
Qed.

Lemma on_key_no_index_error (s : state) (key : Z) (e : env) :
  0 <= current_idx s -> on_key s key e <> Crash IndexError.
Proof.
  intros Hi. unfold on_key, on_create.
  pose proof (@full_path_at_no_index_error s (current_idx s)) as Hp.
  destruct (full_path_at s (current_idx s)) as [[p|ex]|];
    [| exfalso; now apply (Hp ex) |];
    repeat first [apply open_context_no_index_error | crash_step].
Qed.

Lemma on_search_key_no_crash
  (search : filesystem -> config -> str -> str -> list (str * str))
  (s : state) (key : Z) (ex : exn) :
  on_search_key search s key <> Crash ex.
Proof. unfold on_search_key. repeat crash_step. Qed.

Lemma on_mouse_no_index_error (s : state) (areas : list (Z * Z)) (e : env) :
  (forall y v, click_at y areas = Some v -> 0 <= v) ->
  on_mouse s areas e <> Crash IndexError.
Proof.
  intros Ha. unfold on_mouse.
  destruct (getmouse e) as [[[x y] b]|]; [|discriminate].
  cbv zeta.
  destruct (nonzero (Z.land b BUTTON4_PRESSED)); [discriminate|].
  destruct (nonzero (Z.land b BUTTON5_PRESSED)); [discriminate|].
  destruct (nonzero (Z.land b BUTTON1_PRESSED) && negb (search_mode s)).
  { destruct (click_at y areas) as [v|] eqn:Ev; [|discriminate].
    apply Ha in Ev.
    match goal with
    | |- match ?a with _ => _ end <> _ =>
        assert (Hafter : a <> Crash IndexError);
        [|destruct a as [?|?|ex|]; try discriminate;
          intros E; injection E as ->; now contradiction Hafter]
    end.
    destruct (_ && _); [|discriminate].
    pose proof (@full_path_at_no_index_error
                  (set_current_idx v (set_clicked_idx v s)) v) as Hp.
    destruct (full_path_at (set_current_idx v (set_clicked_idx v s)) v)
      as [[p|ex]|]; [| exfalso; now apply (Hp ex) |discriminate].
    destruct (os_path_isdir _ p); [|discriminate].
    apply reload_no_index_error. }
  destruct (nonzero (Z.land b BUTTON3_PRESSED) && negb (search_mode s));
    [|discriminate].
  destruct (click_at y areas) as [v|] eqn:Ev; [|discriminate].
  apply Ha in Ev.
  change (current_idx (set_current_idx v s)) with v.
  pose proof (@full_path_at_no_index_error (set_current_idx v s) v) as Hp.
  destruct (full_path_at (set_current_idx v s) v)
    as [[p|ex]|]; [| exfalso; now apply (Hp ex) |discriminate].
  pose proof (show_file_context_no_index_error
                (fs (set_current_idx v s)) (cfg (set_current_idx v s))
                (term_h e) (term_w e) p (Some (y, x)) (menu_keys e)
                (typed e) (confirm_key e)) as H.
  destruct (show_file_context _ _ _ _ _ _ _ _ _) as [b0 fs'|ex|];
    try discriminate.
  destruct ex; try discriminate. now contradiction H.
Qed.

Lemma draw_preview_no_index_error (s : state) (f : preview_fault) :
  selectable s ->
  draw_preview (files s) (current_idx s) f <> Raise IndexError.
Proof.
  intros Hs. apply selectable_index in Hs. unfold draw_preview.
  destruct f; try discriminate;
    (destruct (nonempty (files s)); [|discriminate]; cbn [negb orb];
     destruct (current_idx s >=? len (files s)); [discriminate|];
     destruct (py_index (files s) (current_idx s));
     [discriminate|contradiction]).
Qed.

Lemma draw_status_line_no_index_error (h w : Z) (search_mode : bool)
  (query : str) (null : bool) :
  draw_status_line h w search_mode query null <> Raise IndexError.
Proof.
  unfold draw_status_line. destruct search_mode.
  - destruct (draw_status_search h w query) as [[status c]|];
      [|discriminate]. destruct (has_null status); discriminate.
  - destruct ((h <? 2) || (w <? 10)); [discriminate|].
    destruct null; discriminate.
Qed.

Lemma main_step_no_index_error (s : state) (e : env) :
  in_bounds s -> main_step s e <> Crash IndexError.
Proof.
  intros [[Hlo Hhi] Ho]. unfold main_step, main_turn.
  destruct (draw_files (fs s) (term_h e) (fault e) (path s) (files s)
              (current_idx s) (offset s) (search_mode s))
    as [[o areas]|ex] eqn:Ed.
  - cbv zeta.
    destruct (draw_files_areas _ _ _ _ _ _ Ed Hlo Ho) as [_ Ha].
    assert (Hs : selectable (set_offset o s)).
    { unfold selectable. simpl.
      destruct (files s) as [|f fl]; [now left|right].
      unfold len in *. simpl length in *. lia. }
    pose proof (@draw_preview_no_index_error (set_offset o s) (preview e)
                  Hs) as Hpv.
    destruct (draw_preview (files (set_offset o s))
                (current_idx (set_offset o s)) (preview e)) as [u|ex];
      [|intros E; injection E as ->; now contradiction Hpv].
    apply selectable_index in Hs.
    destruct (if nonempty (files (set_offset o s))
              then py_index (files (set_offset o s))
                     (current_idx (set_offset o s))
              else Some (Plain [])); [|now contradiction Hs].
    pose proof (draw_status_line_no_index_error (term_h e) (term_w e)
                  (search_mode (set_offset o s))
                  (search_query (set_offset o s)) (status_null e)) as Hst.
    destruct (draw_status_line (term_h e) (term_w e)
                (search_mode (set_offset o s))
                (search_query (set_offset o s)) (status_null e))
      as [u'|ex]; [|intros E; injection E as ->; now contradiction Hst].
    destruct (getch e) as [key|]; [|discriminate].
    match goal with
    | |- end_of_turn e ?a <> _ =>
        assert (Hturn : a <> Crash IndexError);
        [|destruct a as [?|?|ex|]; simpl; try discriminate;
          [destruct (_ && _); discriminate|exact Hturn]]
    end.
    destruct (key =? KEY_MOUSE).
    + apply on_mouse_no_index_error. intros y v Hv. apply Ha in Hv. lia.
    + destruct (search_mode (set_offset o s)).
      * apply on_search_key_no_crash.
      * apply on_key_no_index_error. exact Hlo.
  - unfold draw_files in Ed.
    pose proof (os_listdir_no_index_error (fs s) (path s)) as Hl.
    intros E. injection E as ->.
    destruct (fault e);
      try discriminate;
      (destruct (negb (search_mode s) && nonempty (files s)
                 && os_path_isdir (fs s) (path s));
       [destruct (os_listdir (fs s) (path s)) as [l|ex]
       |]; try discriminate;
       try (destruct (files s); discriminate);
       injection Ed as ->; now contradiction Hl).
Qed.

(** X4 ([main], the loop).  From a state with the selection in range, a
    run of turns on which none of the keys [n], [m] and F2 is read never
    ends in an [IndexError], and leaves the selection in range. *)
Theorem main_run_no_index_error (es : list env) :
  forall s,
    in_bounds s ->
    Forall no_create_or_rename es ->
    main_run s es <> Crash IndexError
    /\ (forall s', main_run s es = Next s' -> in_bounds s').
Proof.
  induction es as [|e es IH]; intros s Hb Hall.
  - split; [discriminate|]. intros s' H. injection H as <-. exact Hb.
  - inversion Hall as [|? ? He Hall']; subst.
    unfold main_run in *. simpl. fold main_step.
    pose proof (main_step_no_index_error e Hb) as Hc.
    destruct (main_step s e) as [s1| |ex|] eqn:E.
    + apply IH; [|exact Hall']. clear IH Hc.
      apply main_step_next in E
        as (o & areas & key & s0 & Ed & Eg & E & Hs').
      destruct (He key Eg) as (Hn & Hm & Hf).
      destruct Hb as [Hr Ho]. unfold in_range in Hr.
      destruct (draw_files_areas _ _ _ _ _ _ Ed (proj1 Hr) Ho)
        as [Ho' Ha].
      assert (Hb0 : in_bounds (set_offset o s)) by (split; assumption).
      assert (Hb1 : in_bounds s0).
      { destruct (key =? KEY_MOUSE).
        - eapply on_mouse_bounds; [exact Hb0|exact Ha|exact E].
        - destruct (search_mode s).
          + eapply on_search_key_bounds; [exact Hb0|exact E].
          + eapply on_key_bounds;
              [exact Hb0|exact Hn|exact Hm|exact Hf|exact E]. }
      destruct Hs' as [->| ->]; exact Hb1.
    + split; discriminate.
    + split; [exact Hc|discriminate].
    + split; discriminate.
Qed.

Lemma main_run_no_index_error_witness :
  main_run demo_state
    [press (key_of "j") []; press (key_of "d") []; press (key_of "k") []]
  <> Crash IndexError.
Proof.
  apply (@main_run_no_index_error
           [press (key_of "j") []; press (key_of "d") [];
            press (key_of "k") []] demo_state).
  - split; [split|]; vm_compute; discriminate.
  - repeat (apply Forall_cons;
            [intros key H; injection H as <-;
             repeat split; vm_compute; discriminate|]).
    apply Forall_nil.
Defined.

(** ** The keys outside the search mode *)

(** A turn outside the search mode on which the key [key] is read: the
    list is drawn, [on_key] runs on the state with the offset the drawing
    returned, and the click feedback may be cleared. *)
Lemma main_step_on_key (s : state) (e : env) (key : Z) (s' : state) :
  search_mode s = false ->
  getch e = Some key ->
  key <> KEY_MOUSE ->
  main_step s e = Next s' ->
  exists o s0,
    on_key (set_offset o s) key e = Next s0
    /\ (s' = s0 \/ s' = set_clicked_idx (-1) s0).
Proof.
  intros Hm Hk Hkey H. unfold main_step, main_turn in H.
  destruct (draw_files (fs s) (term_h e) (fault e) (path s) (files s)
              (current_idx s) (offset s) (search_mode s))
    as [[o areas]|]; [|discriminate].
  cbv zeta in H.
  destruct (draw_preview _ _ _); [|discriminate].
  destruct (if nonempty (files (set_offset o s))
            then py_index (files (set_offset o s))
                   (current_idx (set_offset o s))
            else Some (Plain [])); [|discriminate].
  destruct (draw_status_line _ _ _ _ _); [|discriminate].
  rewrite Hk in H. apply Z.eqb_neq in Hkey. rewrite Hkey in H.
  change (search_mode (set_offset o s)) with (search_mode s) in H.
  rewrite Hm in H.
  apply end_of_turn_next in H as (s0 & E & Hs'). eauto.
Qed.

Lemma on_key_space (s : state) (e : env) :
  on_key s (key_of " ") e
  = match full_path_at s (current_idx s) with
    | None => Next s
    | Some (Raise ex) => Crash ex
    | Some (Ok full_path) => open_context s full_path None e
    end.
Proof. reflexivity. Qed.

Lemma on_key_d (s : state) (e : env) :
  on_key s (key_of "d") e
  = match full_path_at s (current_idx s) with
    | None => Next s
    | Some (Raise ex) => Crash ex
    | Some (Ok full_path) =>
        if confirm_popup (confirm_key e) then
          match delete_file_or_dir (fs s) (cfg s) full_path with
          | (true, fs') => reload (set_fs fs' s) clamp
          | (false, fs') => Next (set_fs fs' s)
          end
        else Next s
    end.
Proof. reflexivity. Qed.

Lemma on_key_n (s : state) (e : env) :
  on_key s (key_of "n") e = on_create s e true.
Proof. reflexivity. Qed.

Lemma on_key_m (s : state) (e : env) :
  on_key s (key_of "m") e = on_create s e false.
Proof. reflexivity. Qed.

Lemma on_key_F2 (s : state) (e : env) :
  on_key s KEY_F2 e
  = match full_path_at s (current_idx s) with
    | None => Next s
    | Some (Raise ex) => Crash ex
    | Some (Ok full_path) =>
        let new_name := get_input_popup (typed e) in
        if truthy new_name then
          let new_path :=
            os_path_join (os_path_dirname full_path) new_name in
          match rename_file_or_dir (fs s) full_path new_path with
          | (true, fs') => reload (set_fs fs' s) (fun s => s)
          | (false, fs') => Next (set_fs fs' s)
          end
        else Next s
    end.
Proof. reflexivity. Qed.

(** X5 ([main], the key Space; [show_file_context]).  A turn on which the
    context menu is opened with Space never reloads the entry list: the
    list, its copy, the directory and the selection are as before,
    whatever the action chosen in the menu did to the file system. *)
Theorem context_menu_keeps_listing (s : state) (e : env) (s' : state) :
  search_mode s = false ->
  getch e = Some (key_of " ") ->
  main_step s e = Next s' ->
  files s' = files s /\ all_files s' = all_files s
  /\ path s' = path s /\ current_idx s' = current_idx s.
Proof.
  intros Hm Hk H.
  destruct (@main_step_on_key s e _ s' Hm Hk)
    as (o & s0 & E & Hs'); [discriminate|exact H|].
  rewrite on_key_space in E.
  assert (H0 : files s0 = files s /\ all_files s0 = all_files s
               /\ path s0 = path s /\ current_idx s0 = current_idx s).
  { destruct (full_path_at (set_offset o s) (current_idx (set_offset o s)))
      as [[p|ex]|]; try discriminate.
    - unfold open_context in E.
      destruct (show_file_context _ _ _ _ _ _ _ _ _); try discriminate.
      injection E as <-. repeat split.
    - injection E as <-. repeat split. }
  destruct Hs' as [-> | ->]; exact H0.
Qed.

(** The entry [docs] is deleted through the context menu, and stays in
    the entry list. *)
Lemma context_menu_keeps_listing_witness :
  files (demo_after [press_menu (key_of " ") [Getch (key_of "4") None]
                       (key_of "y")])
  = files demo_state
  /\ lookup (fs demo_state) (py "/home/u/docs") <> None
  /\ lookup (fs (demo_after [press_menu (key_of " ")
                               [Getch (key_of "4") None] (key_of "y")]))
            (py "/home/u/docs") = None.
Proof.
  split; [|split].
  - apply (@context_menu_keeps_listing demo_state
             (press_menu (key_of " ") [Getch (key_of "4") None]
                (key_of "y"))
             (demo_after [press_menu (key_of " ")
                            [Getch (key_of "4") None] (key_of "y")]));
      vm_compute; reflexivity.
  - vm_compute. discriminate.
  - vm_compute. reflexivity.
Defined.

(** X6 ([main], the key [d]; [confirm_popup]).  Without the key [y] at the
    confirmation, a turn on the key [d] deletes nothing and leaves the
    entry list and the selection as they are, whatever [CONFIG] holds. *)
Theorem delete_needs_confirmation (s : state) (e : env) (s' : state) :
  search_mode s = false ->
  getch e = Some (key_of "d") ->
  confirm_key e <> key_of "y" ->
  main_step s e = Next s' ->
  fs s' = fs s /\ files s' = files s /\ current_idx s' = current_idx s.
Proof.
  intros Hm Hk Hc H.
  destruct (@main_step_on_key s e _ s' Hm Hk)
    as (o & s0 & E & Hs'); [discriminate|exact H|].
  rewrite on_key_d in E. unfold confirm_popup in E.
  apply Z.eqb_neq in Hc. rewrite Hc in E.
  assert (H0 : s0 = set_offset o s).
  { destruct (full_path_at (set_offset o s) (current_idx (set_offset o s)))
      as [[p|ex]|]; try discriminate; now injection E as <-. }
  subst s0. destruct Hs' as [-> | ->]; repeat split.
Qed.

Lemma delete_needs_confirmation_witness :
  fs (demo_after [press_menu (key_of "d") [] (key_of "Y")]) = fs demo_state.
Proof.
  apply (@delete_needs_confirmation demo_state
           (press_menu (key_of "d") [] (key_of "Y"))
           (demo_after [press_menu (key_of "d") [] (key_of "Y")]));
    try (vm_compute; reflexivity).
  vm_compute. discriminate.
Defined.

Lemma lstrip_blank (t : str) :
  Forall (fun c => isspace c = true) t -> lstrip t = [].
Proof.
  induction 1 as [|c t Hc _ IH]; [reflexivity|].
  simpl. now rewrite Hc.
Qed.

Lemma strip_blank (t : str) :
  Forall (fun c => isspace c = true) t -> strip t = [].
Proof. intros H. unfold strip. now rewrite (lstrip_blank H). Qed.

(** X7 ([main], the keys [n], [m] and F2; [get_input_popup]).  When the
    name typed into the popup is empty or holds white space only, the turn
    creates and renames nothing: the file system, the entry list and the
    selection are as before. *)
Theorem blank_name_cancels (s : state) (e : env) (key : Z) (s' : state) :
  search_mode s = false ->
  getch e = Some key ->
  key = key_of "n" \/ key = key_of "m" \/ key = KEY_F2 ->
  Forall (fun c => isspace c = true) (typed e) ->
  main_step s e = Next s' ->
  fs s' = fs s /\ files s' = files s /\ current_idx s' = current_idx s.
Proof.
  intros Hm Hk Hkey Ht H.
  destruct (@main_step_on_key s e _ s' Hm Hk)
    as (o & s0 & E & Hs'); [|exact H|].
  { destruct Hkey as [->|[->| ->]]; discriminate. }
  assert (H0 : s0 = set_offset o s).
  { destruct Hkey as [->|[->| ->]].
    - rewrite on_key_n in E. unfold on_create, get_input_popup in E.
      rewrite (strip_blank Ht) in E. now injection E as <-.
    - rewrite on_key_m in E. unfold on_create, get_input_popup in E.
      rewrite (strip_blank Ht) in E. now injection E as <-.
    - rewrite on_key_F2 in E. unfold get_input_popup in E.
      rewrite (strip_blank Ht) in E.
      destruct (full_path_at (set_offset o s)
                  (current_idx (set_offset o s)))
        as [[p|ex]|]; try discriminate; now injection E as <-. }
  subst s0. destruct Hs' as [-> | ->]; repeat split.
Qed.

Lemma blank_name_cancels_witness :
  fs (demo_after [press (key_of "n") (py "   ")]) = fs demo_state.
Proof.
  apply (@blank_name_cancels demo_state (press (key_of "n") (py "   "))
           (key_of "n") (demo_after [press (key_of "n") (py "   ")])).
  - reflexivity.
  - reflexivity.
  - left; reflexivity.
  - repeat constructor.
  - vm_compute; reflexivity.
Defined.

(** ** The search mode: how it is left *)

Lemma on_search_key_mode
  (search : filesystem -> config -> str -> str -> list (str * str))
  (t : state) (key : Z) (t' : state) :
  on_search_key search t key = Next t' ->
  search_mode t' = search_mode t
  \/ (search_mode t' = false
      /\ (key = 27 \/ key = KEY_ENTER \/ key = 10 \/ key = 13)).
Proof.
  unfold on_search_key.
  destruct ((key =? KEY_BACKSPACE) || (key =? 127) || (key =? 8)
            || (key =? KEY_DC)).
  { destruct (truthy (search_query t)); cbv zeta;
      [destruct (truthy _)|]; intros H; injection H as <-; now left. }
  destruct (key =? 27) eqn:E27.
  { intros H; injection H as <-. right. split; [reflexivity|].
    left. now apply Z.eqb_eq. }
  destruct ((key =? KEY_ENTER) || (key =? 10) || (key =? 13)) eqn:Ee.
  { intros H; injection H as <-. right. split.
    - cbv zeta. destruct (nonempty _); reflexivity.
    - right. repeat (apply orb_true_iff in Ee as [Ee|Ee]);
        apply Z.eqb_eq in Ee; auto. }
  destruct ((32 <=? key) && (key <=? 126));
    intros H; injection H as <-; now left.
Qed.

(** During a stay in the search mode a turn on which a key is read
    raises [ValueError] at a line of the preview, or comes to the key. *)
Lemma main_step_searching_cases (snap : list entry) (t : state) (e : env)
  (key : Z) :
  search_inv snap t ->
  has_null (search_query t) = false ->
  getch e = Some key ->
  (main_step t e = Crash ValueError /\ preview e = PreviewNull)
  \/ exists o areas,
       main_step t e
       = end_of_turn e
           (if key =? KEY_MOUSE then on_mouse (set_offset o t) areas e
            else on_search_key search_from (set_offset o t) key).
Proof.
  intros Hinv Hq Hk. pose proof Hinv as (Hm & _ & _ & Hs).
  unfold main_step, main_turn. rewrite Hm.
  destruct (draw_files_searching (fs t) (term_h e) (fault e) (path t)
              (files t) (current_idx t) (offset t)) as (o & areas & ->).
  cbv zeta.
  change (search_mode (set_offset o t)) with (search_mode t).
  change (search_query (set_offset o t)) with (search_query t).
  rewrite Hm, (@draw_status_line_searching _ _ _ (status_null e) Hq), Hk.
  assert (Hs0 : selectable (set_offset o t)) by exact Hs.
  pose proof (@selectable_index (set_offset o t) Hs0) as Hi.
  unfold draw_preview.
  destruct (preview e) eqn:Ep.
  - destruct (negb (nonempty (files (set_offset o t)))
              || (current_idx (set_offset o t)
                  >=? len (files (set_offset o t)))) eqn:Eg.
    + destruct (if nonempty (files (set_offset o t))
                then py_index (files (set_offset o t))
                       (current_idx (set_offset o t))
                else Some (Plain [])); [|contradiction].
      right. now exists o, areas.
    + apply orb_false_iff in Eg as [Eg _]. apply negb_false_iff in Eg.
      rewrite Eg in *.
      destruct (py_index (files (set_offset o t))
                  (current_idx (set_offset o t))); [|contradiction].
      right. now exists o, areas.
  - destruct (if nonempty (files (set_offset o t))
              then py_index (files (set_offset o t))
                     (current_idx (set_offset o t))
              else Some (Plain [])); [|contradiction].
    right. now exists o, areas.
  - destruct (negb (nonempty (files (set_offset o t)))
              || (current_idx (set_offset o t)
                  >=? len (files (set_offset o t)))) eqn:Eg.
    + destruct (if nonempty (files (set_offset o t))
                then py_index (files (set_offset o t))
                       (current_idx (set_offset o t))
                else Some (Plain [])); [|contradiction].
      right. now exists o, areas.
    + apply orb_false_iff in Eg as [Eg _]. apply negb_false_iff in Eg.
      rewrite Eg in *.
      destruct (py_index (files (set_offset o t))
                  (current_idx (set_offset o t))); [|contradiction].
      left. split; reflexivity.
Qed.

(** X8 ([main], the search mode).  During a stay in the search mode a
    turn on which a key or a mouse report is read goes on or ends the
    program with [ValueError], and nothing else: it goes on when no line
    of the preview has a null character, and [ValueError] is raised only
    when one has; no other exception is raised, the loop is not left and
    no menu is opened.  The search mode is left by Escape and by Enter
    only. *)
Theorem search_turn_goes_on (snap : list entry) (t : state) (e : env)
  (key : Z) :
  searching snap t ->
  getch e = Some key ->
  (plain_preview e -> exists t', main_step t e = Next t')
  /\ ((main_step t e = Crash ValueError /\ preview e = PreviewNull)
      \/ exists t', main_step t e = Next t')
  /\ (forall t', main_step t e = Next t' ->
        search_mode t' = true
        \/ key = 27 \/ key = KEY_ENTER \/ key = 10 \/ key = 13).
Proof.
  intros Hs Hk. pose proof (searching_inv Hs) as Hinv.
  pose proof (searching_query Hs) as Hquery.
  assert (Hgo : forall o areas,
             exists t',
               end_of_turn e
                 (if key =? KEY_MOUSE
                  then on_mouse (set_offset o t) areas e
                  else on_search_key search_from (set_offset o t) key)
               = Next t').
  { intros o areas.
    assert (Hinv0 : search_inv snap (set_offset o t)) by exact Hinv.
    destruct (search_turn_rest areas e key Hinv0) as (t' & E & _).
    now exists t'. }
  split; [|split].
  - intros Hd.
    destruct (main_step_searching Hinv Hquery Hk Hd) as (t' & E & _).
    now exists t'.
  - destruct (main_step_searching_cases e Hinv Hquery Hk)
      as [Hc|(o & areas & E)]; [now left|right].
    destruct (Hgo o areas) as (t' & E'). exists t'. now rewrite E.
  - intros t' E.
    destruct (main_step_searching_cases e Hinv Hquery Hk)
      as [[Hc _]|(o & areas & E')]; [congruence|].
    rewrite E' in E. clear E'.
    destruct Hinv as (Hm & _).
    apply end_of_turn_next in E as (t1 & E & Ht').
    assert (H1 : search_mode t1 = true
                 \/ key = 27 \/ key = KEY_ENTER \/ key = 10 \/ key = 13).
    { destruct (key =? KEY_MOUSE).
      - left. unfold on_mouse in E.
        destruct (getmouse e) as [[[x y] b]|];
          [|injection E as <-; exact Hm].
        cbv zeta in E.
        change (search_mode (set_offset o t)) with (search_mode t) in E.
        rewrite Hm in E. simpl negb in E. rewrite !andb_false_r in E.
        destruct (nonzero (Z.land b BUTTON4_PRESSED));
          [injection E as <-; exact Hm|].
        destruct (nonzero (Z.land b BUTTON5_PRESSED));
          [|injection E as <-; exact Hm].
        destruct (nonempty (files (set_offset o t)));
          injection E as <-; exact Hm.
      - apply on_search_key_mode in E as [E|[_ E]]; [left|now right].
        rewrite E. exact Hm. }
    destruct Ht' as [-> | ->]; exact H1.
Qed.

Lemma search_turn_goes_on_witness :
  plain_preview (press (key_of "n") [])
  /\ exists t',
       main_step (demo_after [press (key_of "/") []])
                 (press (key_of "n") [])
       = Next t'.
Proof.
  assert (Hd : plain_preview (press (key_of "n") [])) by discriminate.
  split; [exact Hd|].
  apply (proj1 (@search_turn_goes_on (files demo_state)
                  (demo_after [press (key_of "/") []])
                  (press (key_of "n") []) (key_of "n")
                  (@searching_start (files demo_state) demo_state
                     (press (key_of "/") [])
                     (demo_after [press (key_of "/") []])
                     eq_refl eq_refl eq_refl eq_refl)
                  eq_refl) Hd).
Defined.

(** ** Into a directory and back *)

Lemma from_sep_app (x y : str) :
  ~ In sep x -> from_sep (x ++ y) = from_sep y.
Proof.
  induction x as [|c x IH]; intros H; simpl; [reflexivity|].
  destruct (Ascii.eqb c sep) eqn:E.
  - apply Ascii.eqb_eq in E. subst. exfalso. apply H. now left.
  - apply IH. intros Hx. apply H. now right.
Qed.

Lemma from_sep_head (y : str) :
  startswith y [sep] = true -> from_sep y = y.
Proof.
  rewrite startswith_sep. destruct y as [|c y]; [discriminate|].
  intros H. simpl. now rewrite Ascii.eqb_sym, H.
Qed.

Lemma all_sep_rev (a : str) :
  forallb (Ascii.eqb sep) (rev a) = forallb (Ascii.eqb sep) a.
Proof.
  induction a as [|c a IH]; [reflexivity|].
  simpl. rewrite forallb_app, IH. simpl.
  now rewrite andb_true_r, andb_comm.
Qed.

(** The directory of a name joined to a path is the path, when the path
    does not end in a separator or is made of separators only. *)
Lemma dirname_join (a e : str) :
  name_ok e ->
  endswith a [sep] = false \/ forallb (Ascii.eqb sep) a = true ->
  os_path_dirname (os_path_join a e) = a.
Proof.
  intros He Ha.
  assert (Hr : ~ In sep (rev e)).
  { intros H. apply in_rev in H. now apply He. }
  rewrite join_relative by now apply name_ok_head.
  unfold os_path_dirname.
  rewrite !rev_app_distr, <- app_assoc, from_sep_app by exact Hr.
  destruct a as [|c0 a0] eqn:Ea; [reflexivity|]. rewrite <- Ea in *.
  assert (Hne : a <> []) by (rewrite Ea; discriminate).
  unfold glue. replace (truthy a) with true by now rewrite Ea.
  simpl negb. simpl orb.
  destruct (endswith a [sep]) eqn:Ee.
  - destruct Ha as [Ha|Ha]; [discriminate|].
    cbn [rev app]. unfold endswith in Ee.
    rewrite (from_sep_head _ Ee), rev_involutive.
    replace (truthy a) with true by now rewrite Ea.
    now rewrite Ha.
  - cbn [rev app from_sep]. rewrite Ascii.eqb_refl.
    rewrite (rev_involutive (sep :: rev a)).
    change (rev (sep :: rev a)) with (rev (rev a) ++ [sep]).
    rewrite (rev_involutive a).
    unfold endswith in Ee. rewrite startswith_sep in Ee.
    destruct (rev a) as [|c r] eqn:Er.
    { exfalso. apply Hne. now rewrite <- (rev_involutive a), Er. }
    assert (Hall : forallb (Ascii.eqb sep) (a ++ [sep]) = false).
    { rewrite forallb_app, <- all_sep_rev, Er. cbn [forallb]. now rewrite Ee. }
    rewrite Hall.
    replace (truthy (a ++ [sep])) with true by now rewrite Ea.
    simpl andb. cbv iota.
    cbn [lstrip_sep]. rewrite Ascii.eqb_refl.
    rewrite Ascii.eqb_sym, Ee.
    now rewrite <- Er, rev_involutive.
Qed.

Lemma py_index_guard (A : Type) (l : list A) (i : Z) (x : A) :
  py_index l i = Some x -> nonempty l && (i <? len l) = true.
Proof.
  unfold py_index. fold (len l). intros H.
  assert (Hl : nonempty l = true).
  { destruct l; [|reflexivity]. unfold len in H. simpl in H.
    destruct ((0 <=? i) && (i <? 0)) eqn:E1;
      [destruct (Z.to_nat i); discriminate|].
    destruct ((- 0 <=? i) && (i <? 0)) eqn:E2; [|discriminate].
    destruct (Z.to_nat (0 + i)); discriminate. }
  rewrite Hl. simpl.
  destruct ((0 <=? i) && (i <? len l)) eqn:E1.
  - apply andb_true_iff in E1 as [_ E1]. exact E1.
  - destruct ((- len l <=? i) && (i <? 0)) eqn:E2; [|discriminate].
    apply andb_true_iff in E2 as [_ E2]. apply Z.ltb_lt in E2.
    apply Z.ltb_lt. pose proof (len_nonneg l). lia.
Qed.

Lemma full_path_at_plain (s : state) (i : Z) (name : str) :
  py_index (files s) i = Some (Plain name) ->
  full_path_at s i = Some (Ok (os_path_join (path s) name)).
Proof.
  intros H. unfold full_path_at.
  now rewrite (py_index_guard _ _ H), H.
Qed.

Lemma on_key_enter (s : state) (key : Z) (e : env) :
  key = KEY_ENTER \/ key = 10 \/ key = 13 ->
  on_key s key e
  = match full_path_at s (current_idx s) with
    | None => Next s
    | Some (Raise ex) => Crash ex
    | Some (Ok full_path) =>
        if os_path_isdir (fs s) full_path then enter_directory s full_path
        else Next s
    end.
Proof. intros [->|[->| ->]]; reflexivity. Qed.

Lemma on_key_b (s : state) (e : env) :
  on_key s (key_of "b") e
  = (let new_path :=
       if truthy (os_path_dirname (path s)) then os_path_dirname (path s)
       else py "/" in
     if os_path_isdir (fs s) new_path && negb (str_eqb new_path (path s))
     then enter_directory s new_path
     else Next s).
Proof. reflexivity. Qed.

Lemma enter_directory_next (s : state) (p : str) (s' : state) :
  enter_directory s p = Next s' ->
  exists l,
    list_dir (os_listdir (fs s)) (os_path_isdir (fs s)) (cfg s) p = Ok l
    /\ s' = set_offset 0 (set_current_idx 0
              (set_all_files (map Plain l)
                 (set_files (map Plain l) (set_path p s)))).
Proof.
  unfold enter_directory, reload, listing. simpl.
  destruct (list_dir _ _ _ p) as [l|ex]; [|discriminate].
  intros H. injection H as <-. eauto.
Qed.

Lemma join_longer (a e : str) : name_ok e -> os_path_join a e <> a.
Proof.
  intros He. rewrite join_relative by now apply name_ok_head.
  intros H.
  assert (H' : a ++ glue a ++ e = a ++ [])
    by (rewrite app_nil_r; exact H).
  apply app_inv_head in H'. apply app_eq_nil in H' as [_ H'].
  exact (proj1 He H').
Qed.

(** X9 ([main], the keys Enter and [b]).  Entering a subdirectory of the
    current directory with Enter and pressing [b] leads back to the
    directory left: the path is the one before, the selection is 0 and the
    entry list is the listing of that directory. *)
Theorem enter_then_back (s : state) (e1 e2 : env) (key : Z) (name : str)
  (s2 : state) :
  search_mode s = false ->
  getch e1 = Some key ->
  key = KEY_ENTER \/ key = 10 \/ key = 13 ->
  getch e2 = Some (key_of "b") ->
  py_index (files s) (current_idx s) = Some (Plain name) ->
  name_ok name ->
  os_path_isdir (fs s) (os_path_join (path s) name) = true ->
  path s <> [] ->
  endswith (path s) [sep] = false
  \/ forallb (Ascii.eqb sep) (path s) = true ->
  os_path_isdir (fs s) (path s) = true ->
  main_run s [e1; e2] = Next s2 ->
  path s2 = path s /\ current_idx s2 = 0
  /\ listing s (path s) = Ok (files s2).
Proof.
  intros Hm Hk1 Hkey Hk2 Hi Hn Hd Hp Hsep Hpd H.
  unfold main_run in H. simpl in H. fold main_step in H.
  destruct (main_step s e1) as [s1| | |] eqn:E1; try discriminate.
  destruct (main_step s1 e2) as [s2'| | |] eqn:E2; try discriminate.
  injection H as ->.
  (* the first turn *)
  destruct (@main_step_on_key s e1 key s1 Hm Hk1) as (o & t & E & Ht);
    [destruct Hkey as [->|[->| ->]]; discriminate|exact E1|].
  rewrite (on_key_enter _ _ Hkey) in E.
  change (current_idx (set_offset o s)) with (current_idx s) in E.
  rewrite (@full_path_at_plain (set_offset o s) (current_idx s) name Hi)
    in E.
  change (fs (set_offset o s)) with (fs s) in E.
  change (path (set_offset o s)) with (path s) in E.
  rewrite Hd in E.
  apply enter_directory_next in E as (l1 & _ & Et).
  assert (H1 : path s1 = os_path_join (path s) name /\ fs s1 = fs s
               /\ cfg s1 = cfg s /\ search_mode s1 = false).
  { destruct Ht as [-> | ->]; subst t; repeat split; exact Hm. }
  destruct H1 as (Hp1 & Hf1 & Hc1 & Hm1). clear Ht Et E1.
  (* the second turn *)
  destruct (@main_step_on_key s1 e2 _ s2 Hm1 Hk2) as (o2 & t2 & E & Ht);
    [discriminate|exact E2|].
  rewrite on_key_b in E. cbv zeta in E.
  change (path (set_offset o2 s1)) with (path s1) in E.
  change (fs (set_offset o2 s1)) with (fs s1) in E.
  rewrite Hp1, Hf1, (dirname_join _ Hn Hsep) in E.
  replace (truthy (path s)) with true in E
    by (destruct (path s); [contradiction|reflexivity]).
  rewrite Hpd in E.
  assert (Hne : str_eqb (path s) (os_path_join (path s) name) = false).
  { destruct (str_eqb (path s) (os_path_join (path s) name)) eqn:Eq;
      [|reflexivity].
    apply str_eqb_eq in Eq. symmetry in Eq.
    now apply join_longer in Eq. }
  rewrite Hne in E. simpl in E.
  apply enter_directory_next in E as (l2 & El & Et).
  change (fs (set_offset o2 s1)) with (fs s1) in El.
  change (cfg (set_offset o2 s1)) with (cfg s1) in El.
  rewrite Hf1, Hc1 in El.
  unfold listing. rewrite El.
  destruct Ht as [-> | ->]; subst t2; repeat split.
Qed.

Lemma enter_then_back_witness :
  path (demo_after [press KEY_ENTER []; press (key_of "b") []])
  = py "/home/u".
Proof.
  apply (@enter_then_back demo_state (press KEY_ENTER [])
           (press (key_of "b") []) KEY_ENTER (py "docs")
           (demo_after [press KEY_ENTER []; press (key_of "b") []]));
    try (vm_compute; reflexivity).
  - left; reflexivity.
  - split; [discriminate|]. vm_compute. intuition discriminate.
  - discriminate.
  - left. vm_compute; reflexivity.
Defined.

(** ** Creating and deleting, then listing *)

Lemma str_eqb_sym (a b : str) : str_eqb a b = str_eqb b a.
Proof.
  destruct (str_eqb a b) eqn:E1, (str_eqb b a) eqn:E2; try reflexivity.
  - apply str_eqb_eq in E1. subst. now rewrite str_eqb_refl in E2.
  - apply str_eqb_eq in E2. subst. now rewrite str_eqb_refl in E1.
Qed.

Lemma assoc_set_child_other (k k' : str) (v : node)
  (ch : list (str * node)) :
  str_eqb k' k = false -> assoc k' (set_child k v ch) = assoc k' ch.
Proof.
  intros E. induction ch as [|[k0 v0] ch IH]; cbn [set_child assoc].
  - now rewrite E.
  - destruct (str_eqb k k0) eqn:E0; cbn [assoc].
    + apply str_eqb_eq in E0. subst k0. now rewrite E.
    + destruct (str_eqb k' k0); [reflexivity|exact IH].
Qed.

Lemma assoc_remove_child_other (k k' : str) (ch : list (str * node)) :
  str_eqb k' k = false -> assoc k' (remove_child k ch) = assoc k' ch.
Proof.
  intros E. induction ch as [|[k0 v0] ch IH]; cbn [remove_child assoc];
    [reflexivity|].
  destruct (str_eqb k k0) eqn:E0; cbn [assoc].
  - apply str_eqb_eq in E0. subst k0. now rewrite E.
  - destruct (str_eqb k' k0); [reflexivity|exact IH].
Qed.

Lemma set_child_new (k : str) (v : node) (ch : list (str * node)) :
  assoc k ch = None -> set_child k v ch = ch ++ [(k, v)].
Proof.
  induction ch as [|[k0 v0] ch IH]; cbn [set_child assoc app];
    [reflexivity|].
  destruct (str_eqb k k0); [discriminate|].
  intros H. now rewrite IH.
Qed.

Lemma remove_child_names (k x : str) (ch : list (str * node)) :
  In x (map fst (remove_child k ch)) <-> In x (map fst ch) /\ x <> k.
Proof.
  induction ch as [|[k0 v0] ch IH]; cbn [remove_child map fst In];
    [tauto|].
  destruct (str_eqb k k0) eqn:E.
  - apply str_eqb_eq in E. subst k0. rewrite IH.
    split; [tauto|]. intros [[H|H] Hx]; [congruence|tauto].
  - cbn [map fst In]. rewrite IH.
    assert (Hk : k0 <> k).
    { intros ->. now rewrite str_eqb_refl in E. }
    split; [intros [H|H]; [subst; tauto|tauto]|tauto].
Qed.

Lemma assoc_names (k : str) (ch : list (str * node)) (m : node) :
  assoc k ch = Some m -> In k (map fst ch).
Proof.
  intros H. apply assoc_in in H. now apply (in_map fst) in H.
Qed.

Lemma get_snoc (c : list str) :
  forall root x,
    get root (c ++ [x])
    = match get root c with
      | Some (Dir _ ch) => assoc x ch
      | _ => None
      end.
Proof.
  induction c as [|k c IH]; intros root x; cbn [app get].
  - destruct root as [|r ch]; [reflexivity|].
    destruct (assoc x ch); reflexivity.
  - destruct root as [|r ch]; [reflexivity|].
    destruct (assoc k ch); [apply IH|reflexivity].
Qed.

Lemma get_app (c t : list str) :
  forall root,
    get root (c ++ t)
    = match get root c with
      | Some m => get m t
      | None => None
      end.
Proof.
  induction c as [|k c IH]; intros root; cbn [app get]; [reflexivity|].
  destruct root as [|r ch]; [reflexivity|].
  destruct (assoc k ch); [apply IH|reflexivity].
Qed.

Lemma path_prefix_app (p st : list str) :
  path_prefix p st = true -> exists t, st = p ++ t.
Proof.
  revert st. induction p as [|k p IH]; intros st H; [now exists st|].
  destruct st as [|k2 st]; [discriminate|]. cbn [path_prefix] in H.
  apply andb_true_iff in H as [Hk H]. apply str_eqb_eq in Hk. subst k2.
  destruct (IH _ H) as [t ->]. now exists t.
Qed.

(** Below what is no directory there is no directory. *)
Lemma below_no_dir (root : node) (p st : list str) :
  path_prefix p st = true ->
  is_dir (get root p) = false -> is_dir (get root st) = false.
Proof.
  intros H Hd. apply path_prefix_app in H as [t ->].
  rewrite get_app. destruct (get root p) as [[|r ch]|]; try reflexivity.
  - destruct t; reflexivity.
  - discriminate.
Qed.

(** Replacing or unlinking the node at [p] changes no directory into
    something else, and nothing into a directory, off the paths through
    [p]. *)
Lemma is_dir_put (p : list str) :
  forall root st v,
    path_prefix p st = false ->
    is_dir (get (put root p v) st) = is_dir (get root st).
Proof.
  induction p as [|k p IH]; intros root st v H; [discriminate|].
  destruct root as [|r ch]; [reflexivity|].
  destruct st as [|k2 st].
  - cbn [put]. destruct p; [destruct v; reflexivity|].
    destruct (assoc k ch); reflexivity.
  - cbn [path_prefix] in H. destruct (str_eqb k k2) eqn:Ek.
    + apply str_eqb_eq in Ek. subst k2. cbn [andb] in H.
      destruct p as [|k' p']; [discriminate|].
      cbn [put]. destruct (assoc k ch) as [m|] eqn:Ea; [|reflexivity].
      cbn [get]. rewrite assoc_set_child, Ea. now apply IH.
    + assert (Ek' : str_eqb k2 k = false) by now rewrite str_eqb_sym.
      cbn [put]. destruct p as [|k' p'].
      * destruct v; cbn [get];
          [rewrite assoc_set_child_other|rewrite assoc_remove_child_other];
          auto.
      * destruct (assoc k ch) as [m|] eqn:Ea; [|reflexivity].
        cbn [get]. now rewrite assoc_set_child_other.
Qed.

(** A path that resolves through directories off [p] resolves alike once
    the node at [p] is replaced or unlinked. *)
Lemma walk_put (root : node) (p : list str) (v : option node)
  (comps : list str) :
  forall st c,
    (forall st', is_dir (get root st') = true -> path_prefix p st' = false) ->
    walk root st comps = Some c -> walk (put root p v) st comps = Some c.
Proof.
  induction comps as [|k comps IH]; intros st c Hp H; [exact H|].
  cbn [walk] in *. destruct (is_dir (get root st)) eqn:Ed; [|discriminate].
  rewrite (@is_dir_put p root st v (Hp _ Ed)), Ed.
  destruct (str_eqb k [] || str_eqb k (py ".")); [now apply IH|].
  destruct (str_eqb k (py "..")); now apply IH.
Qed.

Lemma path_prefix_length (a b : list str) :
  path_prefix a b = true -> (length a <= length b)%nat.
Proof.
  intros H. apply path_prefix_app in H as [t ->]. rewrite length_app. lia.
Qed.

(** Without a component [..], resolving only goes down. *)
Lemma walk_length (root : node) (comps : list str) :
  forall st c,
    ~ In (py "..") comps ->
    walk root st comps = Some c -> (length st <= length c)%nat.
Proof.
  induction comps as [|k comps IH]; intros st c Hn H.
  - injection H as <-. lia.
  - cbn [walk] in H. destruct (is_dir (get root st)); [|discriminate].
    assert (Hn' : ~ In (py "..") comps) by (intros Hx; apply Hn; now right).
    destruct (str_eqb k [] || str_eqb k (py ".")); [now apply IH|].
    destruct (str_eqb k (py "..")) eqn:E.
    + apply str_eqb_eq in E. exfalso. apply Hn. now left.
    + apply IH in H; [|exact Hn']. rewrite length_app in H. simpl in H. lia.
Qed.

Lemma walk_put_below (root : node) (p : list str) (v : option node)
  (comps : list str) :
  forall st c,
    ~ In (py "..") comps ->
    (length c < length p)%nat ->
    walk root st comps = Some c -> walk (put root p v) st comps = Some c.
Proof.
  induction comps as [|k comps IH]; intros st c Hn Hl H; [exact H|].
  pose proof (@walk_length root (k :: comps) st c Hn H) as Hst.
  cbn [walk] in *. destruct (is_dir (get root st)) eqn:Ed; [|discriminate].
  assert (Hp : path_prefix p st = false).
  { destruct (path_prefix p st) eqn:E; [|reflexivity].
    apply path_prefix_length in E. lia. }
  rewrite (@is_dir_put p root st v Hp), Ed.
  assert (Hn' : ~ In (py "..") comps) by (intros Hx; apply Hn; now right).
  destruct (str_eqb k [] || str_eqb k (py ".")); [now apply IH|].
  destruct (str_eqb k (py "..")); now apply IH.
Qed.

Lemma get_put_parent (c : list str) :
  forall root r ch x v,
    get root c = Some (Dir r ch) ->
    get (put root (c ++ [x]) v) c
    = Some (Dir r (match v with
                   | Some m => set_child x m ch
                   | None => remove_child x ch
                   end)).
Proof.
  induction c as [|k c IH]; intros root r ch x v H.
  - cbn [get] in H. injection H as ->. cbn [app put get].
    destruct v; reflexivity.
  - cbn [get] in H. destruct root as [|r0 ch0]; [discriminate|].
    destruct (assoc k ch0) as [m|] eqn:Ea; [|discriminate].
    change ((k :: c) ++ [x]) with (k :: (c ++ [x])). cbn [put].
    destruct (c ++ [x]) as [|y t] eqn:Ec;
      [symmetry in Ec; now apply app_cons_not_nil in Ec|].
    rewrite <- Ec, Ea. cbn [get]. rewrite assoc_set_child. now apply IH.
Qed.

Lemma walk_name (root : node) (st : list str) (name : str) :
  name <> [] -> name <> py "." -> name <> py ".." ->
  is_dir (get root st) = true ->
  walk root st [name] = Some (st ++ [name]).
Proof.
  intros H0 H1 H2 Hd. cbn [walk]. rewrite Hd.
  assert (E0 : str_eqb name [] = false).
  { destruct (str_eqb name []) eqn:E; [|reflexivity].
    apply str_eqb_eq in E. contradiction. }
  assert (E1 : str_eqb name (py ".") = false).
  { destruct (str_eqb name (py ".")) eqn:E; [|reflexivity].
    apply str_eqb_eq in E. contradiction. }
  assert (E2 : str_eqb name (py "..") = false).
  { destruct (str_eqb name (py "..")) eqn:E; [|reflexivity].
    apply str_eqb_eq in E. contradiction. }
  now rewrite E0, E1, E2.
Qed.

Lemma ends_with_sep (a : str) :
  endswith a [sep] = true -> exists a', a = a' ++ [sep].
Proof.
  unfold endswith. rewrite startswith_sep.
  destruct (rev a) as [|c r] eqn:E; [discriminate|].
  intros H. apply Ascii.eqb_eq in H. subst c.
  exists (rev r). now rewrite <- (rev_involutive a), E.
Qed.

(** The components of [os.path.join(dir, name)]: those of [dir], then
    [name]. *)
Lemma resolve_join (fs : filesystem) (dir name : str) (c : list str) :
  resolve fs dir = Some c ->
  is_dir (get (fs_root fs) c) = true ->
  name_ok name -> name <> py "." -> name <> py ".." ->
  resolve fs (os_path_join dir name) = Some (c ++ [name]).
Proof.
  intros Hr Hd Hn H1 H2.
  assert (Hne : dir <> []) by (intros ->; discriminate).
  assert (Hres : forall p, p <> [] ->
                   resolve fs p
                   = walk (fs_root fs)
                       (if startswith p [sep] then [] else fs_cwd fs)
                       (split_sep p)).
  { intros [|q p] Hp; [contradiction|reflexivity]. }
  rewrite join_relative by now apply name_ok_head.
  rewrite Hres in Hr by exact Hne.
  rewrite Hres
    by (intros E; apply app_eq_nil in E as [E _]; contradiction).
  rewrite (startswith_app _ Hne).
  set (st0 := if startswith dir [sep] then [] else fs_cwd fs) in *.
  clearbody st0.
  assert (Hname : walk (fs_root fs) c [name] = Some (c ++ [name])).
  { apply walk_name; auto. apply Hn. }
  unfold glue.
  replace (truthy dir) with true
    by (destruct dir; [contradiction|reflexivity]).
  cbn [negb orb].
  destruct (endswith dir [sep]) eqn:Ee.
  - apply ends_with_sep in Ee as [d' Ed]. subst dir.
    cbn [app]. rewrite <- app_assoc. cbn [app].
    rewrite split_sep_app, walk_app in Hr.
    rewrite split_sep_app, walk_app.
    rewrite (@split_sep_name name (proj2 Hn)).
    destruct (walk (fs_root fs) st0 (split_sep d')) as [c'|];
      [|discriminate].
    cbn [split_sep walk] in Hr.
    destruct (is_dir (get (fs_root fs) c')); [|discriminate].
    cbn [str_eqb orb] in Hr. injection Hr as ->. exact Hname.
  - cbn [app]. rewrite split_sep_app, walk_app, Hr.
    rewrite (@split_sep_name name (proj2 Hn)). exact Hname.
Qed.

Lemma os_listdir_ok (fs : filesystem) (dir : str) (entries : list str) :
  os_listdir fs dir = Ok entries ->
  exists c ch,
    resolve fs dir = Some c
    /\ get (fs_root fs) c = Some (Dir true ch)
    /\ entries = map fst ch.
Proof.
  unfold os_listdir, lookup.
  destruct (resolve fs dir) as [c|]; [|discriminate].
  destruct (get (fs_root fs) c) as [[|[|] ch]|] eqn:Eg; try discriminate.
  intros H. injection H as <-. eauto.
Qed.

Lemma os_listdir_at (fs : filesystem) (dir : str) (c : list str)
  (ch : list (str * node)) :
  resolve fs dir = Some c ->
  get (fs_root fs) c = Some (Dir true ch) ->
  os_listdir fs dir = Ok (map fst ch).
Proof. intros Hr Hg. unfold os_listdir, lookup. now rewrite Hr, Hg. Qed.

(** What [list_dir] returns of a directory that can be listed: the
    entries shown, in some order. *)
Lemma list_dir_entries (listdir : str -> result (list str))
  (isdir : str -> bool) (cfg : config) (p : str) (entries : list str) :
  listdir p = Ok entries ->
  exists l,
    list_dir listdir isdir cfg p = Ok l
    /\ (forall x, In x l
                  <-> In x entries
                      /\ (show_hidden cfg = true \/ hidden x = false)).
Proof.
  intros H. unfold list_dir. rewrite H.
  set (shown_entries := if negb (show_hidden cfg)
                        then filter (fun e => negb (hidden e)) entries
                        else entries).
  assert (Hs : forall x, In x shown_entries
                         <-> In x entries
                             /\ (show_hidden cfg = true \/ hidden x = false)).
  { intros x. unfold shown_entries. destruct (show_hidden cfg); cbn [negb].
    - tauto.
    - rewrite filter_In, negb_true_iff. intuition discriminate. }
  destruct (sort_dirs_first cfg).
  - eexists. split; [reflexivity|]. intros x. rewrite <- Hs.
    split; intros Hx.
    + eapply Permutation_in;
        [apply (filter_split_perm (fun e => isdir (os_path_join p e)))|].
      apply in_app_or in Hx. apply in_or_app.
      destruct Hx as [Hx|Hx]; [left|right];
        (eapply Permutation_in; [apply sorted_perm|exact Hx]).
    + eapply Permutation_in in Hx;
        [|apply Permutation_sym;
          apply (filter_split_perm (fun e => isdir (os_path_join p e)))].
      apply in_app_or in Hx. apply in_or_app.
      destruct Hx as [Hx|Hx]; [left|right];
        (eapply Permutation_in;
         [apply Permutation_sym; apply sorted_perm|exact Hx]).
  - eexists. split; [reflexivity|]. intros x. rewrite <- Hs.
    split; intros Hx.
    + eapply Permutation_in; [apply sorted_perm|exact Hx].
    + eapply Permutation_in;
        [apply Permutation_sym; apply sorted_perm|exact Hx].
Qed.

Lemma resolve_with_root (fs : filesystem) (root' : node) (p : str) :
  p <> [] ->
  resolve (with_root fs root') p
  = walk root' (if startswith p [sep] then [] else fs_cwd fs) (split_sep p).
Proof. destruct p; [contradiction|reflexivity]. Qed.

Lemma resolve_walk (fs : filesystem) (p : str) (c : list str) :
  resolve fs p = Some c ->
  p <> []
  /\ walk (fs_root fs) (if startswith p [sep] then [] else fs_cwd fs)
          (split_sep p) = Some c.
Proof. destruct p; [discriminate|]. intros H. split; [discriminate|exact H]. Qed.

(** A new entry of a directory is listed last, and is found under its
    path. *)
Lemma put_new_entry (fs : filesystem) (dir name : str) (c : list str)
  (ch : list (str * node)) (v : node) :
  resolve fs dir = Some c ->
  get (fs_root fs) c = Some (Dir true ch) ->
  assoc name ch = None ->
  name_ok name -> name <> py "." -> name <> py ".." ->
  os_listdir (with_root fs (put (fs_root fs) (c ++ [name]) (Some v))) dir
  = Ok (map fst ch ++ [name])
  /\ lookup (with_root fs (put (fs_root fs) (c ++ [name]) (Some v)))
            (os_path_join dir name) = Some v.
Proof.
  intros Hr Hg Ha Hn H1 H2.
  set (root' := put (fs_root fs) (c ++ [name]) (Some v)).
  destruct (resolve_walk _ _ Hr) as [Hne Hw].
  assert (Hr' : resolve (with_root fs root') dir = Some c).
  { rewrite resolve_with_root by exact Hne. apply walk_put; [|exact Hw].
    intros st' Hd. destruct (path_prefix (c ++ [name]) st') eqn:E;
      [|reflexivity].
    apply (below_no_dir (fs_root fs)) in E.
    - congruence.
    - now rewrite get_snoc, Hg, Ha. }
  assert (Hg' : get root' c = Some (Dir true (set_child name v ch))).
  { unfold root'.
    now rewrite (get_put_parent c (fs_root fs) name (Some v) Hg). }
  split.
  - rewrite (os_listdir_at _ _ Hr' Hg'), (set_child_new name v ch Ha).
    now rewrite map_app.
  - unfold lookup. rewrite (@resolve_join _ dir name c Hr'); auto.
    + cbn [with_root fs_root]. now rewrite get_snoc, Hg', assoc_set_child.
    + cbn [with_root fs_root]. now rewrite Hg'.
Qed.

(** Where an entry was unlinked, the directory resolves as before and
    holds the other entries. *)
Lemma put_none_dir (fs : filesystem) (dir name : str) (c : list str)
  (ch : list (str * node)) :
  resolve fs dir = Some c ->
  get (fs_root fs) c = Some (Dir true ch) ->
  is_dir (get (fs_root fs) (c ++ [name])) = false
  \/ ~ In (py "..") (split_sep dir) ->
  resolve (with_root fs (put (fs_root fs) (c ++ [name]) None)) dir = Some c
  /\ get (put (fs_root fs) (c ++ [name]) None) c
     = Some (Dir true (remove_child name ch)).
Proof.
  intros Hr Hg Hk.
  destruct (resolve_walk _ _ Hr) as [Hne Hw]. split.
  - rewrite resolve_with_root by exact Hne. destruct Hk as [Hk|Hk].
    + apply walk_put; [|exact Hw].
      intros st' Hd. destruct (path_prefix (c ++ [name]) st') eqn:E;
        [|reflexivity].
      apply (below_no_dir (fs_root fs)) in E; congruence.
    + apply walk_put_below; [exact Hk| |exact Hw].
      rewrite length_app. simpl. lia.
  - now rewrite (get_put_parent c (fs_root fs) name None Hg).
Qed.

(** An entry unlinked is listed no more. *)
Lemma put_none_entry (fs : filesystem) (dir name : str) (c : list str)
  (ch : list (str * node)) :
  resolve fs dir = Some c ->
  get (fs_root fs) c = Some (Dir true ch) ->
  is_dir (get (fs_root fs) (c ++ [name])) = false
  \/ ~ In (py "..") (split_sep dir) ->
  os_listdir (with_root fs (put (fs_root fs) (c ++ [name]) None)) dir
  = Ok (map fst (remove_child name ch)).
Proof.
  intros Hr Hg Hk.
  destruct (put_none_dir fs dir name Hr Hg Hk) as [Hr' Hg'].
  exact (os_listdir_at _ _ Hr' Hg').
Qed.

(** X10 ([create_file_or_dir], [list_dir]).  After a file or a directory
    [name] was created in a directory that can be listed, the listing of
    the directory holds what it held before and, unless [name] is hidden
    and hidden entries are not shown, [name]; and the path created is a
    directory exactly when a directory was asked for. *)
Theorem create_then_listed (fs : filesystem) (cfg : config)
  (dir name : str) (is_file : bool) (fs' : filesystem)
  (entries : list str) :
  os_listdir fs dir = Ok entries ->
  name_ok name -> name <> py "." -> name <> py ".." ->
  create_file_or_dir fs (os_path_join dir name) is_file = (true, fs') ->
  exists l l',
    list_dir (os_listdir fs) (os_path_isdir fs) cfg dir = Ok l
    /\ list_dir (os_listdir fs') (os_path_isdir fs') cfg dir = Ok l'
    /\ (forall x,
          In x l'
          <-> In x l
              \/ (x = name
                  /\ (show_hidden cfg = true \/ hidden name = false)))
    /\ os_path_isdir fs' (os_path_join dir name) = negb is_file.
Proof.
  intros Hl Hn H1 H2 Hc.
  destruct (os_listdir_ok _ _ Hl) as (c & ch & Hr & Hg & ->).
  assert (Hd : is_dir (get (fs_root fs) c) = true) by now rewrite Hg.
  pose proof (resolve_join _ _ Hr Hd Hn H1 H2) as Hrj.
  pose proof (get_snoc c (fs_root fs) name) as Hgs. rewrite Hg in Hgs.
  destruct (list_dir_entries (os_listdir fs) (os_path_isdir fs) cfg dir Hl)
    as (l & El & Hin).
  assert (Hnew : forall v,
             assoc name ch = None ->
             fs' = with_root fs (put (fs_root fs) (c ++ [name]) (Some v)) ->
             exists l0 l',
               list_dir (os_listdir fs) (os_path_isdir fs) cfg dir = Ok l0
               /\ list_dir (os_listdir fs') (os_path_isdir fs') cfg dir
                  = Ok l'
               /\ (forall x,
                      In x l'
                      <-> In x l0
                          \/ (x = name
                              /\ (show_hidden cfg = true
                                  \/ hidden name = false)))
               /\ lookup fs' (os_path_join dir name) = Some v).
  { intros v Ha ->.
    destruct (put_new_entry fs dir v Hr Hg Ha Hn H1 H2) as [Hl' Hlk].
    destruct (list_dir_entries _ (os_path_isdir
                 (with_root fs (put (fs_root fs) (c ++ [name]) (Some v))))
                cfg dir Hl') as (l' & El' & Hin').
    exists l, l'. split; [exact El|]. split; [exact El'|].
    split; [|exact Hlk].
    intros x. rewrite Hin', Hin, in_app_iff. cbn [In].
    split.
    - intros [[Hx|[Hx|[]]] Hv]; [left; tauto|right]. subst x. tauto.
    - intros [[Hx Hv]|[-> Hv]]; tauto. }
  unfold create_file_or_dir in Hc. destruct is_file.
  - unfold open_w in Hc. rewrite Hrj, Hgs in Hc.
    destruct (assoc name ch) as [[|r0 ch0]|] eqn:Ea; try discriminate.
    + injection Hc as <-. exists l, l. split; [exact El|].
      split; [exact El|]. split.
      * intros x. split; [tauto|]. intros [Hx|[-> Hv]]; [exact Hx|].
        apply Hin. split; [|exact Hv]. now apply assoc_names in Ea.
      * unfold os_path_isdir, lookup. now rewrite Hrj, Hgs.
    + destruct (parent_is_dir (fs_root fs) (c ++ [name])); [|discriminate].
      injection Hc as <-.
      destruct (Hnew File eq_refl eq_refl) as (l0 & l' & E0 & E' & Hx & Hk).
      exists l0, l'. repeat split; try assumption; try apply Hx.
      unfold os_path_isdir. now rewrite Hk.
  - unfold os_mkdir in Hc.
    rewrite (@rstrip_sep_join dir name Hn), Hrj, Hgs in Hc.
    destruct (assoc name ch) as [m|] eqn:Ea; [discriminate|].
    destruct (parent_is_dir (fs_root fs) (c ++ [name])); [|discriminate].
    injection Hc as <-.
    destruct (Hnew (Dir true []) eq_refl eq_refl)
      as (l0 & l' & E0 & E' & Hx & Hk).
    exists l0, l'. repeat split; try assumption; try apply Hx.
    unfold os_path_isdir. now rewrite Hk.
Qed.

Lemma create_then_listed_witness :
  exists l',
    list_dir
      (os_listdir (snd (create_file_or_dir demo_fs (py "/home/u/new.txt")
                          true)))
      (os_path_isdir (snd (create_file_or_dir demo_fs
                             (py "/home/u/new.txt") true)))
      CONFIG (py "/home/u") = Ok l'
    /\ In (py "new.txt") l'.
Proof.
  destruct (@create_then_listed demo_fs CONFIG (py "/home/u")
              (py "new.txt") true
              (snd (create_file_or_dir demo_fs (py "/home/u/new.txt") true))
              [py "b.txt"; py "docs"; py "a.txt"; py ".cache"; py "locked"])
    as (l & l' & _ & El' & Hin & _).
  - vm_compute; reflexivity.
  - split; [discriminate|]. vm_compute. intuition discriminate.
  - discriminate.
  - discriminate.
  - vm_compute; reflexivity.
  - exists l'. split; [exact El'|]. apply Hin. right.
    split; [reflexivity|]. right. reflexivity.
Defined.

(** X11 ([delete_file_or_dir], [list_dir]).  After an entry [name] of a
    directory that can be listed was deleted, the listing of the directory
    holds what it held before but [name].  For a directory deleted, the
    path of the listed directory is to have no component [..]. *)
Theorem delete_then_unlisted (fs : filesystem) (cfg : config)
  (dir name : str) (fs' : filesystem) (entries : list str) :
  os_listdir fs dir = Ok entries ->
  name_ok name -> name <> py "." -> name <> py ".." ->
  os_path_isdir fs (os_path_join dir name) = false
  \/ ~ In (py "..") (split_sep dir) ->
  delete_file_or_dir fs cfg (os_path_join dir name) = (true, fs') ->
  exists l l',
    list_dir (os_listdir fs) (os_path_isdir fs) cfg dir = Ok l
    /\ list_dir (os_listdir fs') (os_path_isdir fs') cfg dir = Ok l'
    /\ (forall x, In x l' <-> In x l /\ x <> name).
Proof.
  intros Hl Hn H1 H2 Hk Hc.
  destruct (os_listdir_ok _ _ Hl) as (c & ch & Hr & Hg & ->).
  assert (Hd : is_dir (get (fs_root fs) c) = true) by now rewrite Hg.
  pose proof (resolve_join _ _ Hr Hd Hn H1 H2) as Hrj.
  destruct (list_dir_entries (os_listdir fs) (os_path_isdir fs) cfg dir Hl)
    as (l & El & Hin).
  assert (Hk' : is_dir (get (fs_root fs) (c ++ [name])) = false
                \/ ~ In (py "..") (split_sep dir)).
  { destruct Hk as [Hk|Hk]; [left|now right].
    unfold os_path_isdir, lookup in Hk. now rewrite Hrj in Hk. }
  assert (Hfs : fs' = with_root fs (put (fs_root fs) (c ++ [name]) None)).
  { unfold delete_file_or_dir in Hc.
    destruct (os_path_isdir fs (os_path_join dir name)).
    - destruct (confirm_actions cfg).
      + unfold shutil_rmtree in Hc. rewrite Hrj in Hc.
        destruct (get (fs_root fs) (c ++ [name])) as [[|r0 ch0]|];
          try discriminate.
        destruct (rmtree_node (Dir r0 ch0)); [discriminate|].
        destruct (c ++ [name]) eqn:Ec; [discriminate|].
        now injection Hc as <-.
      + unfold os_rmdir in Hc. rewrite Hrj in Hc.
        destruct (c ++ [name]) eqn:Ec;
          destruct (get (fs_root fs) _) as [[|r0 [|x0 ch0]]|];
          try discriminate.
        now injection Hc as <-.
    - unfold os_remove in Hc. rewrite Hrj in Hc.
      destruct (get (fs_root fs) (c ++ [name])) as [[|r0 ch0]|];
        try discriminate.
      now injection Hc as <-. }
  pose proof (put_none_entry fs dir name Hr Hg Hk') as Hl'.
  rewrite <- Hfs in Hl'.
  destruct (list_dir_entries _ (os_path_isdir fs') cfg dir Hl')
    as (l' & El' & Hin').
  exists l, l'. split; [exact El|]. split; [exact El'|].
  intros x. rewrite Hin', Hin, remove_child_names. tauto.
Qed.

Lemma delete_then_unlisted_witness :
  exists l',
    list_dir
      (os_listdir (snd (delete_file_or_dir demo_fs CONFIG
                          (py "/home/u/docs"))))
      (os_path_isdir (snd (delete_file_or_dir demo_fs CONFIG
                             (py "/home/u/docs"))))
      CONFIG (py "/home/u") = Ok l'
    /\ ~ In (py "docs") l'.
Proof.
  destruct (@delete_then_unlisted demo_fs CONFIG (py "/home/u")
              (py "docs")
              (snd (delete_file_or_dir demo_fs CONFIG (py "/home/u/docs")))
              [py "b.txt"; py "docs"; py "a.txt"; py ".cache"; py "locked"])
    as (l & l' & _ & El' & Hin).
  - vm_compute; reflexivity.
  - split; [discriminate|]. vm_compute. intuition discriminate.
  - discriminate.
  - discriminate.
  - right. vm_compute. intuition discriminate.
  - vm_compute; reflexivity.
  - exists l'. split; [exact El'|]. intros Hx. apply Hin in Hx.
    now apply (proj2 Hx).
Defined.

Lemma removelast_snoc (A : Type) (l : list A) (x : A) :
  removelast (l ++ [x]) = l.
Proof. apply removelast_last. Qed.

Lemma path_prefix_snoc (c : list str) (a b : str) :
  path_prefix (c ++ [a]) (c ++ [b]) = str_eqb a b.
Proof.
  induction c as [|k c IH]; cbn [app path_prefix].
  - apply andb_true_r.
  - now rewrite str_eqb_refl, IH.
Qed.

Lemma path_eqb_snoc (c : list str) (a b : str) :
  path_eqb (c ++ [a]) (c ++ [b]) = str_eqb a b.
Proof.
  induction c as [|k c IH]; cbn [app path_eqb].
  - apply andb_true_r.
  - now rewrite str_eqb_refl, IH.
Qed.

(** X12 ([rename_file_or_dir], [list_dir]).  After an entry [old] of a
    directory that can be listed was renamed to a name [new] the directory
    did not hold, the listing of the directory holds what it held before
    but [old] and, unless [new] is hidden and hidden entries are not
    shown, [new].  For a directory renamed, the path of the listed
    directory is to have no component [..]. *)
Theorem rename_then_listed (fs : filesystem) (cfg : config)
  (dir old new : str) (fs' : filesystem) (entries : list str) :
  os_listdir fs dir = Ok entries ->
  name_ok old -> old <> py "." -> old <> py ".." ->
  name_ok new -> new <> py "." -> new <> py ".." ->
  ~ In new entries ->
  os_path_isdir fs (os_path_join dir old) = false
  \/ ~ In (py "..") (split_sep dir) ->
  rename_file_or_dir fs (os_path_join dir old) (os_path_join dir new)
  = (true, fs') ->
  exists l l',
    list_dir (os_listdir fs) (os_path_isdir fs) cfg dir = Ok l
    /\ list_dir (os_listdir fs') (os_path_isdir fs') cfg dir = Ok l'
    /\ (forall x,
          In x l'
          <-> (In x l /\ x <> old)
              \/ (x = new
                  /\ (show_hidden cfg = true \/ hidden new = false))).
Proof.
  intros Hl Ho Ho1 Ho2 Hn Hn1 Hn2 Hnew Hk Hc.
  destruct (os_listdir_ok _ _ Hl) as (c & ch & Hr & Hg & ->).
  assert (Hd : is_dir (get (fs_root fs) c) = true) by now rewrite Hg.
  pose proof (resolve_join _ _ Hr Hd Ho Ho1 Ho2) as Hro.
  pose proof (resolve_join _ _ Hr Hd Hn Hn1 Hn2) as Hrn.
  destruct (list_dir_entries (os_listdir fs) (os_path_isdir fs) cfg dir Hl)
    as (l & El & Hin).
  assert (Han : assoc new ch = None).
  { destruct (assoc new ch) eqn:E; [|reflexivity].
    apply assoc_names in E. contradiction. }
  assert (Hne : str_eqb old new = false).
  { destruct (str_eqb old new) eqn:E; [|reflexivity].
    apply str_eqb_eq in E. subst new.
    unfold rename_file_or_dir, os_rename in Hc.
    rewrite (@rstrip_sep_join dir old Ho), Hro in Hc.
    rewrite (@ends_in_dots_join dir old Ho Ho1 Ho2) in Hc.
    cbn [orb] in Hc. cbv zeta in Hc.
    destruct (c ++ [old]) as [|o0 o1] eqn:Eo;
      [symmetry in Eo; now apply app_cons_not_nil in Eo|].
    rewrite <- Eo in Hc. rewrite get_snoc, Hg, Han in Hc.
    discriminate. }
  assert (Hk' : is_dir (get (fs_root fs) (c ++ [old])) = false
                \/ ~ In (py "..") (split_sep dir)).
  { destruct Hk as [Hk|Hk]; [left|now right].
    unfold os_path_isdir, lookup in Hk. now rewrite Hro in Hk. }
  destruct (put_none_dir fs dir old Hr Hg Hk') as [Hr1 Hg1].
  assert (Han1 : assoc new (remove_child old ch) = None).
  { rewrite assoc_remove_child_other; [exact Han|].
    now rewrite str_eqb_sym. }
  assert (Hfs : exists s,
             fs' = with_root
                     (with_root fs (put (fs_root fs) (c ++ [old]) None))
                     (put (put (fs_root fs) (c ++ [old]) None)
                          (c ++ [new]) (Some s))).
  { clear Hr1 Hg1 Hk'. unfold rename_file_or_dir, os_rename in Hc.
    rewrite (@rstrip_sep_join dir new Hn), Hro, Hrn in Hc.
    rewrite (@ends_in_dots_join dir old Ho Ho1 Ho2) in Hc.
    rewrite (@ends_in_dots_join dir new Hn Hn1 Hn2) in Hc.
    rewrite (@endswith_join dir new Hn) in Hc.
    cbn [orb] in Hc.
    destruct (c ++ [old]) as [|o0 o1] eqn:Eo;
      [symmetry in Eo; now apply app_cons_not_nil in Eo|].
    rewrite <- Eo in *.
    destruct (get (fs_root fs) (c ++ [old])) as [s|]; [|discriminate].
    cbv zeta in Hc. rewrite andb_false_r in Hc.
    rewrite path_eqb_snoc, path_prefix_snoc, Hne in Hc.
    unfold parent_is_dir in Hc.
    destruct (c ++ [new]) as [|n0 n1] eqn:En;
      [symmetry in En; now apply app_cons_not_nil in En|].
    rewrite <- En in *. rewrite removelast_snoc, Hd in Hc.
    cbn [negb] in Hc. rewrite get_snoc, Hg, Han in Hc.
    exists s. destruct s; now injection Hc as <-. }
  set (fs1 := with_root fs (put (fs_root fs) (c ++ [old]) None)) in *.
  change (put (fs_root fs) (c ++ [old]) None) with (fs_root fs1)
    in Hg1, Hfs.
  destruct Hfs as [s ->].
  destruct (put_new_entry fs1 dir s Hr1 Hg1 Han1 Hn Hn1 Hn2) as [Hl' _].
  destruct (list_dir_entries _
              (os_path_isdir
                 (with_root fs1 (put (fs_root fs1) (c ++ [new]) (Some s))))
              cfg dir Hl') as (l' & El' & Hin').
  exists l, l'. split; [exact El|]. split; [exact El'|].
  intros x. rewrite Hin', Hin, in_app_iff, remove_child_names. cbn [In].
  split.
  - intros [[Hx|[Hx|[]]] Hv]; [left; tauto|right]. subst x. tauto.
  - intros [[[Hx Hv] Hxo]|[-> Hv]]; tauto.
Qed.

Lemma rename_then_listed_witness :
  exists l',
    list_dir
      (os_listdir (snd (rename_file_or_dir demo_fs (py "/home/u/a.txt")
                          (py "/home/u/c.txt"))))
      (os_path_isdir (snd (rename_file_or_dir demo_fs (py "/home/u/a.txt")
                             (py "/home/u/c.txt"))))
      CONFIG (py "/home/u") = Ok l'
    /\ In (py "c.txt") l' /\ ~ In (py "a.txt") l'.
Proof.
  destruct (@rename_then_listed demo_fs CONFIG (py "/home/u")
              (py "a.txt") (py "c.txt")
              (snd (rename_file_or_dir demo_fs (py "/home/u/a.txt")
                      (py "/home/u/c.txt")))
              [py "b.txt"; py "docs"; py "a.txt"; py ".cache"; py "locked"])
    as (l & l' & _ & El' & Hin).
  - vm_compute; reflexivity.
  - split; [discriminate|]. vm_compute. intuition discriminate.
  - discriminate.
  - discriminate.
  - split; [discriminate|]. vm_compute. intuition discriminate.
  - discriminate.
  - discriminate.
  - vm_compute. intuition discriminate.
  - left. vm_compute; reflexivity.
  - vm_compute; reflexivity.
  - exists l'. split; [exact El'|]. split.
    + apply Hin. right. split; [reflexivity|]. right. reflexivity.
    + intros Hx. apply Hin in Hx. destruct Hx as [[_ Hx]|[Hx _]].
      * now apply Hx.
      * discriminate Hx.
Defined.

(** ** Toggling the hidden entries *)

Lemma on_key_h (s : state) (e : env) :
  on_key s (key_of "h") e
  = (let c := cfg s in
     let s :=
       set_cfg {| show_hidden := negb (show_hidden c);
                  sort_dirs_first := sort_dirs_first c;
                  preview_max_lines := preview_max_lines c;
                  search_max_depth := search_max_depth c;
                  confirm_actions := confirm_actions c |} s in
     reload s (fun s => set_offset 0 (clamp s))).
Proof. reflexivity. Qed.

Lemma reload_next (s : state) (k : state -> state) (s' : state) :
  reload s k = Next s' ->
  exists l, listing s (path s) = Ok l
            /\ s' = k (set_all_files l (set_files l s)).
Proof.
  unfold reload. destruct (listing s (path s)) as [l|ex]; [|discriminate].
  intros H. injection H as <-. eauto.
Qed.

(** X13 ([main], the key [h]).  Pressing [h] twice outside the search
    mode brings [CONFIG] back, and leaves as the entry list the listing
    of the current directory under it; the file system and the directory
    are as before.  After the first press the entry list is the listing
    with [show_hidden] flipped. *)
Theorem toggle_hidden_twice (s : state) (e1 e2 : env) (s1 s2 : state) :
  search_mode s = false ->
  getch e1 = Some (key_of "h") ->
  getch e2 = Some (key_of "h") ->
  main_step s e1 = Next s1 ->
  main_step s1 e2 = Next s2 ->
  show_hidden (cfg s1) = negb (show_hidden (cfg s))
  /\ listing s1 (path s) = Ok (files s1)
  /\ cfg s2 = cfg s /\ fs s2 = fs s /\ path s2 = path s
  /\ listing s (path s) = Ok (files s2)
  /\ all_files s2 = files s2.
Proof.
  intros Hm Hk1 Hk2 E1 E2.
  destruct (@main_step_on_key s e1 _ s1 Hm Hk1) as (o & t & E & Ht);
    [discriminate|exact E1|].
  rewrite on_key_h in E. cbv zeta in E.
  apply reload_next in E as (l1 & El1 & Et).
  assert (H1 : show_hidden (cfg s1) = negb (show_hidden (cfg s))
               /\ sort_dirs_first (cfg s1) = sort_dirs_first (cfg s)
               /\ preview_max_lines (cfg s1) = preview_max_lines (cfg s)
               /\ search_max_depth (cfg s1) = search_max_depth (cfg s)
               /\ confirm_actions (cfg s1) = confirm_actions (cfg s)
               /\ fs s1 = fs s /\ path s1 = path s
               /\ search_mode s1 = false /\ files s1 = l1
               /\ listing s1 (path s) = Ok l1).
  { destruct Ht as [-> | ->]; subst t; repeat split; try exact Hm;
      exact El1. }
  destruct H1 as (Hh & Hsd & Hpl & Hsm & Hca & Hf1 & Hp1 & Hm1 & Hfl & Hl1).
  destruct (@main_step_on_key s1 e2 _ s2 Hm1 Hk2) as (o2 & t2 & E & Ht2);
    [discriminate|exact E2|].
  rewrite on_key_h in E. cbv zeta in E.
  apply reload_next in E as (l2 & El2 & Et2).
  assert (Hc : {| show_hidden := negb (show_hidden (cfg s1));
                  sort_dirs_first := sort_dirs_first (cfg s1);
                  preview_max_lines := preview_max_lines (cfg s1);
                  search_max_depth := search_max_depth (cfg s1);
                  confirm_actions := confirm_actions (cfg s1) |} = cfg s).
  { rewrite Hh, Hsd, Hpl, Hsm, Hca, negb_involutive.
    now destruct (cfg s). }
  unfold listing in El2. cbn [fs cfg path set_cfg set_offset] in El2.
  rewrite Hc, Hf1, Hp1 in El2.
  split; [exact Hh|]. split; [now rewrite Hfl|].
  unfold listing.
  destruct Ht2 as [-> | ->]; subst t2;
    cbn [fs cfg path files all_files set_cfg set_offset set_clicked_idx
         set_current_idx set_files set_all_files clamp];
    rewrite Hc, Hf1, Hp1; repeat split; exact El2.
Qed.

Lemma toggle_hidden_twice_witness :
  listing demo_state (path demo_state)
  = Ok (files (demo_after [press (key_of "h") []; press (key_of "h") []])).
Proof.
  refine (proj1 (proj2 (proj2 (proj2 (proj2 (proj2
            (@toggle_hidden_twice demo_state (press (key_of "h") [])
               (press (key_of "h") [])
               (demo_after [press (key_of "h") []])
               (demo_after [press (key_of "h") []; press (key_of "h") []])
               _ _ _ _ _)))))));
    vm_compute; reflexivity.
Defined.

(** ** The search results kept from one search to the next *)

Lemma on_key_slash (s : state) (e : env) :
  on_key s (key_of "/") e
  = Next (set_all_files (files s)
            (set_search_query [] (set_search_mode true s))).
Proof. reflexivity. Qed.

Lemma main_step_on_search_key (s : state) (e : env) (key : Z) (s' : state) :
  search_mode s = true ->
  getch e = Some key ->
  key <> KEY_MOUSE ->
  main_step s e = Next s' ->
  exists o s0,
    on_search_key search_from (set_offset o s) key = Next s0
    /\ (s' = s0 \/ s' = set_clicked_idx (-1) s0).
Proof.
  intros Hm Hk Hkey H. unfold main_step, main_turn in H.
  destruct (draw_files (fs s) (term_h e) (fault e) (path s) (files s)
              (current_idx s) (offset s) (search_mode s))
    as [[o areas]|]; [|discriminate].
  cbv zeta in H.
  destruct (draw_preview _ _ _); [|discriminate].
  destruct (if nonempty (files (set_offset o s))
            then py_index (files (set_offset o s))
                   (current_idx (set_offset o s))
            else Some (Plain [])); [|discriminate].
  destruct (draw_status_line _ _ _ _ _); [|discriminate].
  rewrite Hk in H. apply Z.eqb_neq in Hkey. rewrite Hkey in H.
  change (search_mode (set_offset o s)) with (search_mode s) in H.
  rewrite Hm in H.
  apply end_of_turn_next in H as (s0 & E & Hs'). eauto.
Qed.

Lemma on_search_key_enter
  (search : filesystem -> config -> str -> str -> list (str * str))
  (s : state) (key : Z) :
  key = KEY_ENTER \/ key = 10 \/ key = 13 ->
  on_search_key search s key
  = (let s := set_search_mode false s in
     let s := if nonempty (search_results s)
              then set_files (search_results s) s else s in
     Next (set_offset 0 (set_current_idx 0 s))).
Proof. intros [->|[->| ->]]; reflexivity. Qed.

(** X14 ([main], the keys [/] and Enter).  The results of a search are
    kept when the search mode is left: pressing [/] and then Enter, with
    no query typed, replaces the entry list by the results of the last
    search when it had found something, and leaves it as it is
    otherwise. *)
Theorem search_enter_shows_last_results (s : state) (e1 e2 : env)
  (key : Z) (s2 : state) :
  search_mode s = false ->
  getch e1 = Some (key_of "/") ->
  getch e2 = Some key ->
  key = KEY_ENTER \/ key = 10 \/ key = 13 ->
  main_run s [e1; e2] = Next s2 ->
  search_mode s2 = false /\ search_query s2 = []
  /\ files s2 = (if nonempty (search_results s) then search_results s
                 else files s).
Proof.
  intros Hm Hk1 Hk2 Hkey H.
  unfold main_run in H. simpl in H. fold main_step in H.
  destruct (main_step s e1) as [s1| | |] eqn:E1; try discriminate.
  destruct (main_step s1 e2) as [s2'| | |] eqn:E2; try discriminate.
  injection H as ->.
  destruct (@main_step_on_key s e1 _ s1 Hm Hk1) as (o & t & E & Ht);
    [discriminate|exact E1|].
  rewrite on_key_slash in E. injection E as <-.
  assert (H1 : search_mode s1 = true /\ search_query s1 = []
               /\ files s1 = files s
               /\ search_results s1 = search_results s).
  { destruct Ht as [-> | ->]; repeat split. }
  destruct H1 as (Hm1 & Hq1 & Hf1 & Hr1).
  destruct (@main_step_on_search_key s1 e2 key s2 Hm1 Hk2)
    as (o2 & t2 & E & Ht2); [|exact E2|].
  { destruct Hkey as [->|[->| ->]]; discriminate. }
  rewrite (on_search_key_enter _ _ Hkey) in E. cbv zeta in E.
  injection E as <-.
  cbn [search_results set_search_mode set_offset] in Ht2.
  rewrite Hr1 in Ht2.
  destruct (nonempty (search_results s));
    destruct Ht2 as [-> | ->]; repeat split; auto.
Qed.

Lemma search_enter_shows_last_results_witness :
  files (demo_after [press (key_of "/") []; press (key_of "m") [];
                     press 27 []])
  = files demo_state
  /\ files (demo_after [press (key_of "/") []; press (key_of "m") [];
                        press 27 []; press (key_of "/") []; press 10 []])
     = [Located (py "docs/Notes.md") (py "/home/u/docs/Notes.md")].
Proof.
  split; [vm_compute; reflexivity|].
  assert (E : (if nonempty
                    (search_results
                       (demo_after [press (key_of "/") [];
                                    press (key_of "m") []; press 27 []]))
               then search_results
                      (demo_after [press (key_of "/") [];
                                   press (key_of "m") []; press 27 []])
               else files
                      (demo_after [press (key_of "/") [];
                                   press (key_of "m") []; press 27 []]))
              = [Located (py "docs/Notes.md") (py "/home/u/docs/Notes.md")])
    by (vm_compute; reflexivity).
  rewrite <- E.
  refine (proj2 (proj2
            (@search_enter_shows_last_results
               (demo_after [press (key_of "/") []; press (key_of "m") [];
                            press 27 []])
               (press (key_of "/") []) (press 10 []) 10
               (demo_after [press (key_of "/") []; press (key_of "m") [];
                            press 27 []; press (key_of "/") [];
                            press 10 []])
               _ _ _ _ _)));
    try (vm_compute; reflexivity).
  right; left; reflexivity.
Defined.

(** ** The context menu and the mouse *)

(** X15 ([show_context_menu], the mouse).  On a screen with room for
    the menu, the menu asked for at a place of the screen is put within
    the screen, moved up and left where it would end beyond it.  While
    the menu is open, a click outside its rectangle closes it; a click on
    one of its cells is dropped, as are a mouse report that cannot be
    read and a failing read of the key: the menu goes on with the rest of
    its input.  On a screen with fewer rows or columns than the menu the
    call raises [curses.error], whatever its input. *)
Theorem context_menu_mouse (A : Type) (h w y x : Z)
  (options : list (str * A)) (mx my : Z) (rest : list menu_input) :
  options <> [] ->
  plain_labels options ->
  (menu_room h w y x options ->
   (0 <= menu_row h y options
    /\ menu_row h y options + (len options + 2) <= h
    /\ 0 <= menu_col w x options
    /\ menu_col w x options + menu_width options <= w)
   /\ (~ (menu_row h y options <= my
                                < menu_row h y options + (len options + 2)
          /\ menu_col w x options <= mx
                                  < menu_col w x options
                                    + menu_width options) ->
       show_context_menu h w y x options
         (Getch KEY_MOUSE (Some (mx, my)) :: rest) = Closed)
   /\ (menu_row h y options <= my
                              < menu_row h y options + (len options + 2) ->
       menu_col w x options <= mx
                              < menu_col w x options + menu_width options ->
       show_context_menu h w y x options
         (Getch KEY_MOUSE (Some (mx, my)) :: rest)
       = show_context_menu h w y x options rest)
   /\ show_context_menu h w y x options (Getch KEY_MOUSE None :: rest)
      = show_context_menu h w y x options rest
   /\ show_context_menu h w y x options (GetchError :: rest)
      = show_context_menu h w y x options rest)
  /\ (h < len options + 2 \/ w < menu_width options ->
      show_context_menu h w y x options
        (Getch KEY_MOUSE (Some (mx, my)) :: rest)
      = MenuRaise CursesError).
Proof.
  intros Hne Hp. split; [|intros Hs; now apply menu_no_room].
  intros Hr.
  pose proof (@menu_opens A h w y x options Hne Hp Hr) as E.
  rewrite !E. cbn [menu_loop]. change (KEY_MOUSE =? 27) with false.
  change (KEY_MOUSE =? KEY_MOUSE) with true. cbv iota.
  set (inside := (menu_row h y options <=? my)
                 && (my <? menu_row h y options + (len options + 2))
                 && (menu_col w x options <=? mx)
                 && (mx <? menu_col w x options + menu_width options)).
  assert (Hin : inside = true
                <-> (menu_row h y options <= my
                                            < menu_row h y options
                                              + (len options + 2)
                     /\ menu_col w x options <= mx
                                               < menu_col w x options
                                                 + menu_width options)).
  { unfold inside. rewrite !andb_true_iff, !Z.leb_le, !Z.ltb_lt. tauto. }
  split; [|split; [|split; [|split]]].
  - destruct Hr as (Hy & Hx & Hh & Hw). unfold menu_row, menu_col.
    destruct (y + (len options + 2) >? h) eqn:Ey;
      destruct (x + menu_width options >? w) eqn:Ex; lia.
  - intros Hout. destruct inside; [|reflexivity].
    exfalso. apply Hout, Hin. reflexivity.
  - intros Hmy Hmx.
    assert (Ei : inside = true) by (apply Hin; split; assumption).
    now rewrite Ei.
  - reflexivity.
  - reflexivity.
Qed.

Lemma context_menu_mouse_witness :
  menu_room 24 80 20 70 context_options
  /\ show_context_menu 24 80 20 70 context_options
       [Getch KEY_MOUSE (Some (3, 23))] = Closed
  /\ show_context_menu 24 80 20 70 context_options
       [Getch KEY_MOUSE (Some (60, 23)); Getch 27 None] = Closed
  /\ show_context_menu 6 80 3 40 context_options
       [Getch KEY_MOUSE (Some (3, 23))] = MenuRaise CursesError.
Proof.
  assert (Hne : context_options <> []) by discriminate.
  assert (Hp : plain_labels context_options) by (repeat constructor).
  assert (Hr : menu_room 24 80 20 70 context_options)
    by (vm_compute; intuition discriminate).
  split; [exact Hr|]. split; [|split].
  - apply (proj1 (proj2 (proj1 (@context_menu_mouse _ 24 80 20 70
                                  context_options 3 23 [] Hne Hp) Hr))).
    vm_compute. intros [_ [H _]]. now apply H.
  - rewrite (proj1 (proj2 (proj2 (proj1 (@context_menu_mouse _ 24 80 20 70
                                           context_options 60 23
                                           [Getch 27 None] Hne Hp) Hr))));
      [reflexivity| |]; vm_compute; (split; [discriminate|reflexivity]).
  - apply (proj2 (@context_menu_mouse _ 6 80 3 40 context_options 3 23 []
                    Hne Hp)).
    left. vm_compute. reflexivity.
Defined.

(** ** The status line of the search mode *)

(** X16 ([draw_status_line], the search mode).  On a screen of at least
    2 rows and 10 columns the status text of the search mode is at most
    [w - 2] characters long and the cursor mark is written right after
    it: a query of up to [w - 10] characters is shown whole after
    [Search: ], a longer one is cut to the first [w - 5] characters of
    the text, followed by three dots. *)
Theorem status_line_search_fits (h w : Z) (query : str) :
  2 <= h -> 10 <= w ->
  exists status,
    draw_status_search h w query = Some (status, Some (len status))
    /\ len status <= w - 2
    /\ (len query <= w - 10 -> status = py "Search: " ++ query)
    /\ (w - 10 < len query ->
        status = firstn (Z.to_nat (w - 5)) (py "Search: " ++ query)
                 ++ py "..."
        /\ len status = w - 2).
Proof.
  intros Hh Hw. unfold draw_status_search.
  assert (E1 : (h <? 2) || (w <? 10) = false).
  { apply orb_false_iff. split; lia. }
  rewrite E1. cbv zeta.
  assert (Hlen : len (py "Search: " ++ query) = 8 + len query).
  { unfold len. rewrite length_app. simpl length. lia. }
  destruct (len (py "Search: " ++ query) >? w - 2) eqn:E.
  - assert (Hs : py_slice (py "Search: " ++ query) 0 (w - 5)
                 = firstn (Z.to_nat (w - 5)) (py "Search: " ++ query)).
    { unfold py_slice, slice_bound. fold (len (py "Search: " ++ query)).
      destruct (0 <? 0) eqn:E0; [lia|].
      destruct (w - 5 <? 0) eqn:E5; [lia|].
      replace (Z.min 0 (len (py "Search: " ++ query))) with 0 by lia.
      replace (Z.min (w - 5) (len (py "Search: " ++ query)) - 0)
        with (w - 5) by lia.
      reflexivity. }
    rewrite Hs.
    assert (Hl : len (firstn (Z.to_nat (w - 5)) (py "Search: " ++ query)
                      ++ py "...") = w - 2).
    { unfold len in *. rewrite length_app, length_firstn. simpl length.
      lia. }
    exists (firstn (Z.to_nat (w - 5)) (py "Search: " ++ query) ++ py "...").
    rewrite Hl.
    replace (w - 2 <? w - 1) with true by lia.
    split; [reflexivity|]. split; [lia|]. split; [lia|].
    intros _. split; reflexivity.
  - exists (py "Search: " ++ query). rewrite Hlen.
    replace (8 + len query <? w - 1) with true by lia.
    split; [reflexivity|]. split; [lia|].
    split; [reflexivity|lia].
Qed.

Lemma status_line_search_fits_witness :
  draw_status_search 24 12 (py "notes")
  = Some (py "Search:...", Some 10).
Proof.
  destruct (@status_line_search_fits 24 12 (py "notes"))
    as (status & E & _ & _ & H); [lia|lia|].
  destruct H as [-> _]; [vm_compute; reflexivity|].
  exact E.
Defined.

(** ** Leaving the loop *)

Lemma reload_no_exit (s : state) (k : state -> state) (s' : state) :
  reload s k <> Exit s'.
Proof. unfold reload. destruct (listing s (path s)); discriminate. Qed.

Ltac exit_step :=
  match goal with
  | |- Next _ <> _ => discriminate
  | |- Crash _ <> _ => discriminate
  | |- Blocked <> _ => discriminate
  | |- reload _ _ <> _ => apply reload_no_exit
  | |- enter_directory _ _ <> _ => apply reload_no_exit
  | |- (if ?c then _ else _) <> _ => destruct c eqn:?
  | |- (let (_, _) := ?c in _) <> _ => destruct c eqn:?
  | |- (match ?c with _ => _ end) <> _ => destruct c eqn:?
  end.

Lemma on_mouse_no_exit (s : state) (areas : list (Z * Z)) (e : env)
  (s' : state) :
  on_mouse s areas e <> Exit s'.
Proof.
  unfold on_mouse.
  destruct (getmouse e) as [[[x y] b]|]; [|discriminate]. cbv zeta.
  destruct (nonzero (Z.land b BUTTON4_PRESSED)); [discriminate|].
  destruct (nonzero (Z.land b BUTTON5_PRESSED)); [discriminate|].
  destruct (nonzero (Z.land b BUTTON1_PRESSED) && negb (search_mode s)).
  { destruct (click_at y areas) as [v|]; [|discriminate].
    match goal with
    | |- match ?a with _ => _ end <> _ =>
        assert (Hafter : forall t, a <> Exit t);
        [|destruct a as [?|t|?|]; try discriminate;
          now contradiction (Hafter t)]
    end.
    intros t. repeat exit_step. }
  repeat exit_step.
Qed.

Lemma on_search_key_no_exit
  (search : filesystem -> config -> str -> str -> list (str * str))
  (s : state) (key : Z) (s' : state) :
  on_search_key search s key <> Exit s'.
Proof. unfold on_search_key. repeat exit_step. Qed.

Lemma on_key_exit (s : state) (key : Z) (e : env) (s' : state) :
  on_key s key e = Exit s' -> key = key_of "q" /\ s' = s.
Proof.
  unfold on_key. destruct (key =? key_of "q") eqn:Eq.
  - intros H. injection H as <-. apply Z.eqb_eq in Eq. auto.
  - intros H. exfalso.
    match type of H with
    | ?a = _ => assert (Hn : a <> Exit s'); [clear H|exact (Hn H)]
    end.
    unfold on_create, open_context. repeat exit_step.
Qed.

(** A turn that leaves the loop by [break]: the key [q] was read outside
    the search mode, or the read of the key was interrupted; the state is
    the one before the turn, but for the offset the drawing computed. *)
Lemma main_step_exit (s : state) (e : env) (s' : state) :
  main_step s e = Exit s' ->
  (getch e = None
   \/ (getch e = Some (key_of "q") /\ search_mode s = false))
  /\ exists o, s' = set_offset o s.
Proof.
  unfold main_step, main_turn. intros H.
  destruct (draw_files (fs s) (term_h e) (fault e) (path s) (files s)
              (current_idx s) (offset s) (search_mode s))
    as [[o areas]|]; [|discriminate].
  cbv zeta in H.
  destruct (draw_preview _ _ _); [|discriminate].
  destruct (if nonempty (files (set_offset o s))
            then py_index (files (set_offset o s))
                   (current_idx (set_offset o s))
            else Some (Plain [])); [|discriminate].
  destruct (draw_status_line _ _ _ _ _); [|discriminate].
  destruct (getch e) as [key|].
  - assert (Ht : forall o, end_of_turn e o = Exit s' -> o = Exit s').
    { intros [t|t|ex|]; simpl; try (intros; assumption).
      destruct (_ && _); discriminate. }
    apply Ht in H. clear Ht.
    destruct (key =? KEY_MOUSE).
    { now apply on_mouse_no_exit in H. }
    change (search_mode (set_offset o s)) with (search_mode s) in H.
    destruct (search_mode s).
    { now apply on_search_key_no_exit in H. }
    apply on_key_exit in H as [-> ->]. split; [right; auto|].
    now exists o.
  - injection H as <-. split; [now left|]. now exists o.
Qed.

(** On the key [q] outside the search mode, and on an interrupted read,
    the turn does not go on. *)
Lemma main_step_break (s : state) (e : env) :
  getch e = None
  \/ (getch e = Some (key_of "q") /\ search_mode s = false) ->
  (exists s', main_step s e = Exit s')
  \/ (exists ex, main_step s e = Crash ex).
Proof.
  intros Hq. unfold main_step, main_turn.
  destruct (draw_files (fs s) (term_h e) (fault e) (path s) (files s)
              (current_idx s) (offset s) (search_mode s))
    as [[o areas]|ex]; [|right; now exists ex].
  cbv zeta.
  destruct (draw_preview _ _ _) as [u|ex]; [|right; now exists ex].
  destruct (if nonempty (files (set_offset o s))
            then py_index (files (set_offset o s))
                   (current_idx (set_offset o s))
            else Some (Plain [])); [|right; now exists IndexError].
  destruct (draw_status_line _ _ _ _ _) as [u'|ex];
    [|right; now exists ex].
  left. destruct Hq as [->|[-> Hm]]; [now exists (set_offset o s)|].
  change (search_mode (set_offset o s)) with (search_mode s).
  rewrite Hm. now exists (set_offset o s).
Qed.

(** X17 ([main], leaving the loop by [break]).  A run of the loop is
    left by [break] on two occasions only: the key [q] read outside the
    search mode, and [KeyboardInterrupt] raised while the key is read;
    the turns before went on, and the turn that leaves changes nothing
    but the offset of the list.  On both occasions the turn does not go
    on: it leaves the loop, unless an exception escapes it first, which
    is the other way a run ends.  In the search mode [q] does not leave
    the loop: it is added to the query. *)
Theorem loop_left_by_break (s : state) (es : list env) (s' : state) :
  (main_run s es = Exit s' ->
   exists es1 e es2 t o,
     es = es1 ++ e :: es2
     /\ main_run s es1 = Next t
     /\ main_step t e = Exit s'
     /\ (getch e = None
         \/ (getch e = Some (key_of "q") /\ search_mode t = false))
     /\ s' = set_offset o t)
  /\ (forall t e,
        getch e = None
        \/ (getch e = Some (key_of "q") /\ search_mode t = false) ->
        (exists t', main_step t e = Exit t')
        \/ (exists ex, main_step t e = Crash ex))
  /\ (forall t e t',
        search_mode t = true ->
        getch e = Some (key_of "q") ->
        main_step t e = Next t' ->
        search_mode t' = true
        /\ search_query t' = search_query t ++ py "q").
Proof.
  split; [|split].
  - revert s. induction es as [|e es IH]; intros s H; [discriminate|].
    unfold main_run in H. cbn [main_loop] in H. fold main_step in H.
    destruct (main_step s e) as [s1| s1 |ex|] eqn:E; try discriminate.
    + fold main_run in H.
      destruct (IH s1 H) as (es1 & e' & es2 & t & o & -> & Hr & Hx & Hq & Hs).
      exists (e :: es1), e', es2, t, o. split; [reflexivity|].
      split; [|auto].
      unfold main_run. cbn [main_loop]. fold main_step. rewrite E.
      exact Hr.
    + injection H as <-.
      destruct (@main_step_exit _ _ _ E) as [Hq [o Hs]].
      exists [], e, es, s, o. repeat split; auto.
  - intros t e Hq. now apply main_step_break.
  - intros t e t' Hm Hk H.
    assert (Hkey : key_of "q" <> KEY_MOUSE) by discriminate.
    destruct (@main_step_on_search_key _ _ _ _ Hm Hk Hkey H)
      as (o & s0 & E & Hs0).
    assert (E0 : on_search_key search_from (set_offset o t) (key_of "q")
                 = Next (run_search search_from
                           (set_search_query
                              (search_query (set_offset o t) ++ py "q")
                              (set_offset o t)))) by reflexivity.
    rewrite E0 in E. injection E as <-.
    destruct Hs0 as [-> | ->]; split; solve [exact Hm | reflexivity].
Qed.

Lemma loop_left_by_break_witness :
  exists es1 e es2 t o,
    [press (key_of "j") []; press (key_of "q") []; press (key_of "j") []]
    = es1 ++ e :: es2
    /\ main_run demo_state es1 = Next t
    /\ main_step t e = Exit (demo_after [press (key_of "j") []])
    /\ (getch e = None
        \/ (getch e = Some (key_of "q") /\ search_mode t = false))
    /\ demo_after [press (key_of "j") []] = set_offset o t.
Proof.
  apply (proj1 (@loop_left_by_break demo_state
                  [press (key_of "j") []; press (key_of "q") [];
                   press (key_of "j") []]
                  (demo_after [press (key_of "j") []]))).
  vm_compute; reflexivity.
Defined.

(** ** The row of the selection *)

(** X18 ([draw_files], the selection and the click areas).  On a screen
    of 5 rows or more, when nothing fails while drawing, the selected
    entry has a row of its own in the list pane, row
    [2 + current_idx - offset] for the offset returned, and a click on
    that row gives back the selection. *)
Theorem selected_row_clickable (fs : filesystem) (h : Z) (path : str)
  (files : list entry) (current_idx offset : Z) (search_mode : bool)
  (o : Z) (areas : list (Z * Z)) :
  draw_files fs h NoFault path files current_idx offset search_mode
  = Ok (o, areas) ->
  5 <= h ->
  0 <= current_idx < len files ->
  0 <= offset ->
  2 <= 2 + current_idx - o < h - 2
  /\ click_at (2 + current_idx - o) areas = Some current_idx.
Proof.
  intros H Hh Hi Ho.
  assert (Hne : files <> []).
  { intros ->. unfold len in Hi. simpl in Hi. lia. }
  pose proof (@draw_files_offset fs h NoFault path files current_idx
                offset search_mode o areas (or_introl eq_refl) Hne H) as Eo.
  assert (Hw : o <= current_idx < o + (h - 4)).
  { rewrite Eo. apply adjust_offset_window. lia. }
  split; [lia|].
  replace (Some current_idx)
    with (Some (o + (2 + current_idx - o - 2))) by (f_equal; lia).
  eapply draw_files_row; [exact H| | | |]; lia.
Qed.

Lemma selected_row_clickable_witness :
  click_at 4 [(2, 0); (3, 1); (4, 2); (5, 3)] = Some 2.
Proof.
  apply (@selected_row_clickable demo_fs 24 (py "/home/u")
           (files demo_state) 2 0 false 0
           [(2, 0); (3, 1); (4, 2); (5, 3)]).
  - vm_compute; reflexivity.
  - lia.
  - split; [lia|vm_compute; reflexivity].
  - lia.
Defined.

(** ** Back, at the root *)

Lemma dirname_all_sep (p : str) :
  forallb (Ascii.eqb sep) p = true -> os_path_dirname p = p.
Proof.
  intros H. unfold os_path_dirname.
  assert (Hf : from_sep (rev p) = rev p).
  { destruct (rev p) as [|c r] eqn:E; [reflexivity|].
    apply from_sep_head. rewrite startswith_sep.
    rewrite <- all_sep_rev, E in H. cbn [forallb] in H.
    now apply andb_true_iff in H as [H _]. }
  rewrite Hf, rev_involutive, H. cbn [negb]. now rewrite andb_false_r.
Qed.

(** X19 ([main], the key [b] at the root).  In a directory whose path is
    made of separators only, the root [/] among them, the key [b] changes
    nothing: the path, the entry list and the selection stay. *)
Theorem back_at_root (s : state) (e : env) (s' : state) :
  search_mode s = false ->
  getch e = Some (key_of "b") ->
  path s <> [] ->
  forallb (Ascii.eqb sep) (path s) = true ->
  main_step s e = Next s' ->
  path s' = path s /\ files s' = files s /\ current_idx s' = current_idx s
  /\ fs s' = fs s.
Proof.
  intros Hm Hk Hp Hs H.
  destruct (@main_step_on_key s e _ s' Hm Hk) as (o & t & E & Ht);
    [discriminate|exact H|].
  rewrite on_key_b in E. cbv zeta in E.
  change (path (set_offset o s)) with (path s) in E.
  rewrite (dirname_all_sep _ Hs) in E.
  replace (truthy (path s)) with true in E
    by (destruct (path s); [contradiction|reflexivity]).
  rewrite str_eqb_refl, andb_false_r in E. injection E as <-.
  destruct Ht as [-> | ->]; repeat split.
Qed.

Lemma back_at_root_witness :
  path (match main_step (set_path (py "/") demo_state)
                (press (key_of "b") []) with
        | Next t => t
        | _ => demo_state
        end) = py "/".
Proof.
  apply (@back_at_root (set_path (py "/") demo_state)
           (press (key_of "b") [])
           (match main_step (set_path (py "/") demo_state)
                    (press (key_of "b") []) with
            | Next t => t
            | _ => demo_state
            end));
    try (vm_compute; reflexivity); discriminate.
Defined.

(** ** Clicks on the list *)

(** X20 ([main], a press of the first mouse button on a row of the
    list, outside the search mode).  The press selects the entry of the
    row, [offset + (y - 2)] for the offset of the drawing, and records
    the time and the entry of the click.  A second press on the same
    entry less than 500 ms after the first enters the entry when it is a
    directory: the path is the entry's, the selection and the offset are
    0; the click recorded is still the one on the row pressed.  Any other
    press leaves the path and the entry list as they are. *)
Theorem click_selects_or_enters (s : state) (e : env) (s' : state)
  (x y b : Z) (name : str) :
  search_mode s = false ->
  in_bounds s ->
  fault e = NoFault ->
  getch e = Some KEY_MOUSE ->
  getmouse e = Some (x, y, b) ->
  Z.land b BUTTON4_PRESSED = 0 ->
  Z.land b BUTTON5_PRESSED = 0 ->
  Z.land b BUTTON1_PRESSED <> 0 ->
  2 <= y < term_h e - 2 ->
  py_index (files s)
    (adjust_offset (current_idx s) (offset s) (term_h e - 4) + (y - 2))
  = Some (Plain name) ->
  main_step s e = Next s' ->
  let v := adjust_offset (current_idx s) (offset s) (term_h e - 4)
           + (y - 2) in
  last_click_idx s' = v /\ last_click_time s' = time_now e
  /\ fs s' = fs s
  /\ (if (time_now e - last_click_time s <? 500)
         && (v =? last_click_idx s)
         && os_path_isdir (fs s) (os_path_join (path s) name)
      then path s' = os_path_join (path s) name
           /\ current_idx s' = 0 /\ offset s' = 0
           /\ listing s (os_path_join (path s) name) = Ok (files s')
      else path s' = path s /\ files s' = files s /\ current_idx s' = v).
Proof.
  intros Hm [[Hlo Hhi] Ho] Hf Hk Hg H4 H5 H1 Hy Hi H v.
  pose proof (py_index_guard _ _ Hi) as Hgd.
  apply andb_true_iff in Hgd as [Hn Hlt]. apply Z.ltb_lt in Hlt.
  assert (Hne : files s <> []).
  { intros E. rewrite E in Hn. discriminate. }
  pose proof (adjust_offset_nonneg (term_h e - 4) Hlo Ho) as Hov.
  assert (Hv : 0 <= v < len (files s)) by (unfold v; lia).
  unfold main_step, main_turn in H. rewrite Hf in H.
  destruct (draw_files (fs s) (term_h e) NoFault (path s) (files s)
              (current_idx s) (offset s) (search_mode s))
    as [[o areas]|] eqn:Ed; [|discriminate].
  pose proof (@draw_files_offset _ _ _ _ _ _ _ _ _ _
                (or_introl eq_refl) Hne Ed) as Eo.
  assert (Hclick : click_at y areas = Some v).
  { unfold v. rewrite <- Eo.
    eapply draw_files_row; [exact Ed|exact Hlo|exact Ho|exact Hy|].
    rewrite Eo. apply Hv. }
  cbv zeta in H.
  destruct (draw_preview _ _ _); [|discriminate].
  destruct (if nonempty (files (set_offset o s))
            then py_index (files (set_offset o s))
                   (current_idx (set_offset o s))
            else Some (Plain [])); [|discriminate].
  destruct (draw_status_line _ _ _ _ _); [|discriminate].
  rewrite Hk in H. change (KEY_MOUSE =? KEY_MOUSE) with true in H.
  cbv iota in H.
  apply end_of_turn_next in H as (t & E & Ht).
  unfold on_mouse in E. rewrite Hg in E. cbv zeta in E.
  unfold nonzero in E. rewrite H4, H5 in E.
  apply Z.eqb_neq in H1. rewrite H1 in E.
  change (search_mode (set_offset o s)) with (search_mode s) in E.
  rewrite Hm, Hclick in E. cbn [negb andb Z.eqb] in E.
  rewrite (@full_path_at_plain
             (set_current_idx v (set_clicked_idx v (set_offset o s)))
             v name Hi) in E.
  cbn [last_click_time last_click_idx fs path set_current_idx
       set_clicked_idx set_offset] in E.
  destruct ((time_now e - last_click_time s <? 500)
            && (v =? last_click_idx s)) eqn:Edouble.
  - destruct (os_path_isdir (fs s) (os_path_join (path s) name)) eqn:Edir.
    + destruct (enter_directory
                  (set_current_idx v (set_clicked_idx v (set_offset o s)))
                  (os_path_join (path s) name))
        as [t1| | |] eqn:Eenter; try discriminate.
      injection E as <-.
      apply enter_directory_next in Eenter as (l & El & ->).
      cbn [andb]. unfold listing.
      cbn [fs cfg set_current_idx set_clicked_idx set_offset] in El.
      rewrite El.
      destruct Ht as [-> | ->]; repeat split.
    + injection E as <-. cbn [andb].
      destruct Ht as [-> | ->]; repeat split.
  - injection E as <-. cbn [andb].
    destruct Ht as [-> | ->]; repeat split.
Qed.

Lemma click_selects_or_enters_witness :
  path (demo_after [click 2 1000; click 2 1200]) = py "/home/u/docs".
Proof.
  pose proof (@click_selects_or_enters (demo_after [click 2 1000])
                (click 2 1200) (demo_after [click 2 1000; click 2 1200])
                5 2 BUTTON1_PRESSED (py "docs")) as H.
  cbv zeta in H.
  destruct H as (_ & _ & _ & H).
  - vm_compute; reflexivity.
  - split; [split|]; vm_compute; discriminate.
  - reflexivity.
  - reflexivity.
  - reflexivity.
  - reflexivity.
  - reflexivity.
  - vm_compute; discriminate.
  - split; vm_compute; [discriminate|reflexivity].
  - vm_compute; reflexivity.
  - vm_compute; reflexivity.
  - vm_compute in H. vm_compute. exact (proj1 H).
Defined.

(** ** The help *)

Lemma enumerate_filter_below (A : Type) (l : list A) (n : Z) :
  forall k,
    filter (fun r : Z * A => fst r <? n) (enumerate_from k l)
    = enumerate_from k (firstn (Z.to_nat (n - k)) l).
Proof.
  induction l as [|x l IH]; intros k; cbn [enumerate_from filter fst].
  - now rewrite firstn_nil.
  - destruct (k <? n) eqn:E.
    + rewrite IH.
      replace (Z.to_nat (n - k)) with (S (Z.to_nat (n - (k + 1)))) by lia.
      reflexivity.
    + replace (Z.to_nat (n - k)) with 0%nat by lia. cbn [firstn].
      assert (H : forall j, k <= j ->
                  filter (fun r : Z * A => fst r <? n) (enumerate_from j l)
                  = []).
      { clear IH. induction l as [|y l IHl]; intros j Hj; [reflexivity|].
        cbn [enumerate_from filter fst].
        replace (j <? n) with false by lia. apply IHl. lia. }
      apply H. lia.
Qed.

Lemma enumerate_from_rows (A B : Type) (f : A -> B) (l : list A) :
  forall k,
    map (fun r : Z * A => (fst r + 1, f (snd r))) (enumerate_from k l)
    = enumerate_from (k + 1) (map f l).
Proof.
  induction l as [|x l IH]; intros k; [reflexivity|].
  cbn [enumerate_from map fst snd]. now rewrite IH.
Qed.

Lemma enumerate_from_length (A : Type) (l : list A) :
  forall k, length (enumerate_from k l) = length l.
Proof.
  induction l as [|x l IH]; intros k; [reflexivity|].
  cbn [enumerate_from length]. now rewrite IH.
Qed.

(** X21 ([show_help_popup]).  The help window shows the first lines of
    its text, one to a row from row 1 on, each cut to the width of the
    window: as many as the window has rows less 3, and the window has at
    most 22 rows; so at most 19 lines are shown, whatever the size of the
    screen and the length of the text. *)
Theorem help_popup_lines (h w : Z) (help_text : list str) :
  show_help_popup h w help_text
  = enumerate_from 1
      (map (fun line => py_slice line 0 (Z.min 65 (w - 4) - 4))
           (firstn (Z.to_nat (Z.min 22 (h - 4) - 3)) help_text))
  /\ (length (show_help_popup h w help_text) <= 19)%nat.
Proof.
  assert (E : show_help_popup h w help_text
              = enumerate_from 1
                  (map (fun line => py_slice line 0 (Z.min 65 (w - 4) - 4))
                       (firstn (Z.to_nat (Z.min 22 (h - 4) - 3))
                               help_text))).
  { unfold show_help_popup. cbv zeta.
    rewrite enumerate_filter_below, Z.sub_0_r.
    apply (enumerate_from_rows
             (fun line => py_slice line 0 (Z.min 65 (w - 4) - 4))). }
  split; [exact E|].
  rewrite E, enumerate_from_length, length_map, length_firstn. lia.
Qed.

(** ** The search mode: what the list shows *)

(** A mouse report in the search mode moves the selection and clears
    the click feedback at most. *)
Lemma on_mouse_search_mode (s : state) (areas : list (Z * Z)) (e : env)
  (s0 : state) :
  search_mode s = true ->
  on_mouse s areas e = Next s0 ->
  fs s0 = fs s /\ cfg s0 = cfg s /\ path s0 = path s
  /\ files s0 = files s /\ search_results s0 = search_results s
  /\ search_query s0 = search_query s /\ search_mode s0 = true.
Proof.
  intros Hm. unfold on_mouse.
  destruct (getmouse e) as [[[x y] b]|];
    [|intros H; injection H as <-; repeat split; exact Hm].
  cbv zeta. rewrite Hm. cbn [negb]. rewrite !andb_false_r.
  destruct (nonzero (Z.land b BUTTON4_PRESSED));
    [intros H; injection H as <-; repeat split; exact Hm|].
  destruct (nonzero (Z.land b BUTTON5_PRESSED));
    [|intros H; injection H as <-; repeat split; exact Hm].
  destruct (nonempty (files s));
    intros H; injection H as <-; repeat split; exact Hm.
Qed.

(** A key in the search mode leaves the file system, [CONFIG] and the
    path as they are; while the search mode lasts and the query is not
    empty, the entry list is what the search finds for the query. *)
Lemma on_search_key_shows (s : state) (key : Z) (s0 : state) :
  on_search_key search_from s key = Next s0 ->
  fs s0 = fs s /\ cfg s0 = cfg s /\ path s0 = path s
  /\ (search_mode s0 = true ->
      search_query s0 <> [] ->
      (search_query s <> [] ->
       files s = map (fun r => Located (fst r) (snd r))
                     (search_from (fs s) (cfg s) (path s) (search_query s))
       /\ search_results s = files s) ->
      files s0 = map (fun r => Located (fst r) (snd r))
                     (search_from (fs s0) (cfg s0) (path s0)
                        (search_query s0))
      /\ search_results s0 = files s0).
Proof.
  unfold on_search_key.
  destruct ((key =? KEY_BACKSPACE) || (key =? 127) || (key =? 8)
            || (key =? KEY_DC)).
  { destruct (truthy (search_query s)) eqn:Et0.
    - cbv zeta.
      change (search_query
                (set_search_query (removelast (search_query s)) s))
        with (removelast (search_query s)).
      destruct (truthy (removelast (search_query s))) eqn:Et;
        intros H; injection H as <-;
        (split; [reflexivity|]); (split; [reflexivity|]);
        (split; [reflexivity|]); intros Hm0 Hq0 Hold.
      + split; reflexivity.
      + exfalso. apply Hq0. cbn.
        destruct (removelast (search_query s)); [reflexivity|discriminate].
    - intros H; injection H as <-.
      (split; [reflexivity|]); (split; [reflexivity|]);
        (split; [reflexivity|]); intros Hm0 Hq0 Hold.
      now apply Hold. }
  destruct (key =? 27).
  { intros H; injection H as <-.
    (split; [reflexivity|]); (split; [reflexivity|]);
      (split; [reflexivity|]); intros Hm0; discriminate Hm0. }
  destruct ((key =? KEY_ENTER) || (key =? 10) || (key =? 13)).
  { intros H; injection H as <-. cbv zeta.
    destruct (nonempty _);
      (split; [reflexivity|]); (split; [reflexivity|]);
      (split; [reflexivity|]); intros Hm0; discriminate Hm0. }
  destruct ((32 <=? key) && (key <=? 126));
    intros H; injection H as <-;
    (split; [reflexivity|]); (split; [reflexivity|]);
    (split; [reflexivity|]); intros Hm0 Hq0 Hold.
  - split; reflexivity.
  - now apply Hold.
Qed.

(** X22 ([main], the search mode).  During a stay in the search mode,
    whenever the query is not empty the entry list is the result of
    [search_files_recursive] for the current directory and the current
    query, each result a pair of display path and full path, and
    [search_results] is the same list. *)
Theorem search_mode_shows_results (snap : list entry) (t : state) :
  searching snap t ->
  search_query t <> [] ->
  files t = map (fun r => Located (fst r) (snd r))
                (search_files_recursive (os_listdir (fs t))
                   (os_path_isdir (fs t)) (cfg t) (path t)
                   (search_query t) 100)
  /\ search_results t = files t.
Proof.
  induction 1 as [s e s1 Hm Hf Hk H|t e t' Hs IH H Hm'].
  - apply main_step_next in H as (o & areas & key & s0 & _ & Eg & E & Hs').
    rewrite Hk in Eg. injection Eg as <-.
    change (key_of "/" =? KEY_MOUSE) with false in E. rewrite Hm in E.
    rewrite on_key_slash in E. injection E as <-.
    destruct Hs' as [-> | ->]; intros Hq; now contradiction Hq.
  - pose proof (searching_inv Hs) as (Hm & _).
    apply main_step_next in H as (o & areas & key & s0 & _ & Eg & E & Hs').
    rewrite Hm in E. intros Hq.
    assert (H0 : search_mode s0 = true -> search_query s0 <> [] ->
                 files s0
                 = map (fun r => Located (fst r) (snd r))
                       (search_from (fs s0) (cfg s0) (path s0)
                          (search_query s0))
                 /\ search_results s0 = files s0).
    { destruct (key =? KEY_MOUSE).
      - apply on_mouse_search_mode in E
          as (Ef & Ec & Ep & Efl & Er & Eq & _); [|exact Hm].
        intros _ Hq0. rewrite Ef, Ec, Ep, Efl, Er, Eq in *.
        now apply IH.
      - apply on_search_key_shows in E as (_ & _ & _ & E).
        intros Hm0 Hq0. apply E; auto. }
    unfold search_from in H0.
    destruct Hs' as [-> | ->]; now apply H0.
Qed.

Lemma search_mode_shows_results_witness :
  files (demo_after [press (key_of "/") []; press (key_of "m") []])
  = [Located (py "docs/Notes.md") (py "/home/u/docs/Notes.md")].
Proof.
  destruct (@search_mode_shows_results (files demo_state)
              (demo_after [press (key_of "/") []; press (key_of "m") []]))
    as [H _].
  - apply (@searching_turn (files demo_state)
             (demo_after [press (key_of "/") []]) (press (key_of "m") []));
      try (vm_compute; reflexivity).
    apply (@searching_start (files demo_state) demo_state
             (press (key_of "/") [])); vm_compute; reflexivity.
  - vm_compute. discriminate.
  - rewrite H. vm_compute. reflexivity.
Defined.

(** X23 ([main], the search mode).  No turn in the search mode changes
    the file system, [CONFIG] or the current directory: there nothing is
    created, renamed or deleted, and no directory is entered. *)
Theorem search_mode_touches_nothing (s : state) (e : env) (s' : state) :
  search_mode s = true ->
  main_step s e = Next s' ->
  fs s' = fs s /\ cfg s' = cfg s /\ path s' = path s.
Proof.
  intros Hm H.
  apply main_step_next in H as (o & areas & key & s0 & _ & _ & E & Hs').
  rewrite Hm in E.
  assert (H0 : fs s0 = fs s /\ cfg s0 = cfg s /\ path s0 = path s).
  { destruct (key =? KEY_MOUSE).
    - apply on_mouse_search_mode in E as (Ef & Ec & Ep & _);
        [|exact Hm]. auto.
    - apply on_search_key_shows in E as (Ef & Ec & Ep & _). auto. }
  destruct Hs' as [-> | ->]; exact H0.
Qed.

Lemma search_mode_touches_nothing_witness :
  fs (demo_after [press (key_of "/") []; press (key_of "d") []])
  = fs demo_state.
Proof.
  apply (@search_mode_touches_nothing
           (demo_after [press (key_of "/") []]) (press (key_of "d") [])
           (demo_after [press (key_of "/") []; press (key_of "d") []]));
    vm_compute; reflexivity.
Defined.
